(** * dmm: a module manager for Deno -- manifest parser and rewriter

    A shallow embedding of [src/dmm.ts] (the first generation of the tool:
    [getModulesFromDepsFile], [addGitHubUrlForModules],
    [addLatestReleaseForModules], [purposes.check], [purposes.update]) and of
    the two later command files ([UpdateSubcommand.handle] and [check]),
    together with the properties of the parser and of the rewriter.

    Conventions of the embedding.
    - A JavaScript string is a [string]; a code unit is an [ascii].  Every
      literal of the program is ASCII and no built-in used here looks inside
      a code unit, so the width of a code unit plays no role.
    - Positions returned by [indexOf]/[lastIndexOf] are in [Z] because the
      program computes with the [-1] of a failed search.
    - [undefined] is [None]; where the program concatenates a possibly
      undefined value to a string, JavaScript prints it as ["undefined"].
    - Exceptions, [Deno.exit], the files and the console are threaded
      through the monad [Deno].  A file is held as the text that the
      decoder reads from it, not as bytes.
    - The network is a parameter: the outcome of each [fetch], which is an
      answer or the exception with which the request rejects.  The parsed
      registry is an object; a lookup in it finds its own members and the
      names that every object inherits. *)

From Stdlib Require Import ZArith Lia Ascii.
From stdpp Require Import base option list strings gmap.

Local Open Scope Z_scope.

(** ** The built-ins of [String.prototype] and [Array.prototype] in use *)

Module JS.

(** [s.startsWith(pat)] *)
Fixpoint startsWith (s pat : string) {struct pat} : bool :=
  match pat, s with
  | "", _ => true
  | String p pat', String c s' => Ascii.eqb p c && startsWith s' pat'
  | String _ _, "" => false
  end.

(** Smallest position at which [pat] occurs in [s]. *)
Fixpoint find_first (s pat : string) {struct s} : option nat :=
  if startsWith s pat then Some 0%nat
  else match s with
       | "" => None
       | String _ s' => S <$> find_first s' pat
       end.

(** Largest position at which [pat] occurs in [s]. *)
Fixpoint find_last (s pat : string) {struct s} : option nat :=
  match s with
  | "" => if startsWith "" pat then Some 0%nat else None
  | String _ s' =>
      match find_last s' pat with
      | Some k => Some (S k)
      | None => if startsWith s pat then Some 0%nat else None
      end
  end.

(** A failed search is [-1]. *)
Definition position (o : option nat) : Z :=
  match o with
  | Some k => Z.of_nat k
  | None => -1
  end.

(** [s.indexOf(pat)] *)
Definition indexOf (s pat : string) : Z := position (find_first s pat).

(** [s.lastIndexOf(pat)] *)
Definition lastIndexOf (s pat : string) : Z := position (find_last s pat).

Fixpoint take (n : nat) (s : string) : string :=
  match n, s with
  | S k, String c s' => String c (take k s')
  | _, _ => ""
  end.

Fixpoint drop (n : nat) (s : string) : string :=
  match n, s with
  | S k, String _ s' => drop k s'
  | _, _ => s
  end.

(** [s.substring(start, end)]: both ends are clamped to [0 .. s.length]
    and swapped when [start > end]. *)
Definition substring (s : string) (start end_ : Z) : string :=
  let len := Z.of_nat (String.length s) in
  let finalStart := Z.min (Z.max start 0) len in
  let finalEnd := Z.min (Z.max end_ 0) len in
  let from := Z.min finalStart finalEnd in
  let to := Z.max finalStart finalEnd in
  take (Z.to_nat (to - from)) (drop (Z.to_nat from) s).

(** The code units of [s], one string each: [s.split("")]. *)
Fixpoint units (s : string) : list string :=
  match s with
  | "" => []
  | String c s' => String c "" :: units s'
  end.

(** Splitting at a non-empty separator.  [skip] counts the code units of
    a separator just found that are still to be passed over. *)
Fixpoint split_go (sep : string) (skip : nat) (s : string) : list string :=
  match s with
  | "" => [""]
  | String c s' =>
      match skip with
      | S k => split_go sep k s'
      | O =>
          if startsWith s sep
          then "" :: split_go sep (String.length sep - 1) s'
          else match split_go sep 0 s' with
               | piece :: rest => String c piece :: rest
               | [] => [String c ""]
               end
      end
  end.

(** [s.split(sep)] *)
Definition split (s sep : string) : list string :=
  match sep with
  | "" => units s
  | _ => split_go sep 0 s
  end.

(** [arr.join(sep)] *)
Fixpoint join (arr : list string) (sep : string) : string :=
  match arr with
  | [] => ""
  | [x] => x
  | x :: rest => x +:+ sep +:+ join rest sep
  end.

(** GetSubstitution of ECMA-262 for a string pattern: there are no
    captures, so only [$$], [$&], [$`] and [$'] are special in the
    replacement text. *)
Fixpoint GetSubstitution (matched before after replacement : string) : string :=
  match replacement with
  | "" => ""
  | String c r =>
      if Ascii.eqb c "$"
      then match r with
           | String d r' =>
               if Ascii.eqb d "$" then String "$" (GetSubstitution matched before after r')
               else if Ascii.eqb d "&" then matched +:+ GetSubstitution matched before after r'
               else if Ascii.eqb d "`" then before +:+ GetSubstitution matched before after r'
               else if Ascii.eqb d "'" then after +:+ GetSubstitution matched before after r'
               else String c (GetSubstitution matched before after r)
           | "" => String c ""
           end
      else String c (GetSubstitution matched before after r)
  end.

(** [s.replace(pat, replacement)] with a string pattern: the first
    occurrence only. *)
Definition replace (s pat replacement : string) : string :=
  match find_first s pat with
  | None => s
  | Some k =>
      let before := take k s in
      let after := drop (k + String.length pat) s in
      before +:+ GetSubstitution pat before after replacement +:+ after
  end.

(** [arr.indexOf(x)] on an array of strings *)
Fixpoint arr_find (arr : list string) (x : string) : option nat :=
  match arr with
  | [] => None
  | y :: rest => if String.eqb y x then Some 0%nat else S <$> arr_find rest x
  end.

Definition arr_indexOf (arr : list string) (x : string) : Z :=
  position (arr_find arr x).

(** String concatenation with a value that may be [undefined]. *)
Definition str (v : option string) : string :=
  match v with
  | Some s => s
  | None => "undefined"
  end.

End JS.

(** The double quote and the line feed, which the program writes as
    escapes inside its literals. *)
Definition dquote_unit : ascii := Eval cbv in ascii_of_nat 34.
Definition nl_unit : ascii := Eval cbv in ascii_of_nat 10.
Definition dquote : string := String dquote_unit "".
Definition nl : string := String nl_unit "".

(** ** Effects: exceptions, process exit, files and the console *)

Inductive Exn : Type :=
  | TypeError            (* a property read on [undefined] or [null];
                            a request that [fetch] rejects *)
  | SyntaxError          (* [res.json()] on a body that is not JSON *)
  | NotFound (path : string).  (* [Deno.readFileSync] on a missing file *)

Inductive Outcome (A : Type) : Type :=
  | Returned (a : A)
  | Thrown (e : Exn)
  | Exited (code : Z).
Arguments Returned {A} a.
Arguments Thrown {A} e.
Arguments Exited {A} code.

(** One line written to the terminal, tagged by the call that wrote it.
    [LoggerInfo] and [LoggerError] are [ConsoleLogger.info] and
    [ConsoleLogger.error]; the entry holds the message passed. *)
Inductive Entry : Type :=
  | ConsoleInfo (msg : string)
  | ConsoleLog (msg : string)
  | LoggerInfo (msg : string)
  | LoggerError (msg : string).

Record World : Type := mkWorld {
  cwd : string;
  files : gmap string string;
  console : list Entry
}.

Definition Deno (A : Type) : Type := World → Outcome A * World.

Definition ret {A} (a : A) : Deno A := λ w, (Returned a, w).

Definition bind {A B} (c : Deno A) (k : A → Deno B) : Deno B :=
  λ w, match c w with
       | (Returned a, w') => k a w'
       | (Thrown e, w') => (Thrown e, w')
       | (Exited n, w') => (Exited n, w')
       end.

Notation "'let*' x ':=' c 'in' k" := (bind c (λ x, k))
  (at level 10, x name, c at level 100, k at level 200).
Notation "c ';;;' k" := (bind c (λ _, k))
  (at level 100, k at level 200, right associativity).

Definition throw {A} (e : Exn) : Deno A := λ w, (Thrown e, w).
Definition Deno_exit {A} (code : Z) : Deno A := λ w, (Exited code, w).

(** A computation that touches neither files nor console, run inside [Deno]. *)
Definition lift {A} (o : Outcome A) : Deno A := λ w, (o, w).

Definition emit (e : Entry) : Deno unit :=
  λ w, (Returned (), mkWorld (cwd w) (files w) (console w ++ [e])).

Definition console_info (msg : string) : Deno unit := emit (ConsoleInfo msg).
Definition console_log (msg : string) : Deno unit := emit (ConsoleLog msg).
Definition ConsoleLogger_info (msg : string) : Deno unit := emit (LoggerInfo msg).
Definition ConsoleLogger_error (msg : string) : Deno unit := emit (LoggerError msg).

Definition Deno_cwd : Deno string := λ w, (Returned (cwd w), w).

(** [decoder.decode(Deno.readFileSync(path))].  The files of a [World]
    are held as text: [files w !! path] is the string that decoding the
    bytes of the file gives.  The bytes themselves are not part of the
    model, so nothing proved over it says that a file read and written
    back with the same text has the same bytes: the decoder drops a byte
    order mark and replaces invalid sequences, and the encoder restores
    neither. *)
Definition readFileSync (path : string) : Deno string :=
  λ w, match files w !! path with
       | Some content => (Returned content, w)
       | None => (Thrown (NotFound path), w)
       end.

(** [Deno.writeFileSync(path, new TextEncoder().encode(content))]: the
    file now holds the encoding of [content], which decodes to [content]
    unless [content] itself starts with a byte order mark, which the next
    read would drop; no manifest that is read back below does. *)
Definition writeFileSync (path content : string) : Deno unit :=
  λ w, (Returned (), mkWorld (cwd w) (<[path := content]> (files w)) (console w)).

(** [arr.forEach(body)] where the body updates variables of the enclosing
    function, here the state [s]. *)
Fixpoint forEach {A S} (arr : list A) (body : A → S → Deno S) (s : S) : Deno S :=
  match arr with
  | [] => ret s
  | x :: rest => let* s' := body x s in forEach rest body s'
  end.

(** [arr.forEach(body)] where the body assigns to fields of the element. *)
Fixpoint forEach_mut {A} (arr : list A) (body : A → Deno A) : Deno (list A) :=
  match arr with
  | [] => ret []
  | x :: rest =>
      let* x' := body x in
      let* rest' := forEach_mut rest body in
      ret (x' :: rest')
  end.

(** ** [src/dmm.ts] *)

Module Dmm.

(** [interface Module] *)
Record Module : Type := mkModule {
  std : bool;
  name : string;
  version : string;
  url : string;
  repo : option string;
  latestRelease : option string;
  updated : option bool
}.

(** The object literal [{std, name, version, url}]. *)
Definition new_module (std : bool) (name version url : string) : Module :=
  mkModule std name version url None None None.

Definition set_repo (m : Module) (r : string) : Module :=
  mkModule (std m) (name m) (version m) (url m) (Some r) (latestRelease m) (updated m).

Definition set_latestRelease (m : Module) (v : string) : Module :=
  mkModule (std m) (name m) (version m) (url m) (repo m) (Some v) (updated m).

Definition set_updated (m : Module) (b : bool) : Module :=
  mkModule (std m) (name m) (version m) (url m) (repo m) (latestRelease m) (Some b).

(** [a === b] between a string and a string that may be [undefined]. *)
Definition strict_eq (a : string) (b : option string) : bool :=
  match b with
  | Some b' => String.eqb a b'
  | None => false
  end.

(** *** [getModulesFromDepsFile], line by line *)

(** Line 75: the lines that import from the registry. *)
Definition imports_from_registry (dep : string) : bool :=
  negb (JS.indexOf dep ("from " +:+ dquote +:+ "https://deno.land/") =? -1).

(** Line 79 *)
Definition std_of (dep : string) : bool :=
  0 <=? JS.indexOf dep "https://deno.land/std".

(** Lines 80-83 *)
Definition url_of (dep : string) : string :=
  JS.substring dep
    (JS.lastIndexOf dep ("from " +:+ dquote) + 6)
    (JS.lastIndexOf dep dquote).

(** Lines 84-89.  [x[1]] of a split is [undefined] when the separator
    does not occur, and calling [.split] on it throws; [x[0]] of a split
    always exists. *)
Definition version_of (std : bool) (dep : string) : Outcome string :=
  if std
  then match JS.split dep "/std@" !! 1%nat with
       | Some rest => Returned (hd "" (JS.split rest "/"))
       | None => Thrown TypeError
       end
  else Returned (JS.substring dep
                   (JS.lastIndexOf dep "@" + 1)
                   (JS.lastIndexOf dep "/mod.ts")).

(** Lines 90-95 *)
Definition name_of (std : bool) (version dep : string) : Outcome string :=
  if std
  then match JS.split dep ("@" +:+ version +:+ "/") !! 1%nat with
       | Some rest => Returned (hd "" (JS.split rest "/"))
       | None => Thrown TypeError
       end
  else Returned (JS.substring dep
                   (JS.lastIndexOf dep "/x/" + 3)
                   (JS.lastIndexOf dep "@")).

(** Lines 79-95: the record of one importing line. *)
Definition grab (dep : string) : Outcome Module :=
  let std := std_of dep in
  let url := url_of dep in
  match version_of std dep with
  | Returned version =>
      match name_of std version dep with
      | Returned name => Returned (new_module std name version url)
      | Thrown e => Thrown e
      | Exited n => Exited n
      end
  | Thrown e => Thrown e
  | Exited n => Exited n
  end.

(** Lines 98 and 101: whether the user wants this module. *)
Definition wanted (modulesForPurpose : list string) (name : string) : bool :=
  (negb (Z.of_nat (length modulesForPurpose) =? 0)
     && (0 <=? JS.arr_indexOf modulesForPurpose name))
  || (Z.of_nat (length modulesForPurpose) =? 0).

(** Lines 73-105: the body of the loop over the lines; [modules] is the
    array being filled. *)
Definition collate (modulesForPurpose : list string) (purpose : string)
    (dep : string) (modules : list Module) : Deno (list Module) :=
  if JS.indexOf dep ("from " +:+ dquote +:+ "https://deno.land/") =? -1
  then ret modules
  else
    let* m := lift (grab dep) in
    if negb (Z.of_nat (length modulesForPurpose) =? 0)
         && (0 <=? JS.arr_indexOf modulesForPurpose (name m))
    then
      console_info ("Added " +:+ name m +:+ " into the list to " +:+ purpose) ;;;
      ret (modules ++ [m])
    else if Z.of_nat (length modulesForPurpose) =? 0
    then
      console_info ("Added " +:+ name m +:+ " into the list to " +:+ purpose) ;;;
      ret (modules ++ [m])
    else ret modules.

(** Lines 70-71 *)
Definition lines_of (depsContent : string) : list string :=
  filter (λ dep, dep ≠ "") (JS.split depsContent nl).

Definition getModulesFromDepsFile (modulesForPurpose : list string)
    (purpose : string) : Deno (list Module) :=
  console_info "Reading deps.ts..." ;;;
  let* usersWorkingDir := Deno_cwd in
  let* depsContent := readFileSync (usersWorkingDir +:+ "/deps.ts") in
  forEach (lines_of depsContent) (collate modulesForPurpose purpose) [].

(** *** The registry's [database.json] *)

(** What reading [.owner] and [.repo] off a value gives, as string
    concatenation prints it: [None] is [undefined]. *)
Record DatabaseEntry : Type := mkEntry {
  owner : option string;
  entry_repo : option string
}.

(** A member of the parsed [database.json], as far as the two property
    reads go: [null], on which a property read throws, or any other value.
    A number, a string, a boolean, an array or a function has neither
    property and is [Fields (mkEntry None None)]. *)
Inductive Member : Type :=
  | Null
  | Fields (entry : DatabaseEntry).

(** The names that every object inherits from [Object.prototype]. *)
Definition Object_prototype_keys : list string :=
  [ "constructor"; "__defineGetter__"; "__defineSetter__"; "hasOwnProperty";
    "__lookupGetter__"; "__lookupSetter__"; "isPrototypeOf";
    "propertyIsEnumerable"; "toString"; "valueOf"; "__proto__";
    "toLocaleString" ].

(** [denoDatabase[key]] for the object that [res.json()] gives: an own
    member, else what the name inherits (a function, or the prototype
    itself for [__proto__]), else [undefined]. *)
Definition get_member (denoDatabase : gmap string Member) (key : string)
    : option Member :=
  match denoDatabase !! key with
  | Some member => Some member
  | None =>
      if bool_decide (key ∈ Object_prototype_keys)
      then Some (Fields (mkEntry None None))
      else None
  end.

(** *** [addGitHubUrlForModules], one record *)

(** Lines 121-127, the body of the loop. *)
Definition add_repo (denoDatabase : gmap string Member) (module : Module)
    : Deno Module :=
  if bool_decide (std module = false)
  then match get_member denoDatabase (name module) with
       | Some (Fields entry) =>
           ret (set_repo module
                  ("https://github.com/" +:+ JS.str (owner entry) +:+ "/"
                     +:+ JS.str (entry_repo entry)))
       | Some Null => throw TypeError
       | None => throw TypeError
       end
  else ret (set_repo module ("https://github.com/denoland/deno/std/" +:+ name module)).

Section WithDeps.

(** What [dmm.ts] imports from [./deps.ts], and the two network
    resources it awaits.  [database_json] is the outcome of fetching the
    registry's [database.json] and of [res.json()] on the answer: the
    parsed file, a JSON object, as the map of its own members, or the
    exception with which either promise rejects.
    [fetch_url url] is the outcome of [fetch(url)]: the address [res.url]
    at which the redirects end, or the exception with which the request
    rejects (an invalid address, no network). *)
Variable denoStdLatestVersion : string.
Variable colours_yellow colours_green : string → string.
Variable database_json : Exn + gmap string Member.
Variable fetch_url : string → Exn + string.

(** *** [addGitHubUrlForModules] *)

Definition addGitHubUrlForModules (modules : list Module) : Deno (list Module) :=
  match database_json with
  | inr denoDatabase => forEach_mut modules (add_repo denoDatabase)
  | inl e => throw e
  end.

(** *** [addLatestReleaseForModules] *)

(** Lines 142-151, the body of the loop. *)
Definition add_latest (module : Module) : Deno Module :=
  if bool_decide (std module = false)
  then
    match fetch_url (JS.str (repo module) +:+ "/releases/latest") with
    | inr res_url =>
        let splitUrl := JS.split res_url "/" in
        let latestVersion := default "" (last splitUrl) in
        ret (set_latestRelease module latestVersion)
    | inl e => throw e
    end
  else ret (set_latestRelease module denoStdLatestVersion).

Definition addLatestReleaseForModules (modules : list Module) : Deno (list Module) :=
  forEach_mut modules add_latest.

(** *** [purposes.check] *)

(** Line 165 *)
Definition can_be_updated (module : Module) : bool :=
  negb (strict_eq (version module) (latestRelease module)).

(** Lines 164-170; the state is
    [(depsCanBeUpdated, listOfModuleNamesToBeUpdated)]. *)
Definition compare_versions (module : Module) (st : bool * list string)
    : Deno (bool * list string) :=
  if negb (strict_eq (version module) (latestRelease module))
  then
    console_log (colours_yellow
      (name module +:+ " can be updated from " +:+ version module +:+ " to "
         +:+ JS.str (latestRelease module))) ;;;
    ret (true, st.2 ++ [name module])
  else ret st.

Definition purposes_check (modules : list Module) : Deno unit :=
  console_info "Comparing versions..." ;;;
  let* st := forEach modules compare_versions (false, []) in
  if st.1
  then console_info
         ("To update, run: " +:+ nl
            +:+ "    deno run --allow-net --allow-read --allow-write https://github.com/ebebbington/dmm/mod.ts update "
            +:+ JS.join st.2 " ")
  else console_info (colours_green "Your dependencies are up to date").

(** *** [purposes.update] *)

(** Lines 186 and 193: the records the rewriter leaves alone. *)
Definition up_to_date (module : Module) : bool :=
  if bool_decide (std module = true)
  then String.eqb (version module) denoStdLatestVersion
  else strict_eq (version module) (latestRelease module).

(** The first argument of [replace] on lines 189 and 196. *)
Definition old_fragment (module : Module) : string :=
  if bool_decide (std module = true)
  then "std@" +:+ version module +:+ "/" +:+ name module
  else name module +:+ "@" +:+ version module.

(** The second argument of [replace] on lines 189 and 196. *)
Definition new_fragment (module : Module) : string :=
  if bool_decide (std module = true)
  then "std@" +:+ denoStdLatestVersion +:+ "/" +:+ name module
  else name module +:+ "@" +:+ JS.str (latestRelease module).

(** Lines 183-199, the body of the loop: the record and [depsContent]
    before, the record and [depsContent] after. *)
Definition rewrite_module (module : Module) (depsContent : string)
    : Module * string :=
  if bool_decide (std module = true)
  then
    if String.eqb (version module) denoStdLatestVersion
    then (module, depsContent)
    else (set_updated module true,
          JS.replace depsContent
            ("std@" +:+ version module +:+ "/" +:+ name module)
            ("std@" +:+ denoStdLatestVersion +:+ "/" +:+ name module))
  else
    if strict_eq (version module) (latestRelease module)
    then (module, depsContent)
    else (set_updated module true,
          JS.replace depsContent
            (name module +:+ "@" +:+ version module)
            (name module +:+ "@" +:+ JS.str (latestRelease module))).

Fixpoint rewrite_modules (modules : list Module) (depsContent : string)
    : list Module * string :=
  match modules with
  | [] => ([], depsContent)
  | module :: rest =>
      let '(module', depsContent') := rewrite_module module depsContent in
      let '(rest', depsContent'') := rewrite_modules rest depsContent' in
      (module' :: rest', depsContent'')
  end.

(** Lines 203-209 *)
Definition report_updated (module : Module) (_ : unit) : Deno unit :=
  if bool_decide (std module = true) && bool_decide (updated module = Some true)
  then console_info (colours_green
         (name module +:+ " was updated from " +:+ version module +:+ " to "
            +:+ denoStdLatestVersion))
  else if bool_decide (std module = false) && bool_decide (updated module = Some true)
  then console_info (colours_green
         (name module +:+ " was updated from " +:+ version module +:+ " to "
            +:+ JS.str (latestRelease module)))
  else ret ().

(** The records are objects shared with the caller, which sees the
    [updated] flags afterwards: they are the result here. *)
Definition purposes_update (modules : list Module) : Deno (list Module) :=
  console_info "Updating..." ;;;
  let* usersWorkingDir := Deno_cwd in
  let* depsContent := readFileSync (usersWorkingDir +:+ "/deps.ts") in
  let '(modules', depsContent') := rewrite_modules modules depsContent in
  writeFileSync (usersWorkingDir +:+ "/deps.ts") depsContent' ;;;
  forEach modules' report_updated () ;;;
  let depsWereUpdated :=
    bool_decide (1 ≤ length (filter (λ module, updated module = Some true) modules'))%nat in
  (if negb depsWereUpdated
   then console_info (colours_green "Everything is already up to date")
   else ret ()) ;;;
  ret modules'.

(** Modelled from the spec: the orchestrator ([mod.ts], not part of the
    sources at hand), which "wires Parser, Resolver, Selector and Rewriter
    for the check and update commands".  [resolve] is the Parser followed
    by the Resolver. *)
Definition resolve (modulesForPurpose : list string) (purpose : string)
    : Deno (list Module) :=
  let* modules := getModulesFromDepsFile modulesForPurpose purpose in
  let* modules := addGitHubUrlForModules modules in
  addLatestReleaseForModules modules.

(** Modelled from the spec: the check command of the orchestrator. *)
Definition run_check (modulesForPurpose : list string) : Deno unit :=
  let* modules := resolve modulesForPurpose "check" in
  purposes_check modules.

(** Modelled from the spec: the update command of the orchestrator. *)
Definition run_update (modulesForPurpose : list string) : Deno (list Module) :=
  let* modules := resolve modulesForPurpose "update" in
  purposes_update modules.

End WithDeps.

End Dmm.

(** ** The later command files: [UpdateSubcommand.handle] and [check] *)

Module Commands.

(** Modelled from the spec: the record type of [ModuleService], declared
    outside the sources at hand.  The fields are those the two commands
    read; as in the data model, the latest version is optional. *)
Record IModule : Type := mkIModule {
  std : bool;
  name : string;
  importedVersion : string;
  importUrl : string;
  latestRelease : option string
}.

(** [a === b] and [a !== b] between a string and a string that may be
    [undefined]. *)
Definition strict_eq (a : string) (b : option string) : bool :=
  match b with
  | Some b' => String.eqb a b'
  | None => false
  end.

(** The callback of [allModules.filter] in both commands. *)
Definition selected (dependencies : list string) (module : IModule) : bool :=
  if negb (Z.of_nat (length dependencies) =? 0)
  then -1 <? JS.arr_indexOf dependencies (name module)
  else true.

(** [arr.filter(f)] for a callback returning a boolean. *)
Fixpoint arr_filter {A} (f : A → bool) (arr : list A) : list A :=
  match arr with
  | [] => []
  | x :: rest => if f x then x :: arr_filter f rest else arr_filter f rest
  end.

(** [arr.find(f)] *)
Fixpoint arr_find_by {A} (f : A → bool) (arr : list A) : option A :=
  match arr with
  | [] => None
  | x :: rest => if f x then Some x else arr_find_by f rest
  end.

Section WithService.

(** Modelled from the spec: [ModuleService.constructModulesDataFromDeps]
    (services/module_service.ts, not part of the sources at hand) is
    the Parser followed by the Resolver: from the manifest at the given
    location (the default one when none is given) to the list of
    records.  It reads the manifest and never writes it, so it is a
    function of the world that may throw. *)
Variable constructModulesDataFromDeps :
  option string → World → Exn + list IModule.

Definition construct (depsLocation : option string) : Deno (list IModule) :=
  λ w, match constructModulesDataFromDeps depsLocation w with
       | inr allModules => (Returned allModules, w)
       | inl e => (Thrown e, w)
       end.

(** *** [check] *)

(** Lines 33-42; the state is
    [(depsCanBeUpdated, listOfModuleNamesToBeUpdated)]. *)
Definition compare_versions (module : IModule) (st : bool * list string)
    : Deno (bool * list string) :=
  if negb (strict_eq (importedVersion module) (latestRelease module))
  then
    ConsoleLogger_info
      (name module +:+ " can be updated from " +:+ importedVersion module
         +:+ " to " +:+ JS.str (latestRelease module)) ;;;
    ret (true, st.2 ++ [name module])
  else ret st.

Definition check (dependencies : list string) : Deno unit :=
  let* allModules := construct None in
  let selectedModules := arr_filter (selected dependencies) allModules in
  (if Z.of_nat (length selectedModules) =? 0
   then ConsoleLogger_error "Modules specified do not exist in your dependencies." ;;;
        Deno_exit 1
   else ret ()) ;;;
  ConsoleLogger_info "Comparing versions..." ;;;
  let* st := forEach selectedModules compare_versions (false, []) in
  if st.1
  then ConsoleLogger_info
         ("To update, run: " +:+ nl +:+ "    dmm update " +:+ JS.join st.2 " ")
  else ConsoleLogger_info "Your dependencies are up to date".

(** *** [UpdateSubcommand.handle] *)

(** The first argument of [depsContent.replace] on lines 49 and 59. *)
Definition old_fragment (module : IModule) : string :=
  if std module
  then "std@" +:+ importedVersion module +:+ "/" +:+ name module
  else importUrl module.

(** Lines 43-66, the body of the loop; the state is
    [(depsContent, depsWereUpdated)]. *)
Definition rewrite_module (module : IModule) (st : string * bool)
    : Deno (string * bool) :=
  if strict_eq (importedVersion module) (latestRelease module)
  then ret st
  else
    let depsContent :=
      if std module
      then JS.replace st.1
             ("std@" +:+ importedVersion module +:+ "/" +:+ name module)
             ("std@" +:+ JS.str (latestRelease module) +:+ "/" +:+ name module)
      else
        let newImportUrl := importUrl module in
        let newImportUrl :=
          JS.replace newImportUrl (importedVersion module)
            (JS.str (latestRelease module)) in
        JS.replace st.1 (importUrl module) newImportUrl in
    ConsoleLogger_info
      (name module +:+ " was updated from " +:+ importedVersion module
         +:+ " to " +:+ JS.str (latestRelease module)) ;;;
    ret (depsContent, true).

(** Lines 10-11; [args] is [Deno.args]. *)
Definition depsLocation_of (args : list string) : string :=
  default "deps.ts" (arr_find_by (λ arg, -1 <? JS.indexOf arg ".ts") args).

(** Lines 12-14 *)
Definition dependencies_of (args : list string) : list string :=
  arr_filter (λ arg, (JS.indexOf arg ".ts" =? -1)
                       && (JS.indexOf arg "update" =? -1)) args.

Definition handle (args : list string) : Deno unit :=
  let depsLocation := depsLocation_of args in
  let dependencies := dependencies_of args in
  let* allModules := construct (Some depsLocation) in
  let modules := arr_filter (selected dependencies) allModules in
  (if Z.of_nat (length modules) =? 0
   then ConsoleLogger_error "Modules specified do not exist in your dependencies." ;;;
        Deno_exit 1
   else ret ()) ;;;
  ConsoleLogger_info "Checking if your modules can be updated..." ;;;
  let* usersWorkingDir := Deno_cwd in
  let* depsContent := readFileSync (usersWorkingDir +:+ "/" +:+ depsLocation) in
  let* st := forEach modules rewrite_module (depsContent, false) in
  writeFileSync (usersWorkingDir +:+ "/" +:+ depsLocation) st.1 ;;;
  if negb st.2
  then ConsoleLogger_info "Everything is already up to date"
  else ret ().

End WithService.

End Commands.

(** ** The vocabulary of the properties *)

(** [pat] occurs in [s]. *)
Definition occurs (pat s : string) : Prop :=
  ∃ pre post, s = pre +:+ pat +:+ post.




(** What the loop does to the flag of one record. *)
Definition flagged (denoStdLatestVersion : string) (module : Dmm.Module)
    : Dmm.Module :=
  if Dmm.up_to_date denoStdLatestVersion module then module else Dmm.set_updated module true.

(** The line that [purposes.check] prints for a record. *)
Definition can_be_updated_line (colours_yellow : string → string)
    (module : Dmm.Module) : Entry :=
  ConsoleLog (colours_yellow
    (Dmm.name module +:+ " can be updated from " +:+ Dmm.version module +:+ " to "
       +:+ JS.str (Dmm.latestRelease module))).

(** The line that [check] prints for a record. *)
Definition can_be_updated_info (module : Commands.IModule) : Entry :=
  LoggerInfo
    (Commands.name module +:+ " can be updated from " +:+ Commands.importedVersion module
       +:+ " to " +:+ JS.str (Commands.latestRelease module)).

(** [importedVersion !== latestRelease] *)
Definition needs_update (module : Commands.IModule) : bool :=
  negb (Commands.strict_eq (Commands.importedVersion module) (Commands.latestRelease module)).

Definition no_modules_error : Entry :=
  LoggerError "Modules specified do not exist in your dependencies.".

Definition outcome_map {A B} (f : A → B) (o : Outcome A) : Outcome B :=
  match o with
  | Returned a => Returned (f a)
  | Thrown e => Thrown e
  | Exited n => Exited n
  end.

(** The records of all the lines that import from the registry, in order:
    what the manifest declares, whatever the user requests. *)
Fixpoint declared_in (deps : list string) : Outcome (list Dmm.Module) :=
  match deps with
  | [] => Returned []
  | dep :: rest =>
      if Dmm.imports_from_registry dep
      then match Dmm.grab dep with
           | Returned m => outcome_map (cons m) (declared_in rest)
           | Thrown e => Thrown e
           | Exited n => Exited n
           end
      else declared_in rest
  end.

Definition declared (depsContent : string) : Outcome (list Dmm.Module) :=
  declared_in (Dmm.lines_of depsContent).

(** The records whose name passes the filter. *)
Definition keep (modulesForPurpose : list string) (modules : list Dmm.Module)
    : list Dmm.Module :=
  List.filter (λ m, Dmm.wanted modulesForPurpose (Dmm.name m)) modules.

(** The world [w] after the entries [es] were written to the terminal. *)
Definition logged (w : World) (es : list Entry) : World :=
  mkWorld (cwd w) (files w) (console w ++ es).

(** The line that the parser prints for a record it keeps. *)
Definition added_line (purpose : string) (m : Dmm.Module) : Entry :=
  ConsoleInfo ("Added " +:+ Dmm.name m +:+ " into the list to " +:+ purpose).

(** The text of [s] up to the first occurrence of [sep], and all of [s]
    when [sep] does not occur: the first piece of [s.split(sep)]. *)
Definition upto (s sep : string) : string :=
  match JS.find_first s sep with
  | Some k => JS.take k s
  | None => s
  end.



(** The address that [addLatestReleaseForModules] requests for a record. *)
Definition latest_request (m : Dmm.Module) : string :=
  JS.str (Dmm.repo m) +:+ "/releases/latest".

(** A record and the same record with a latest release: the constant for
    the standard library, the last path segment of the address at which
    the request for the latest release ends for the others. *)
Definition latest_added (denoStdLatestVersion : string) (fetch_url : string → Exn + string)
    (m m' : Dmm.Module) : Prop :=
  ∃ latest, m' = Dmm.set_latestRelease m latest
            ∧ (Dmm.std m = true → latest = denoStdLatestVersion)
            ∧ (Dmm.std m = false →
               ¬ occurs "/" latest
               ∧ ∃ pre, fetch_url (latest_request m) = inr (pre +:+ latest)
                        ∧ (pre = "" ∨ ∃ p, pre = p +:+ "/")).

(** The last line that [purposes.check] prints. *)
Definition check_summary (colours_green : string → string)
    (modules : list Dmm.Module) : Entry :=
  if existsb Dmm.can_be_updated modules
  then ConsoleInfo
         ("To update, run: " +:+ nl
            +:+ "    deno run --allow-net --allow-read --allow-write https://github.com/ebebbington/dmm/mod.ts update "
            +:+ JS.join (Dmm.name <$> List.filter Dmm.can_be_updated modules) " ")
  else ConsoleInfo (colours_green "Your dependencies are up to date").




(** Two records that differ in their [updated] flag at most. *)
Definition same_but_flag (m m' : Dmm.Module) : Prop :=
  Dmm.std m' = Dmm.std m
  ∧ Dmm.name m' = Dmm.name m
  ∧ Dmm.version m' = Dmm.version m
  ∧ Dmm.url m' = Dmm.url m
  ∧ Dmm.repo m' = Dmm.repo m
  ∧ Dmm.latestRelease m' = Dmm.latestRelease m.

(** The line that [UpdateSubcommand.handle] prints for a record that is not
    at its latest release. *)
Definition was_updated_info (m : Commands.IModule) : Entry :=
  LoggerInfo
    (Commands.name m +:+ " was updated from " +:+ Commands.importedVersion m
       +:+ " to " +:+ JS.str (Commands.latestRelease m)).

(** The text after the step of [UpdateSubcommand.handle] for one record. *)
Definition handle_text (m : Commands.IModule) (text : string) : string :=
  if needs_update m
  then if Commands.std m
       then JS.replace text
              ("std@" +:+ Commands.importedVersion m +:+ "/" +:+ Commands.name m)
              ("std@" +:+ JS.str (Commands.latestRelease m) +:+ "/" +:+ Commands.name m)
       else JS.replace text (Commands.importUrl m)
              (JS.replace (Commands.importUrl m) (Commands.importedVersion m)
                 (JS.str (Commands.latestRelease m)))
  else text.


(** The last line that [check] prints. *)
Definition check_summary_info (modules : list Commands.IModule) : Entry :=
  if existsb needs_update modules
  then LoggerInfo ("To update, run: " +:+ nl +:+ "    dmm update "
                     +:+ JS.join (Commands.name <$> List.filter needs_update modules) " ")
  else LoggerInfo "Your dependencies are up to date".

(** A line that imports the third-party module [n] at version [v]. *)
Definition third_party_line (pre n v post : string) : string :=
  pre +:+ "/x/" +:+ n +:+ "@" +:+ v +:+ "/mod.ts" +:+ post.

(** The markers shown in [third_party_line pre n v post] are the last of
    their kind in the line, and the line does not mention the standard
    library. *)
Definition markers_last (pre n v post : string) : Prop :=
  Dmm.std_of (third_party_line pre n v post) = false
  ∧ ¬ occurs "/x/" ("x/" +:+ n +:+ "@" +:+ v +:+ "/mod.ts" +:+ post)
  ∧ ¬ occurs "@" (v +:+ "/mod.ts" +:+ post)
  ∧ ¬ occurs "/mod.ts" ("mod.ts" +:+ post).

(** ** The manifest format, in the words of the specification *)

Module Spec.

(** "Split rawText into lines; discard empty lines." *)
Definition lines (rawText : string) : list string :=
  List.filter (λ line, negb (String.eqb line "")) (JS.split rawText nl).

(** "The quoted source string" of an import or export statement: the
    text between the opening quote that follows [from] and the matching
    closing quote. *)
Definition quoted_source (line : string) : option string :=
  match JS.find_first line ("from " +:+ dquote) with
  | Some k =>
      let rest := JS.drop (k + 6) line in
      match JS.find_first rest dquote with
      | Some j => Some (JS.take j rest)
      | None => None
      end
  | None => None
  end.

(** The name in "a standard-library path ([.../std@<version>/<name>/...])". *)
Definition std_name (url : string) : option string :=
  match JS.find_first url "/std@" with
  | Some k =>
      let rest := JS.drop (k + 5) url in
      match JS.find_first rest "/" with
      | Some j =>
          let rest := JS.drop (j + 1) rest in
          match JS.find_first rest "/" with
          | Some i => Some (JS.take i rest)
          | None => None
          end
      | None => None
      end
  | None => None
  end.

(** The name in "a third-party path ([.../x/<name>@<version>/...])". *)
Definition third_party_name (url : string) : option string :=
  match JS.find_first url "/x/" with
  | Some k =>
      let rest := JS.drop (k + 3) url in
      match JS.find_first rest "@" with
      | Some j =>
          match JS.find_first (JS.drop (j + 1) rest) "/" with
          | Some _ => Some (JS.take j rest)
          | None => None
          end
      | None => None
      end
  | None => None
  end.

(** The module that a line declares: the relevant lines are "import/export
    statements whose quoted source string points at a known module-hosting
    domain, encoding either a standard-library path or a third-party
    path"; a line is "standard-library if its quoted URL contains the
    standard-library path segment, else third-party". *)
Definition declared_name (line : string) : option string :=
  match quoted_source line with
  | Some url =>
      if JS.startsWith url "https://deno.land/"
      then if 0 <=? JS.indexOf url "https://deno.land/std"
           then std_name url
           else third_party_name url
      else None
  | None => None
  end.

(** The names declared in the manifest, in the order of its lines. *)
Definition declared_names (rawText : string) : list string :=
  omap declared_name (lines rawText).

End Spec.

(** A line that holds one import of the third-party module [n], from
    [https://deno.land/x/n@v/mod.ts], and nothing else that the parser
    could take for a part of it: its first [from] with a quote is the one
    of the import, and the [/x/], the [@] and the [/mod.ts] of the URL are
    the last of the line, which does not mention the standard library. *)
Definition plain_third_party_line (line n : string) : Prop :=
  ∃ head v tail,
    line = third_party_line (head +:+ "from " +:+ dquote +:+ "https://deno.land")
             n v (dquote +:+ tail)
    ∧ JS.find_first line ("from " +:+ dquote) = Some (String.length head)
    ∧ ¬ occurs dquote n
    ∧ ¬ occurs dquote v
    ∧ ¬ occurs "@" n
    ∧ markers_last (head +:+ "from " +:+ dquote +:+ "https://deno.land")
        n v (dquote +:+ tail).

(** A line that holds one import of the standard-library module [n], from
    [https://deno.land/std@v/n/path], and nothing else that the parser
    could take for a part of it: its first [from] with a quote, its first
    [/std@] and its first [@v/] are those of the import. *)
Definition plain_std_line (line n : string) : Prop :=
  ∃ head v path tail,
    line = (head +:+ "from " +:+ dquote +:+ "https://deno.land")
             +:+ "/std@" +:+ v +:+ "/" +:+ n +:+ "/" +:+ path +:+ dquote +:+ tail
    ∧ JS.find_first line ("from " +:+ dquote) = Some (String.length head)
    ∧ JS.find_first line "/std@"
      = Some (String.length (head +:+ "from " +:+ dquote +:+ "https://deno.land"))
    ∧ JS.find_first line ("@" +:+ v +:+ "/")
      = Some (String.length (head +:+ "from " +:+ dquote +:+ "https://deno.land") + 4)%nat
    ∧ ¬ occurs "/" v ∧ ¬ occurs "/" n ∧ ¬ occurs "@" n
    ∧ ¬ occurs dquote v ∧ ¬ occurs dquote n ∧ ¬ occurs dquote path.

(** A manifest in which every line that imports from the registry is
    plain. *)
Definition plain_manifest (rawText : string) : Prop :=
  ∀ line, line ∈ Spec.lines rawText →
    occurs ("from " +:+ dquote +:+ "https://deno.land/") line →
    ∃ n, plain_third_party_line line n ∨ plain_std_line line n.

(** ** Sample records and manifests *)

Module Samples.

(** The record of [fs] from the standard library, behind by one release. *)
Definition fs_record : Dmm.Module :=
  Dmm.mkModule true "fs" "0.50.0" "https://deno.land/std@0.50.0/fs/mod.ts"
    None (Some "0.60.0") None.

(** Two lines that import [fs] at the same version. *)
Definition two_fs_lines : string :=
  "std@0.50.0/fs/mod.ts" +:+ nl +:+ "std@0.50.0/fs/copy.ts".

(** A third-party record one release behind, and a manifest that
    imports another module only. *)
Definition foo_record : Dmm.Module :=
  Dmm.mkModule false "foo" "1.0.0" "https://deno.land/x/foo@1.0.0/mod.ts"
    (Some "https://github.com/acme/foo") (Some "2.0.0") None.

Definition bar_manifest : string :=
  "export { bar } from " +:+ dquote +:+ "https://deno.land/x/bar@1.0.0/mod.ts"
    +:+ dquote +:+ nl.

(** A record whose latest release was never resolved. *)
Definition unresolved_record : Dmm.Module :=
  Dmm.mkModule false "foo" "1.0.0" "https://deno.land/x/foo@1.0.0/mod.ts"
    None None None.

Definition empty_world : World := mkWorld "/home/user/project" ∅ [].

(** [purposes.check] with colours that leave the text as it is. *)
Definition purposes_check_sample : list Dmm.Module → Deno unit :=
  Dmm.purposes_check (λ text, text) (λ text, text).

(** A manifest service that finds no module at all. *)
Definition no_modules_service (_ : option string) (_ : World)
    : Exn + list Commands.IModule :=
  inr [].

(** A manifest service that finds [fs] only. *)
Definition fs_service (_ : option string) (_ : World)
    : Exn + list Commands.IModule :=
  inr [Commands.mkIModule true "fs" "0.50.0" "https://deno.land/std@0.50.0/fs/mod.ts"
         (Some "0.60.0")].

(** An import of a third-party module without a version. *)
Definition unversioned_line : string :=
  "import { foo } from " +:+ dquote +:+ "https://deno.land/x/foo/mod.ts" +:+ dquote +:+ ";".

(** What the parser makes of it. *)
Definition unversioned_record : Dmm.Module :=
  Dmm.new_module false
    ("import { foo } from " +:+ dquote +:+ "https://deno.land/x/")
    ("import { foo } from " +:+ dquote +:+ "https://deno.land/x/foo")
    "https://deno.land/x/foo/mod.ts".

(** An import of a standard-library module without a version. *)
Definition unversioned_std_line : string :=
  "import { copy } from " +:+ dquote +:+ "https://deno.land/std/fs/mod.ts" +:+ dquote +:+ ";".

(** A third-party import followed by a comment that mentions the standard
    library. *)
Definition commented_line : string :=
  "import { foo } from " +:+ dquote +:+ "https://deno.land/x/foo@1.0.0/mod.ts" +:+ dquote
    +:+ "; // replaces https://deno.land/std@0.50.0/fs/mod.ts".

(** A well-formed third-party import. *)
Definition foo_line : string :=
  "import { foo } from " +:+ dquote +:+ "https://deno.land/x/foo@1.0.0/mod.ts" +:+ dquote +:+ ";".

(** A well-formed standard-library import and its record. *)
Definition fs_line : string :=
  "export { copy } from " +:+ dquote +:+ "https://deno.land/std@0.50.0/fs/mod.ts" +:+ dquote +:+ ";".

Definition fs_line_record : Dmm.Module :=
  Dmm.new_module true "fs" "0.50.0" "https://deno.land/std@0.50.0/fs/mod.ts".

(** The registry entries and the release redirects of two third-party
    modules, [myfoo] at its latest release and [foo] one release behind. *)
Definition sample_database : gmap string Dmm.Member :=
  {[ "foo" := Dmm.Fields (Dmm.mkEntry (Some "acme") (Some "foo"));
     "myfoo" := Dmm.Fields (Dmm.mkEntry (Some "acme") (Some "myfoo"));
     "alpha" := Dmm.Fields (Dmm.mkEntry (Some "acme") (Some "alpha"));
     "beta" := Dmm.Fields (Dmm.mkEntry (Some "acme") (Some "beta")) ]}.

Definition sample_fetch_url (url : string) : Exn + string :=
  inr (if String.eqb url "https://github.com/acme/foo/releases/latest"
       then "https://github.com/acme/foo/releases/tag/2.0.0"
       else if String.eqb url "https://github.com/acme/myfoo/releases/latest"
       then "https://github.com/acme/myfoo/releases/tag/1.0.0"
       else if String.eqb url "https://github.com/acme/alpha/releases/latest"
       then "https://github.com/acme/alpha/releases/tag/2.0.0"
       else if String.eqb url "https://github.com/acme/beta/releases/latest"
       then "https://github.com/acme/beta/releases/tag/1.0.0"
       else url).

(** The update command of [dmm.ts] with these resources. *)
Definition sample_run_update : list string → Deno (list Dmm.Module) :=
  Dmm.run_update "0.60.0" (λ text, text) (inr sample_database) sample_fetch_url.

Definition export_line (what url : string) : string :=
  "export { " +:+ what +:+ " } from " +:+ dquote +:+ url +:+ dquote +:+ ";".

(** A manifest that imports [myfoo] and then [foo], both at [1.0.0]. *)
Definition myfoo_foo_manifest : string :=
  export_line "a" "https://deno.land/x/myfoo@1.0.0/mod.ts" +:+ nl
    +:+ export_line "b" "https://deno.land/x/foo@1.0.0/mod.ts" +:+ nl.

(** A manifest that mentions [foo@1.0.0] in a comment before importing it. *)
Definition commented_manifest : string :=
  "// foo@1.0.0 is the last release that supports the old API" +:+ nl
    +:+ export_line "b" "https://deno.land/x/foo@1.0.0/mod.ts" +:+ nl.

Definition world_with (depsContent : string) : World :=
  mkWorld "/home/user/project" {[ "/home/user/project/deps.ts" := depsContent ]} [].

(** The manifest of a world. *)
Definition manifest_of (w : World) : option string :=
  files w !! (cwd w +:+ "/deps.ts").

(** A manifest service that finds [textproto] and [text] of the standard
    library, both one release behind. *)
Definition text_service (_ : option string) (_ : World)
    : Exn + list Commands.IModule :=
  inr [ Commands.mkIModule true "textproto" "0.50.0"
          "https://deno.land/std@0.50.0/textproto/mod.ts" (Some "0.60.0");
        Commands.mkIModule true "text" "0.50.0"
          "https://deno.land/std@0.50.0/text/mod.ts" (Some "0.60.0") ].

Definition textproto_text_manifest : string :=
  export_line "a" "https://deno.land/std@0.50.0/textproto/mod.ts" +:+ nl
    +:+ export_line "b" "https://deno.land/std@0.50.0/text/mod.ts" +:+ nl.

(** The check command of [dmm.ts] with the same resources. *)
Definition sample_run_check : list string → Deno unit :=
  Dmm.run_check "0.60.0" (λ text, text) (λ text, text) (inr sample_database) sample_fetch_url.

(** The manifests of the scenarios of the specification. *)
Definition fs_manifest : string :=
  export_line "fs" "https://deno.land/std@0.50.0/fs/mod.ts" +:+ nl.

Definition alpha_beta_manifest : string :=
  export_line "a" "https://deno.land/x/alpha@1.0.0/mod.ts" +:+ nl
    +:+ export_line "b" "https://deno.land/x/beta@1.0.0/mod.ts" +:+ nl.

Definition up_to_date_manifest : string :=
  export_line "fs" "https://deno.land/std@0.60.0/fs/mod.ts" +:+ nl
    +:+ export_line "b" "https://deno.land/x/beta@1.0.0/mod.ts" +:+ nl.

(** A manifest that imports [foo] on two lines at the same version. *)
Definition twice_foo_manifest : string :=
  export_line "b" "https://deno.land/x/foo@1.0.0/mod.ts" +:+ nl
    +:+ export_line "c" "https://deno.land/x/foo@1.0.0/mod.ts" +:+ nl.


(** A third-party record of the later commands, one release behind. *)
Definition foo_imodule : Commands.IModule :=
  Commands.mkIModule false "foo" "1.0.0" "https://deno.land/x/foo@1.0.0/mod.ts"
    (Some "2.0.0").

(** A manifest of one line, an import of the standard library without a
    version. *)
Definition unversioned_std_manifest : string := unversioned_std_line +:+ nl.

(** A manifest of one line, an import of [foo] followed by a comment. *)
Definition commented_import_manifest : string := commented_line +:+ nl.

(** The records of [myfoo_foo_manifest]. *)
Definition myfoo_line_record : Dmm.Module :=
  Dmm.new_module false "myfoo" "1.0.0" "https://deno.land/x/myfoo@1.0.0/mod.ts".

Definition foo_line_record : Dmm.Module :=
  Dmm.new_module false "foo" "1.0.0" "https://deno.land/x/foo@1.0.0/mod.ts".


End Samples.
Import Samples.

(** * Properties *)

(** ** Facts about the string built-ins *)

#[local] Arguments String.append : simpl nomatch.

(** The built-ins on the cases that the language standard spells out. *)
Example js_t1 : JS.split "a/b//c/" "/" = ["a"; "b"; ""; "c"; ""]. Proof. reflexivity. Qed.
Example js_t2 : JS.split "" "/" = [""]. Proof. reflexivity. Qed.
Example js_t3 : JS.split "x/std@1/std@2" "/std@" = ["x"; "1"; "2"]. Proof. reflexivity. Qed.
Example js_t4 : JS.replace "aXbXc" "X" "[$&$$$'$`$1]" = "a[X$bXca$1]bXc". Proof. reflexivity. Qed.
Example js_t5 : JS.substring "hello" 3 (-1) = "hel". Proof. reflexivity. Qed.
Example js_t6 : JS.lastIndexOf "abcabc" "bc" = 4 /\ JS.indexOf "abcabc" "bc" = 1 /\ JS.indexOf "abc" "" = 0 /\ JS.lastIndexOf "abc" "" = 3 /\ JS.indexOf "abc" "x" = -1. Proof. repeat split. Qed.
Example js_t7 : JS.replace "abc" "" "X" = "Xabc". Proof. reflexivity. Qed.
Example js_t8 : JS.split "aaa" "aa" = [""; "a"]. Proof. reflexivity. Qed.

Lemma str_app_assoc (s t u : string) : (s +:+ t) +:+ u = s +:+ t +:+ u.
Proof. induction s as [|c s IH]; simpl; [done | by rewrite IH]. Qed.

Lemma str_length_app (s t : string) :
  String.length (s +:+ t) = (String.length s + String.length t)%nat.
Proof. induction s as [|c s IH]; simpl; [done | by rewrite IH]. Qed.

Lemma take_drop_id (n : nat) (s : string) : JS.take n s +:+ JS.drop n s = s.
Proof.
  revert s; induction n as [|n IH]; intros [|c s]; simpl; try done.
  by rewrite IH.
Qed.

Lemma drop_drop (n k : nat) (s : string) :
  JS.drop n (JS.drop k s) = JS.drop (k + n) s.
Proof.
  revert s; induction k as [|k IH]; intros s; simpl; [done|].
  destruct s as [|c s]; simpl; [by destruct n | apply IH].
Qed.

Lemma length_take (n : nat) (s : string) :
  String.length (JS.take n s) = Nat.min n (String.length s).
Proof.
  revert s; induction n as [|n IH]; intros [|c s]; simpl; try done.
  by rewrite IH.
Qed.

Lemma startsWith_app (pat t : string) : JS.startsWith (pat +:+ t) pat = true.
Proof.
  induction pat as [|c pat IH]; simpl; [done|].
  by rewrite Ascii.eqb_refl, IH.
Qed.

Lemma startsWith_inv (s pat : string) :
  JS.startsWith s pat = true → s = pat +:+ JS.drop (String.length pat) s.
Proof.
  revert s; induction pat as [|c pat IH]; intros s H; simpl in *.
  - by destruct s.
  - destruct s as [|d s]; [done|].
    apply andb_true_iff in H as [Hc Hs]. apply Ascii.eqb_eq in Hc as ->.
    simpl. by rewrite <- (IH s Hs).
Qed.

Lemma startsWith_spec (s pat : string) :
  JS.startsWith s pat = true ↔ ∃ t, s = pat +:+ t.
Proof.
  split.
  - intros H. eexists. by apply startsWith_inv.
  - intros [t ->]. apply startsWith_app.
Qed.

(** The search from the left finds an occurrence, and the leftmost one. *)
Lemma find_first_Some (s pat : string) (k : nat) :
  JS.find_first s pat = Some k →
  s = JS.take k s +:+ pat +:+ JS.drop (k + String.length pat) s
  ∧ ∀ pre post, s = pre +:+ pat +:+ post → (k ≤ String.length pre)%nat.
Proof.
  revert k; induction s as [|c s IH]; intros k; simpl.
  - destruct (JS.startsWith "" pat) eqn:E; [|done].
    intros [= <-]. split; [|lia].
    apply startsWith_inv in E. simpl. by destruct pat.
  - destruct (JS.startsWith (String c s) pat) eqn:E.
    + intros [= <-]. split; [|lia]. simpl.
      by apply startsWith_inv in E.
    + destruct (JS.find_first s pat) as [j|] eqn:Ej; [|done].
      simpl. intros [= <-]. destruct (IH j eq_refl) as [Hs Hmin]. split.
      * simpl. by rewrite <- Hs.
      * intros [|d pre] post Heq; simpl in Heq.
        -- rewrite Heq, startsWith_app in E. done.
        -- injection Heq as -> Heq. apply Hmin in Heq. simpl. lia.
Qed.

Lemma find_first_None (s pat : string) :
  JS.find_first s pat = None → ¬ occurs pat s.
Proof.
  induction s as [|c s IH]; simpl.
  - destruct (JS.startsWith "" pat) eqn:E; [done|].
    intros _ (pre & post & Heq).
    destruct pre; [|done]. simpl in Heq.
    rewrite Heq, startsWith_app in E. done.
  - destruct (JS.startsWith (String c s) pat) eqn:E; [done|].
    destruct (JS.find_first s pat) eqn:Ej; [done|].
    intros _ (pre & post & Heq). destruct pre as [|d pre]; simpl in Heq.
    + rewrite Heq, startsWith_app in E. done.
    + injection Heq as _ Heq. apply IH; [done|]. by exists pre, post.
Qed.

Lemma indexOf_occurs (s pat : string) : 0 ≤ JS.indexOf s pat ↔ occurs pat s.
Proof.
  unfold JS.indexOf. destruct (JS.find_first s pat) as [k|] eqn:E; simpl.
  - split; [|lia]. intros _. apply find_first_Some in E as [E _].
    by eexists _, _.
  - split; [lia|]. intros H. by apply find_first_None in E.
Qed.

Lemma indexOf_absent (s pat : string) : JS.indexOf s pat = -1 ↔ ¬ occurs pat s.
Proof.
  rewrite <- indexOf_occurs. unfold JS.indexOf.
  destruct (JS.find_first s pat); simpl; lia.
Qed.

Lemma length_drop (n : nat) (s : string) :
  String.length (JS.drop n s) = (String.length s - n)%nat.
Proof.
  revert s; induction n as [|n IH]; intros [|c s]; simpl; by try lia.
Qed.

Lemma occurs_cons (pat s : string) (c : ascii) :
  occurs pat s → occurs pat (String c s).
Proof. intros (pre & post & ->). by exists (String c pre), post. Qed.

Lemma find_last_None (s pat : string) :
  JS.find_last s pat = None → ¬ occurs pat s.
Proof.
  induction s as [|c s IH]; simpl.
  - destruct (JS.startsWith "" pat) eqn:E; [done|].
    intros _ (pre & post & Heq).
    destruct pre; [|done]. simpl in Heq.
    rewrite Heq, startsWith_app in E. done.
  - destruct (JS.find_last s pat) eqn:Ej; [done|].
    destruct (JS.startsWith (String c s) pat) eqn:E; [done|].
    intros _ (pre & post & Heq). destruct pre as [|d pre]; simpl in Heq.
    + rewrite Heq, startsWith_app in E. done.
    + injection Heq as _ Heq. apply IH; [done|]. by exists pre, post.
Qed.

(** The search from the right finds an occurrence, and the rightmost one. *)
Lemma find_last_Some (s pat : string) (k : nat) :
  JS.find_last s pat = Some k →
  JS.startsWith (JS.drop k s) pat = true
  ∧ ∀ pre post, s = pre +:+ pat +:+ post → (String.length pre ≤ k)%nat.
Proof.
  revert k; induction s as [|c s IH]; intros k; simpl.
  - destruct (JS.startsWith "" pat) eqn:E; [|done].
    intros [= <-]. split; [done|].
    intros [|d pre] post Heq; simpl in *; [lia | done].
  - destruct (JS.find_last s pat) as [j|] eqn:Ej.
    + intros [= <-]. destruct (IH j eq_refl) as [Hs Hmax]. split; [done|].
      intros [|d pre] post Heq; simpl in *; [lia|].
      injection Heq as _ Heq. apply Hmax in Heq. lia.
    + destruct (JS.startsWith (String c s) pat) eqn:E; [|done].
      intros [= <-]. split; [done|].
      intros [|d pre] post Heq; simpl in *; [lia|].
      injection Heq as _ Heq. apply find_last_None in Ej.
      destruct Ej. by exists pre, post.
Qed.

Lemma find_last_le (s pat : string) (k : nat) :
  JS.find_last s pat = Some k → (k ≤ String.length s)%nat.
Proof.
  revert k; induction s as [|c s IH]; intros k; simpl.
  - destruct (JS.startsWith "" pat); [|done]. intros [= <-]. lia.
  - destruct (JS.find_last s pat) as [j|].
    + intros [= <-]. specialize (IH j eq_refl). lia.
    + destruct (JS.startsWith (String c s) pat); [|done]. intros [= <-]. lia.
Qed.

Lemma find_last_split (s pat : string) (k : nat) :
  JS.find_last s pat = Some k →
  s = JS.take k s +:+ pat +:+ JS.drop (k + String.length pat) s
  ∧ (k + String.length pat ≤ String.length s)%nat.
Proof.
  intros E. pose proof (find_last_le _ _ _ E) as Hle.
  apply find_last_Some in E as [H _]. apply startsWith_inv in H.
  rewrite drop_drop in H. split.
  - rewrite <- H. by rewrite take_drop_id.
  - apply (f_equal String.length) in H.
    rewrite str_length_app, !length_drop in H. lia.
Qed.

Lemma lastIndexOf_occurs (s pat : string) : 0 ≤ JS.lastIndexOf s pat ↔ occurs pat s.
Proof.
  unfold JS.lastIndexOf. destruct (JS.find_last s pat) as [k|] eqn:E; simpl.
  - split; [|lia]. intros _. apply find_last_split in E as [E _].
    by eexists _, _.
  - split; [lia|]. intros H. by apply find_last_None in E.
Qed.

(** Inside the string and in order, [substring] is the plain slice. *)
Lemma substring_slice (s : string) (i j : nat) :
  (i ≤ j ≤ String.length s)%nat →
  JS.substring s (Z.of_nat i) (Z.of_nat j) = JS.take (j - i) (JS.drop i s).
Proof.
  intros H. unfold JS.substring.
  replace (Z.min (Z.max (Z.of_nat i) 0) (Z.of_nat (String.length s)))
    with (Z.of_nat i) by lia.
  replace (Z.min (Z.max (Z.of_nat j) 0) (Z.of_nat (String.length s)))
    with (Z.of_nat j) by lia.
  replace (Z.min (Z.of_nat i) (Z.of_nat j)) with (Z.of_nat i) by lia.
  replace (Z.max (Z.of_nat i) (Z.of_nat j)) with (Z.of_nat j) by lia.
  f_equal; [lia|]. f_equal. lia.
Qed.

(** Whatever the two positions, [substring] returns text of the string. *)
Lemma substring_occurs (s : string) (a b : Z) : occurs (JS.substring s a b) s.
Proof.
  unfold JS.substring.
  set (n := Z.to_nat _). set (m := Z.to_nat _).
  exists (JS.take m s), (JS.drop n (JS.drop m s)).
  by rewrite !take_drop_id.
Qed.

Lemma occurs_trans (a b c : string) : occurs a b → occurs b c → occurs a c.
Proof.
  intros (p1 & q1 & ->) (p2 & q2 & ->).
  exists (p2 +:+ p1), (q1 +:+ q2). by rewrite !str_app_assoc.
Qed.

Lemma replace_absent (s pat r : string) :
  ¬ occurs pat s → JS.replace s pat r = s.
Proof.
  intros H. unfold JS.replace.
  destruct (JS.find_first s pat) as [k|] eqn:E; [|done].
  destruct H. apply find_first_Some in E as [E _]. by eexists _, _.
Qed.

(** [replace] rewrites the leftmost occurrence and nothing else. *)
Lemma replace_first (s pat r : string) :
  occurs pat s →
  ∃ pre post,
    s = pre +:+ pat +:+ post
    ∧ (∀ pre' post', s = pre' +:+ pat +:+ post' →
         (String.length pre ≤ String.length pre')%nat)
    ∧ JS.replace s pat r = pre +:+ JS.GetSubstitution pat pre post r +:+ post.
Proof.
  intros H. unfold JS.replace.
  destruct (JS.find_first s pat) as [k|] eqn:E.
  - pose proof (find_first_Some _ _ _ E) as [Hs Hmin].
    exists (JS.take k s), (JS.drop (k + String.length pat) s).
    split; [done|]. split; [|done].
    intros pre' post' Heq. specialize (Hmin _ _ Heq).
    rewrite length_take. lia.
  - by apply find_first_None in E.
Qed.

(** A replacement text without [$] is inserted as it is. *)
Lemma GetSubstitution_plain (matched before after r : string) :
  ¬ occurs "$" r → JS.GetSubstitution matched before after r = r.
Proof.
  induction r as [|c r IH]; intros H; [done|].
  simpl. destruct (Ascii.eqb c "$") eqn:E.
  - apply Ascii.eqb_eq in E as ->. destruct H. by exists "", r.
  - rewrite IH; [done|]. intros Hr. apply H. by apply occurs_cons.
Qed.

(** Splitting and joining at the same separator gives the string back. *)
Lemma split_go_nonempty (sep s : string) (k : nat) : JS.split_go sep k s ≠ [].
Proof.
  revert k; induction s as [|c s IH]; intros k; simpl; [done|].
  destruct k as [|k]; [|apply IH].
  destruct (JS.startsWith (String c s) sep); [done|].
  by destruct (JS.split_go sep 0 s).
Qed.

Lemma join_cons_unit (c : ascii) (piece sep : string) (rest : list string) :
  JS.join (String c piece :: rest) sep = String c (JS.join (piece :: rest) sep).
Proof. by destruct rest. Qed.

Lemma join_split_go (sep s : string) (k : nat) :
  sep ≠ "" → JS.join (JS.split_go sep k s) sep = JS.drop k s.
Proof.
  intros Hsep. revert k; induction s as [|c s IH]; intros k.
  - by destruct k.
  - destruct k as [|k]; [|apply IH]. cbn [JS.split_go JS.drop].
    destruct (JS.startsWith (String c s) sep) eqn:E.
    + pose proof (split_go_nonempty sep s (String.length sep - 1)) as Hne.
      specialize (IH (String.length sep - 1)%nat).
      destruct (JS.split_go sep (String.length sep - 1) s) as [|piece rest]; [done|].
      change (JS.join ("" :: piece :: rest) sep)
        with ("" +:+ sep +:+ JS.join (piece :: rest) sep).
      rewrite IH. apply startsWith_inv in E.
      destruct sep as [|d sep]; [done|]. cbn [String.length] in *.
      replace (S (String.length sep) - 1)%nat with (String.length sep) by lia.
      cbn [JS.drop] in E. rewrite E at 1. reflexivity.
    + pose proof (split_go_nonempty sep s 0) as Hne. specialize (IH 0%nat).
      destruct (JS.split_go sep 0 s) as [|piece rest]; [done|].
      rewrite join_cons_unit, IH. by destruct s.
Qed.

Lemma join_split (s sep : string) : sep ≠ "" → JS.join (JS.split s sep) sep = s.
Proof.
  intros Hsep. destruct sep as [|d sep]; [done|].
  apply (join_split_go (String d sep) s 0 Hsep).
Qed.

(** Where the separator does not occur, the split is the string alone. *)
Lemma split_absent (s sep : string) :
  sep ≠ "" → ¬ occurs sep s → JS.split s sep = [s].
Proof.
  intros Hsep Habs. destruct sep as [|d sep]; [done|]. cbn [JS.split].
  induction s as [|c s IH]; [done|]. cbn [JS.split_go].
  destruct (JS.startsWith (String c s) (String d sep)) eqn:E.
  - destruct Habs. apply startsWith_inv in E. by exists "", (JS.drop (String.length (String d sep)) (String c s)).
  - rewrite IH; [done|]. intros H. apply Habs. by apply occurs_cons.
Qed.

(** So a replacement text without [$] takes the place of the leftmost
    occurrence. *)
Lemma replace_plain (s pat r : string) :
  occurs pat s →
  ¬ occurs "$" r →
  ∃ pre post,
    s = pre +:+ pat +:+ post
    ∧ (∀ pre' post', s = pre' +:+ pat +:+ post' →
         (String.length pre ≤ String.length pre')%nat)
    ∧ JS.replace s pat r = pre +:+ r +:+ post.
Proof.
  intros Hs Hr. destruct (replace_first s pat r Hs) as (pre & post & H1 & H2 & H3).
  exists pre, post. by rewrite H3, GetSubstitution_plain.
Qed.


(** ** The rewriter replaces one occurrence per record *)





(** ** The [updated] flag *)

Section UpdatedFlag.

Variable denoStdLatestVersion : string.
Variable fetch_url : string → Exn + string.

Abbreviation up_to_date := (Dmm.up_to_date denoStdLatestVersion).
Abbreviation rewrite_module := (Dmm.rewrite_module denoStdLatestVersion).
Abbreviation rewrite_modules := (Dmm.rewrite_modules denoStdLatestVersion).

Lemma rewrite_module_flag (module : Dmm.Module) (text : string) :
  (rewrite_module module text).1 = flagged denoStdLatestVersion module.
Proof.
  unfold Dmm.rewrite_module, flagged, Dmm.up_to_date.
  destruct (bool_decide (Dmm.std module = true));
    [destruct (String.eqb _ _) | destruct (Dmm.strict_eq _ _)]; done.
Qed.

Lemma rewrite_modules_flags (modules : list Dmm.Module) (text : string) :
  (rewrite_modules modules text).1 = flagged denoStdLatestVersion <$> modules.
Proof.
  revert text; induction modules as [|m ms IH]; intros text; simpl; [done|].
  pose proof (rewrite_module_flag m text) as Hm.
  destruct (rewrite_module m text) as [m' text'] eqn:E1. simpl in Hm.
  specialize (IH text').
  destruct (rewrite_modules ms text') as [ms' text''] eqn:E2. simpl in *.
  by rewrite Hm, IH.
Qed.

Lemma strict_eq_Some (a : string) (b : option string) :
  Dmm.strict_eq a b = true ↔ b = Some a.
Proof.
  destruct b as [b|]; simpl; [|done].
  rewrite String.eqb_eq. split; [by intros -> | by intros [= ->]].
Qed.

Lemma rewrite_module_up_to_date (module : Dmm.Module) (text : string) :
  up_to_date module = true → rewrite_module module text = (module, text).
Proof.
  intros H. unfold Dmm.rewrite_module. unfold Dmm.up_to_date in H.
  destruct (bool_decide (Dmm.std module = true)); by rewrite H.
Qed.

(** C4, as the code has it.  A record is skipped -- no substitution, the
    record and its flag as they were -- exactly when it is up to date:
    a third-party record when its version is its latest release, a
    standard-library record when its version is the constant
    [denoStdLatestVersion], which is also what the resolver stores as the
    latest release of such a record.  Every other record has its flag set
    to true, whatever the text is: whether its old fragment was found
    plays no role. *)
Theorem updated_flag_iff_not_up_to_date :
  (∀ module text, up_to_date module = true →
     rewrite_module module text = (module, text))
  ∧ (∀ module text, up_to_date module = false →
       (rewrite_module module text).1 = Dmm.set_updated module true)
  ∧ (∀ modules text, (rewrite_modules modules text).1 = flagged denoStdLatestVersion <$> modules)
  ∧ (∀ module, Dmm.std module = false →
       (up_to_date module = true
        ↔ Dmm.latestRelease module = Some (Dmm.version module)))
  ∧ (∀ module module' w w',
       Dmm.add_latest denoStdLatestVersion fetch_url module w = (Returned module', w') →
       (up_to_date module' = true
        ↔ Dmm.latestRelease module' = Some (Dmm.version module'))).
Proof.
  split; [|split; [|split; [|split]]].
  - apply rewrite_module_up_to_date.
  - intros m text H. rewrite rewrite_module_flag. unfold flagged. by rewrite H.
  - apply rewrite_modules_flags.
  - intros m Hstd. unfold Dmm.up_to_date. rewrite Hstd. simpl.
    apply strict_eq_Some.
  - intros m m' w w'. unfold Dmm.add_latest, Dmm.up_to_date.
    destruct (Dmm.std m) eqn:Hstd; simpl.
    + unfold ret; intros [= <- <-]; simpl; rewrite Hstd; simpl.
      rewrite String.eqb_eq. split; [by intros -> | by intros [= ->]].
    + destruct (fetch_url _) as [e|res_url]; [by unfold throw|].
      unfold ret; intros [= <- <-]; simpl; rewrite Hstd; simpl.
      apply (strict_eq_Some _ (Some _)).
Qed.

End UpdatedFlag.

Lemma updated_flag_iff_not_up_to_date_witness :
  Dmm.rewrite_module "0.60.0" (Dmm.set_latestRelease foo_record "1.0.0") bar_manifest
    = (Dmm.set_latestRelease foo_record "1.0.0", bar_manifest)
  ∧ (Dmm.rewrite_module "0.60.0" fs_record two_fs_lines).1
    = Dmm.set_updated fs_record true.
Proof.
  split.
  - apply (proj1 (updated_flag_iff_not_up_to_date "0.60.0" (λ u, inr u))). reflexivity.
  - apply (proj1 (proj2 (updated_flag_iff_not_up_to_date "0.60.0" (λ u, inr u)))).
    reflexivity.
Defined.

(** The record of [foo] is not up to date and the manifest does not mention
    [foo]: nothing is replaced, and the flag of the record is set. *)
Lemma updated_flag_without_replacement :
  ¬ occurs (Dmm.old_fragment foo_record) bar_manifest
  ∧ Dmm.updated foo_record = None
  ∧ (Dmm.rewrite_module "0.60.0" foo_record bar_manifest).2 = bar_manifest
  ∧ Dmm.updated (Dmm.rewrite_module "0.60.0" foo_record bar_manifest).1 = Some true.
Proof.
  split; [|done]. by apply indexOf_absent.
Qed.

(** ** The check step *)

Lemma world_eta (w : World) (es : list Entry) :
  es = [] → mkWorld (cwd w) (files w) (console w ++ es) = w.
Proof. intros ->. destruct w; simpl. by rewrite app_nil_r. Qed.

Section CheckStep.

Variable colours_yellow : string → string.

Lemma compare_versions_step (m : Dmm.Module) (st : bool * list string) (w : World) :
  Dmm.compare_versions colours_yellow m st w
  = (Returned (st.1 || Dmm.can_be_updated m,
               st.2 ++ (Dmm.name <$> List.filter Dmm.can_be_updated [m])),
     mkWorld (cwd w) (files w)
       (console w ++ (can_be_updated_line colours_yellow <$> List.filter Dmm.can_be_updated [m]))).
Proof.
  unfold Dmm.compare_versions, Dmm.can_be_updated. cbn [List.filter].
  destruct (negb (Dmm.strict_eq (Dmm.version m) (Dmm.latestRelease m))).
  - destruct st as [flag names]. by rewrite orb_true_r.
  - destruct st as [flag names]. unfold ret. cbn [fst snd fmap list_fmap].
    by rewrite orb_false_r, app_nil_r, world_eta.
Qed.

Lemma forEach_compare_versions (modules : list Dmm.Module)
    (st : bool * list string) (w : World) :
  forEach modules (Dmm.compare_versions colours_yellow) st w
  = (Returned (st.1 || existsb Dmm.can_be_updated modules,
               st.2 ++ (Dmm.name <$> List.filter Dmm.can_be_updated modules)),
     mkWorld (cwd w) (files w)
       (console w ++ (can_be_updated_line colours_yellow <$> List.filter Dmm.can_be_updated modules))).
Proof.
  revert st w; induction modules as [|m ms IH]; intros st w.
  - destruct st as [flag names]. unfold forEach, ret. cbn [fst snd existsb List.filter fmap list_fmap].
    by rewrite orb_false_r, app_nil_r, world_eta.
  - cbn [forEach]. unfold bind. rewrite compare_versions_step, IH.
    cbn [fst snd cwd files console existsb].
    rewrite !(List.filter_app _ [m] ms : List.filter _ (m :: ms) = _).
    by rewrite !fmap_app, !app_assoc, orb_assoc.
Qed.

Lemma compare_versions_commands_step (m : Commands.IModule)
    (st : bool * list string) (w : World) :
  Commands.compare_versions m st w
  = (Returned (st.1 || needs_update m,
               st.2 ++ (Commands.name <$> List.filter needs_update [m])),
     mkWorld (cwd w) (files w)
       (console w ++ (can_be_updated_info <$> List.filter needs_update [m]))).
Proof.
  unfold Commands.compare_versions, needs_update. cbn [List.filter].
  destruct (negb (Commands.strict_eq (Commands.importedVersion m)
                    (Commands.latestRelease m))).
  - destruct st as [flag names]. by rewrite orb_true_r.
  - destruct st as [flag names]. unfold ret. cbn [fst snd fmap list_fmap].
    by rewrite orb_false_r, app_nil_r, world_eta.
Qed.

Lemma forEach_compare_versions_commands (modules : list Commands.IModule)
    (st : bool * list string) (w : World) :
  forEach modules Commands.compare_versions st w
  = (Returned (st.1 || existsb needs_update modules,
               st.2 ++ (Commands.name <$> List.filter needs_update modules)),
     mkWorld (cwd w) (files w)
       (console w ++ (can_be_updated_info <$> List.filter needs_update modules))).
Proof.
  revert st w; induction modules as [|m ms IH]; intros st w.
  - destruct st as [flag names]. unfold forEach, ret. cbn [fst snd existsb List.filter fmap list_fmap].
    by rewrite orb_false_r, app_nil_r, world_eta.
  - cbn [forEach]. unfold bind. rewrite compare_versions_commands_step, IH.
    cbn [fst snd cwd files console existsb].
    rewrite !(List.filter_app _ [m] ms : List.filter _ (m :: ms) = _).
    by rewrite !fmap_app, !app_assoc, orb_assoc.
Qed.

(** C5, as the code has it.  The loop of [purposes.check] and the loop of
    [check] report exactly the records, in order, whose version is not
    strictly equal to their latest release: the records whose latest release
    is absent, and the records whose latest release is present and differs
    from the imported version. *)
Theorem check_reports_not_strictly_equal :
  (∀ modules w,
     forEach modules (Dmm.compare_versions colours_yellow) (false, []) w
     = (Returned (existsb Dmm.can_be_updated modules,
                  Dmm.name <$> List.filter Dmm.can_be_updated modules),
        mkWorld (cwd w) (files w)
          (console w ++ (can_be_updated_line colours_yellow <$> List.filter Dmm.can_be_updated modules))))
  ∧ (∀ module,
       Dmm.can_be_updated module = true
       ↔ Dmm.latestRelease module = None
         ∨ ∃ latest, Dmm.latestRelease module = Some latest
                     ∧ latest ≠ Dmm.version module)
  ∧ (∀ modules w,
       forEach modules Commands.compare_versions (false, []) w
       = (Returned (existsb needs_update modules,
                    Commands.name <$> List.filter needs_update modules),
          mkWorld (cwd w) (files w)
            (console w ++ (can_be_updated_info <$> List.filter needs_update modules))))
  ∧ (∀ module,
       needs_update module = true
       ↔ Commands.latestRelease module = None
         ∨ ∃ latest, Commands.latestRelease module = Some latest
                     ∧ latest ≠ Commands.importedVersion module).
Proof.
  split; [|split; [|split]].
  - intros. rewrite forEach_compare_versions. done.
  - intros m. unfold Dmm.can_be_updated.
    destruct (Dmm.latestRelease m) as [l|]; simpl.
    + rewrite negb_true_iff, String.eqb_neq. split.
      * intros H. right. exists l. split; [done | congruence].
      * intros [?|(l' & [= <-] & H)]; [done | congruence].
    + split; [by left | done].
  - intros. rewrite forEach_compare_versions_commands. done.
  - intros m. unfold needs_update.
    destruct (Commands.latestRelease m) as [l|]; simpl.
    + rewrite negb_true_iff, String.eqb_neq. split.
      * intros H. right. exists l. split; [done | congruence].
      * intros [?|(l' & [= <-] & H)]; [done | congruence].
    + split; [by left | done].
Qed.

End CheckStep.

(** The latest release of the record is absent, and [purposes.check]
    reports the record as one that can be updated. *)
Lemma absent_latest_is_reported :
  Dmm.latestRelease unresolved_record = None
  ∧ console (purposes_check_sample [unresolved_record] empty_world).2
    = [ ConsoleInfo "Comparing versions...";
        ConsoleLog "foo can be updated from 1.0.0 to undefined";
        ConsoleInfo ("To update, run: " +:+ nl +:+
          "    deno run --allow-net --allow-read --allow-write https://github.com/ebebbington/dmm/mod.ts update foo") ].
Proof. split; reflexivity. Qed.

(** ** No record left: exit status 1 *)

Section NoModules.

Variable constructModulesDataFromDeps : option string → World → Exn + list Commands.IModule.

Abbreviation check := (Commands.check constructModulesDataFromDeps).
Abbreviation handle := (Commands.handle constructModulesDataFromDeps).

Lemma rewrite_module_returns (m : Commands.IModule) (st : string * bool) (w : World) :
  ∃ st' es, Commands.rewrite_module m st w
            = (Returned st', mkWorld (cwd w) (files w) (console w ++ es)).
Proof.
  unfold Commands.rewrite_module.
  destruct (Commands.strict_eq _ _).
  - exists st, []. unfold ret. by rewrite world_eta.
  - eexists _, [_]. reflexivity.
Qed.

Lemma forEach_rewrite_module_returns (modules : list Commands.IModule)
    (st : string * bool) (w : World) :
  ∃ st' es, forEach modules Commands.rewrite_module st w
            = (Returned st', mkWorld (cwd w) (files w) (console w ++ es)).
Proof.
  revert st w; induction modules as [|m ms IH]; intros st w.
  - exists st, []. unfold forEach, ret. by rewrite world_eta.
  - cbn [forEach]. unfold bind.
    destruct (rewrite_module_returns m st w) as (st1 & es1 & ->).
    destruct (IH st1 (mkWorld (cwd w) (files w) (console w ++ es1)))
      as (st2 & es2 & ->).
    exists st2, (es1 ++ es2). cbn [cwd files console]. by rewrite app_assoc.
Qed.

Lemma length_zero (A : Type) (l : list A) : (Z.of_nat (length l) =? 0) = true ↔ l = [].
Proof.
  rewrite Z.eqb_eq. destruct l; simpl; [done|]. split; [lia | done].
Qed.

(** C7, as the code has it.  [check] and [UpdateSubcommand.handle] report
    the error and leave with exit status 1, the files untouched, whenever
    no record is left after parsing and filtering -- whether or not any
    module name was requested -- and they leave with an exit status in no
    other case. *)
Theorem exit_1_iff_no_record_left :
  (∀ dependencies w,
     (∀ allModules,
        constructModulesDataFromDeps None w = inr allModules →
        Commands.arr_filter (Commands.selected dependencies) allModules = [] →
        check dependencies w
        = (Exited 1, mkWorld (cwd w) (files w) (console w ++ [no_modules_error])))
     ∧ (∀ code w',
          check dependencies w = (Exited code, w') →
          code = 1 ∧ files w' = files w
          ∧ ∃ allModules,
              constructModulesDataFromDeps None w = inr allModules
              ∧ Commands.arr_filter (Commands.selected dependencies) allModules = []))
  ∧ (∀ args w,
       (∀ allModules,
          constructModulesDataFromDeps (Some (Commands.depsLocation_of args)) w
            = inr allModules →
          Commands.arr_filter (Commands.selected (Commands.dependencies_of args))
            allModules = [] →
          handle args w
          = (Exited 1, mkWorld (cwd w) (files w) (console w ++ [no_modules_error])))
       ∧ (∀ code w',
            handle args w = (Exited code, w') →
            code = 1 ∧ files w' = files w
            ∧ ∃ allModules,
                constructModulesDataFromDeps (Some (Commands.depsLocation_of args)) w
                  = inr allModules
                ∧ Commands.arr_filter (Commands.selected (Commands.dependencies_of args))
                    allModules = [])).
Proof.
  split.
  - intros deps w. split.
    + intros allModules Hc Hf. unfold Commands.check, bind, Commands.construct.
      rewrite Hc, Hf. reflexivity.
    + intros code w'. unfold Commands.check, bind, Commands.construct.
      destruct (constructModulesDataFromDeps None w) as [e|allModules]; [done|].
      destruct (Z.of_nat (length (Commands.arr_filter _ allModules)) =? 0) eqn:E.
      * apply length_zero in E. intros [= <- <-]. eauto.
      * unfold ret at 1. unfold ConsoleLogger_info at 1. unfold emit at 1.
        rewrite forEach_compare_versions_commands.
        cbn [fst]. destruct (false || _); done.
  - intros args w. split.
    + intros allModules Hc Hf. unfold Commands.handle, bind, Commands.construct.
      rewrite Hc, Hf. reflexivity.
    + intros code w'. unfold Commands.handle, bind, Commands.construct.
      destruct (constructModulesDataFromDeps _ w) as [e|allModules]; [done|].
      destruct (Z.of_nat (length (Commands.arr_filter _ allModules)) =? 0) eqn:E.
      * apply length_zero in E. intros [= <- <-]. eauto.
      * unfold ret at 1. unfold ConsoleLogger_info at 1. unfold emit at 1.
        unfold Deno_cwd, readFileSync. cbn [cwd files console].
        destruct (files w !! _) as [content|]; [|done].
        match goal with
        | |- context [forEach ?ms Commands.rewrite_module ?st ?w0] =>
            destruct (forEach_rewrite_module_returns ms st w0) as (st' & es & ->)
        end.
        unfold writeFileSync. destruct (negb st'.2); done.
Qed.

End NoModules.

Lemma exit_1_iff_no_record_left_witness :
  Commands.check fs_service ["oak"] empty_world
  = (Exited 1, mkWorld (cwd empty_world) (files empty_world)
                 (console empty_world ++ [no_modules_error])).
Proof.
  apply (proj1 (proj1 (exit_1_iff_no_record_left fs_service) ["oak"] empty_world)
           [Commands.mkIModule true "fs" "0.50.0"
              "https://deno.land/std@0.50.0/fs/mod.ts" (Some "0.60.0")]);
    reflexivity.
Defined.

(** No module name is requested and the manifest declares no module: the
    commands fail with exit status 1 all the same. *)
Lemma exit_1_without_requested_names :
  Commands.dependencies_of ["update"] = []
  ∧ Commands.check no_modules_service [] empty_world
    = (Exited 1, mkWorld (cwd empty_world) ∅ [no_modules_error])
  ∧ Commands.handle no_modules_service ["update"] empty_world
    = (Exited 1, mkWorld (cwd empty_world) ∅ [no_modules_error]).
Proof. repeat split. Qed.

(** ** The parser, line by line *)

Lemma grab_fields (dep : string) (m : Dmm.Module) :
  Dmm.grab dep = Returned m →
  Dmm.std m = Dmm.std_of dep
  ∧ Dmm.url m = Dmm.url_of dep
  ∧ Dmm.version_of (Dmm.std_of dep) dep = Returned (Dmm.version m)
  ∧ Dmm.name_of (Dmm.std_of dep) (Dmm.version m) dep = Returned (Dmm.name m).
Proof.
  unfold Dmm.grab.
  destruct (Dmm.version_of _ dep) as [version| |] eqn:Ev; [|done..].
  destruct (Dmm.name_of _ version dep) as [name| |] eqn:En; [|done..].
  intros [= <-]. cbn [Dmm.std Dmm.url Dmm.version Dmm.name Dmm.new_module].
  by rewrite En.
Qed.

Lemma grab_third_party (dep : string) :
  Dmm.std_of dep = false →
  Dmm.grab dep
  = Returned (Dmm.new_module false
      (JS.substring dep (JS.lastIndexOf dep "/x/" + 3) (JS.lastIndexOf dep "@"))
      (JS.substring dep (JS.lastIndexOf dep "@" + 1) (JS.lastIndexOf dep "/mod.ts"))
      (Dmm.url_of dep)).
Proof. intros H. unfold Dmm.grab, Dmm.version_of, Dmm.name_of. by rewrite H. Qed.

(** C8, as the code has it.  The record of a line is classified as
    standard-library exactly when the line -- the whole line, not its quoted
    URL alone -- contains [https://deno.land/std]; a quoted URL that
    contains it is part of the line, so such a line is classified so. *)
Theorem std_iff_line_mentions_std (dep : string) (m : Dmm.Module) :
  Dmm.grab dep = Returned m →
  (Dmm.std m = true ↔ occurs "https://deno.land/std" dep)
  ∧ occurs (Dmm.url m) dep
  ∧ (occurs "https://deno.land/std" (Dmm.url m) → Dmm.std m = true).
Proof.
  intros (Hstd & Hurl & _)%grab_fields.
  assert (Dmm.std m = true ↔ occurs "https://deno.land/std" dep) as Hiff.
  { rewrite Hstd. unfold Dmm.std_of. rewrite Z.leb_le. apply indexOf_occurs. }
  assert (occurs (Dmm.url m) dep) as Hsub.
  { rewrite Hurl. apply substring_occurs. }
  split; [done|]. split; [done|].
  intros H. apply Hiff. by eapply occurs_trans.
Qed.

Lemma std_iff_line_mentions_std_witness :
  (Dmm.std fs_line_record = true ↔ occurs "https://deno.land/std" fs_line)
  ∧ occurs (Dmm.url fs_line_record) fs_line
  ∧ (occurs "https://deno.land/std" (Dmm.url fs_line_record)
     → Dmm.std fs_line_record = true).
Proof.
  apply (std_iff_line_mentions_std fs_line fs_line_record). reflexivity.
Defined.

(** The quoted URL of the line is that of a third-party module and does not
    contain [https://deno.land/std]; the comment after it does, and the
    record is classified as standard-library. *)
Lemma std_by_text_outside_url :
  Dmm.grab commented_line
  = Returned (Dmm.new_module true "fs" "0.50.0" "https://deno.land/x/foo@1.0.0/mod.ts")
  ∧ ¬ occurs "https://deno.land/std" "https://deno.land/x/foo@1.0.0/mod.ts".
Proof.
  split; [reflexivity|]. by apply indexOf_absent.
Qed.

Lemma drop_at_last (s pat : string) (k : nat) :
  JS.find_last s pat = Some k →
  JS.drop k s = pat +:+ JS.drop (k + String.length pat) s.
Proof.
  intros [H _]%find_last_Some. apply startsWith_inv in H.
  by rewrite drop_drop in H.
Qed.

Lemma drop_slice (s : string) (i j : nat) :
  (i ≤ j)%nat → JS.drop i s = JS.take (j - i) (JS.drop i s) +:+ JS.drop j s.
Proof.
  intros H. rewrite <- (take_drop_id (j - i) (JS.drop i s)) at 1.
  rewrite drop_drop. do 2 f_equal. lia.
Qed.

Lemma length_slice (s : string) (i j : nat) :
  (i ≤ j ≤ String.length s)%nat →
  String.length (JS.take (j - i) (JS.drop i s)) = (j - i)%nat.
Proof. intros H. rewrite length_take, length_drop. lia. Qed.

(** C9, as the code has it.  For a line classified as third-party, the
    version and the name of the record are always text of the line.  When
    the last [/x/] ends at or before the last [@], and the last [@] stands
    before the last [/mod.ts], the name is the text strictly between that
    [/x/] and that [@], and the version the text strictly between that [@]
    and that [/mod.ts]. *)
Theorem third_party_fields (dep : string) (m : Dmm.Module) :
  Dmm.std_of dep = false →
  Dmm.grab dep = Returned m →
  occurs (Dmm.version m) dep
  ∧ occurs (Dmm.name m) dep
  ∧ ∀ x a e : nat,
      JS.find_last dep "/x/" = Some x →
      JS.find_last dep "@" = Some a →
      JS.find_last dep "/mod.ts" = Some e →
      (x + 3 ≤ a)%nat → (a + 1 ≤ e)%nat →
      dep = JS.take x dep +:+ "/x/" +:+ Dmm.name m +:+ "@" +:+ Dmm.version m
              +:+ "/mod.ts" +:+ JS.drop (e + 7) dep
      ∧ String.length (JS.take x dep) = x
      ∧ String.length (Dmm.name m) = (a - (x + 3))%nat
      ∧ String.length (Dmm.version m) = (e - (a + 1))%nat.
Proof.
  intros Hstd Hgrab. rewrite (grab_third_party dep Hstd) in Hgrab.
  injection Hgrab as <-. cbn [Dmm.version Dmm.name Dmm.new_module].
  split; [apply substring_occurs|]. split; [apply substring_occurs|].
  intros x a e Hx Ha He Hxa Hae.
  pose proof (find_last_split _ _ _ Hx) as [_ Hxl].
  pose proof (find_last_split _ _ _ Ha) as [_ Hal].
  pose proof (find_last_split _ _ _ He) as [_ Hel].
  cbn [String.length] in Hxl, Hal, Hel.
  unfold JS.lastIndexOf. rewrite Hx, Ha, He. cbn [JS.position].
  replace (Z.of_nat x + 3) with (Z.of_nat (x + 3)) by lia.
  replace (Z.of_nat a + 1) with (Z.of_nat (a + 1)) by lia.
  rewrite !substring_slice by lia.
  rewrite !length_slice by lia. rewrite length_take.
  split; [|lia].
  rewrite <- (take_drop_id x dep) at 1. f_equal.
  rewrite (drop_at_last _ _ _ Hx). cbn [String.length]. f_equal.
  rewrite (drop_slice dep (x + 3) a) at 1 by lia. f_equal.
  rewrite (drop_at_last _ _ _ Ha). cbn [String.length]. f_equal.
  rewrite (drop_slice dep (a + 1) e) at 1 by lia. f_equal.
  apply (drop_at_last _ _ _ He).
Qed.

Lemma third_party_fields_witness :
  foo_line = JS.take 38 foo_line +:+ "/x/" +:+ "foo" +:+ "@" +:+ "1.0.0"
               +:+ "/mod.ts" +:+ JS.drop (50 + 7) foo_line.
Proof.
  apply (proj2 (proj2 (third_party_fields foo_line
           (Dmm.new_module false "foo" "1.0.0" "https://deno.land/x/foo@1.0.0/mod.ts")
           eq_refl eq_refl)) 38%nat 44%nat 50%nat eq_refl eq_refl eq_refl).
  - vm_compute. lia.
  - vm_compute. lia.
Defined.

(** The line imports a third-party module without a version.  It holds no
    [@], so its version is not the text after an [@]; the version of its
    record is the line up to [/mod.ts]. *)
Lemma version_without_at_sign :
  Dmm.imports_from_registry unversioned_line = true
  ∧ Dmm.std_of unversioned_line = false
  ∧ Dmm.grab unversioned_line = Returned unversioned_record
  ∧ ¬ ∃ pre post,
        unversioned_line
        = pre +:+ "@" +:+ Dmm.version unversioned_record +:+ "/mod.ts" +:+ post.
Proof.
  repeat split.
  intros (pre & post & H).
  assert (JS.indexOf unversioned_line "@" = -1) as Habs by reflexivity.
  apply indexOf_absent in Habs. apply Habs. by eexists _, _.
Qed.

(** ** Lines that import from the registry without matching a pattern *)

(** A line that imports from the registry and is classified as
    third-party never makes the parser throw, whether or not it matches the
    third-party pattern; it is not skipped either: its record, made of
    clamped substrings of the line, is added whenever its name passes the
    filter. *)
Lemma third_party_line_never_throws (modulesForPurpose : list string)
    (purpose dep : string) (modules : list Dmm.Module) (w : World) :
  Dmm.imports_from_registry dep = true →
  Dmm.std_of dep = false →
  ∃ m,
    Dmm.grab dep = Returned m
    ∧ Dmm.collate modulesForPurpose purpose dep modules w
      = if Dmm.wanted modulesForPurpose (Dmm.name m)
        then (Returned (modules ++ [m]),
              mkWorld (cwd w) (files w)
                (console w ++ [ConsoleInfo ("Added " +:+ Dmm.name m
                                  +:+ " into the list to " +:+ purpose)]))
        else (Returned modules, w).
Proof.
  intros Himp Hstd. eexists. split; [by apply grab_third_party|].
  unfold Dmm.collate, Dmm.imports_from_registry in *.
  apply negb_true_iff in Himp. rewrite Himp.
  unfold bind, lift. rewrite (grab_third_party dep Hstd).
  unfold Dmm.wanted. cbn [Dmm.name Dmm.new_module].
  destruct (Z.of_nat (length modulesForPurpose) =? 0);
    cbn [negb andb orb]; [done|].
  rewrite orb_false_r. by destruct (0 <=? JS.arr_indexOf _ _).
Qed.

(** The line imports from the registry and matches neither pattern (it
    holds no [@]); with no module name requested, the parser does not skip
    it but adds a record for it. *)
Lemma malformed_line_not_skipped :
  Dmm.imports_from_registry unversioned_line = true
  ∧ ¬ occurs "@" unversioned_line
  ∧ (Dmm.collate [] "check" unversioned_line [] empty_world).1
    = Returned [unversioned_record].
Proof.
  split; [reflexivity|]. split; [by apply indexOf_absent | reflexivity].
Qed.

(** A line that is classified as standard-library and does not hold
    [/std@], such as an import of the standard library without a version,
    makes the parser throw. *)
Lemma std_line_without_version_throws (modulesForPurpose : list string)
    (purpose dep : string) (modules : list Dmm.Module) (w : World) :
  Dmm.imports_from_registry dep = true →
  Dmm.std_of dep = true →
  ¬ occurs "/std@" dep →
  Dmm.collate modulesForPurpose purpose dep modules w = (Thrown TypeError, w).
Proof.
  intros Himp Hstd Habs. unfold Dmm.collate, Dmm.imports_from_registry in *.
  apply negb_true_iff in Himp. rewrite Himp.
  unfold bind, lift, Dmm.grab, Dmm.version_of. rewrite Hstd.
  by rewrite split_absent.
Qed.

Example unversioned_std_line_throws :
  Dmm.collate [] "check" unversioned_std_line [] empty_world
  = (Thrown TypeError, empty_world).
Proof.
  apply std_line_without_version_throws; [reflexivity..|].
  by apply indexOf_absent.
Qed.

Lemma arr_find_elem (arr : list string) (x : string) :
  is_Some (JS.arr_find arr x) ↔ x ∈ arr.
Proof.
  induction arr as [|y arr IH]; simpl.
  - split; [by intros [? ?] | by intros ?%elem_of_nil].
  - destruct (String.eqb_spec y x) as [->|Hne].
    + split; [intros _; apply elem_of_cons; by left | by eexists].
    + rewrite elem_of_cons, <- IH. destruct (JS.arr_find arr x); simpl.
      * split; [by right | by eexists].
      * split; [by intros [? ?] | intros [?|[? ?]]; congruence].
Qed.

Lemma arr_indexOf_elem (arr : list string) (x : string) :
  0 ≤ JS.arr_indexOf arr x ↔ x ∈ arr.
Proof.
  rewrite <- arr_find_elem. unfold JS.arr_indexOf.
  destruct (JS.arr_find arr x); simpl.
  - split; [by eexists | lia].
  - split; [lia | by intros [? ?]].
Qed.

Lemma wanted_spec (modulesForPurpose : list string) (n : string) :
  Dmm.wanted modulesForPurpose n = true
  ↔ modulesForPurpose = [] ∨ n ∈ modulesForPurpose.
Proof.
  unfold Dmm.wanted.
  destruct (Z.of_nat (length modulesForPurpose) =? 0) eqn:E; cbn [negb andb orb].
  - apply length_zero in E. split; [by left | done].
  - rewrite orb_false_r, Z.leb_le, arr_indexOf_elem.
    split; [by right | intros [->|?]; [done | done]].
Qed.

Lemma selected_spec (dependencies : list string) (m : Commands.IModule) :
  Commands.selected dependencies m = true
  ↔ dependencies = [] ∨ Commands.name m ∈ dependencies.
Proof.
  unfold Commands.selected.
  destruct (Z.of_nat (length dependencies) =? 0) eqn:E; cbn [negb].
  - apply length_zero in E. split; [by left | done].
  - rewrite Z.ltb_lt, <- arr_indexOf_elem.
    split; [intros; right; lia | intros [->|?]; [done | lia]].
Qed.

Lemma arr_filter_filter {A} (f : A → bool) (arr : list A) :
  Commands.arr_filter f arr = List.filter f arr.
Proof. induction arr as [|x arr IH]; simpl; [done | by rewrite IH]. Qed.

Lemma collate_step (modulesForPurpose : list string) (purpose dep : string)
    (modules : list Dmm.Module) (w : World) :
  (Dmm.collate modulesForPurpose purpose dep modules w).1
  = if Dmm.imports_from_registry dep
    then outcome_map (λ m, modules ++ keep modulesForPurpose [m]) (Dmm.grab dep)
    else Returned modules.
Proof.
  unfold Dmm.collate, Dmm.imports_from_registry.
  destruct (JS.indexOf dep _ =? -1); cbn [negb]; [done|].
  unfold bind, lift. destruct (Dmm.grab dep) as [m|e|n]; cbn [outcome_map]; [|done..].
  unfold keep, Dmm.wanted. cbn [List.filter].
  destruct (Z.of_nat (length modulesForPurpose) =? 0); cbn [negb andb orb]; [done|].
  rewrite orb_false_r. destruct (0 <=? JS.arr_indexOf _ _); cbn [andb]; [done|].
  unfold ret. cbn [fst]. by rewrite app_nil_r.
Qed.

Lemma forEach_collate (modulesForPurpose : list string) (purpose : string)
    (deps : list string) (modules : list Dmm.Module) (w : World) :
  (forEach deps (Dmm.collate modulesForPurpose purpose) modules w).1
  = outcome_map (λ ms, modules ++ keep modulesForPurpose ms) (declared_in deps).
Proof.
  revert modules w; induction deps as [|dep rest IH]; intros modules w.
  - cbn. by rewrite app_nil_r.
  - cbn [forEach declared_in]. unfold bind.
    pose proof (collate_step modulesForPurpose purpose dep modules w) as Hstep.
    destruct (Dmm.collate modulesForPurpose purpose dep modules w) as [o w'].
    cbn [fst] in Hstep. subst o.
    destruct (Dmm.imports_from_registry dep).
    + destruct (Dmm.grab dep) as [m|e|n]; cbn [outcome_map]; [|done..].
      rewrite IH. destruct (declared_in rest) as [ms|e|n]; cbn [outcome_map]; [|done..].
      unfold keep. rewrite <- app_assoc, <- List.filter_app. done.
    + apply IH.
Qed.

Lemma names_of_kept (modulesForPurpose : list string) (modules : list Dmm.Module)
    (n : string) :
  n ∈ Dmm.name <$> keep modulesForPurpose modules
  ↔ n ∈ Dmm.name <$> modules ∧ (modulesForPurpose = [] ∨ n ∈ modulesForPurpose).
Proof.
  unfold keep. rewrite !list_elem_of_fmap. split.
  - intros (m & -> & Hin). apply list_elem_of_In, List.filter_In in Hin as [Hin Hw].
    apply wanted_spec in Hw. split; [|done]. exists m. by rewrite list_elem_of_In.
  - intros [(m & -> & Hin) Hw]. exists m. split; [done|].
    apply list_elem_of_In, List.filter_In. split; [by apply list_elem_of_In|].
    by apply wanted_spec.
Qed.

Lemma keep_all (modules : list Dmm.Module) : keep [] modules = modules.
Proof.
  unfold keep. induction modules as [|m ms IH]; [done|].
  cbn. by rewrite IH.
Qed.

(** The outcome of the parser: the records of the importing lines whose
    name passes the filter, in order, or the exception of the first line
    that has no record. *)
Lemma getModulesFromDepsFile_outcome (modulesForPurpose : list string)
    (purpose : string) (w : World) (depsContent : string) :
  files w !! (cwd w +:+ "/deps.ts") = Some depsContent →
  (Dmm.getModulesFromDepsFile modulesForPurpose purpose w).1
  = outcome_map (keep modulesForPurpose) (declared depsContent).
Proof.
  intros Hfile. unfold Dmm.getModulesFromDepsFile, bind, console_info, emit,
    Deno_cwd, readFileSync. cbn [cwd files console]. rewrite Hfile.
  rewrite forEach_collate. unfold declared.
  by destruct (declared_in _).
Qed.

(** C3.  The code against the claim, on a manifest of one line: an import
    of the standard library without a version.  The line imports from the
    registry and matches neither pattern, as it holds no [@].  The parser
    neither skips it nor returns: whatever names are requested, it throws a
    [TypeError], from [dep.split("/std@")[1].split("/")] on line 85, whose
    [dep.split("/std@")[1]] is [undefined]. *)
Theorem parser_throws_on_unversioned_std_import :
  Dmm.imports_from_registry unversioned_std_line = true
  ∧ ¬ occurs "@" unversioned_std_line
  ∧ JS.split unversioned_std_line "/std@" !! 1%nat = None
  ∧ ∀ (modulesForPurpose : list string) (purpose : string),
      Dmm.getModulesFromDepsFile modulesForPurpose purpose
        (world_with unversioned_std_manifest)
      = (Thrown TypeError,
         logged (world_with unversioned_std_manifest) [ConsoleInfo "Reading deps.ts..."]).
Proof.
  split; [reflexivity|]. split; [by apply indexOf_absent|]. split; [reflexivity|].
  intros modulesForPurpose purpose.
  unfold Dmm.getModulesFromDepsFile, bind, console_info, emit, Deno_cwd, readFileSync.
  cbn [cwd files console world_with].
  change (_ !! _) with (Some unversioned_std_manifest). cbn iota beta.
  assert (Dmm.lines_of unversioned_std_manifest = [unversioned_std_line]) as ->
    by reflexivity.
  cbn [forEach]. unfold bind.
  rewrite std_line_without_version_throws; [done | reflexivity | reflexivity |].
  by apply indexOf_absent.
Qed.

Lemma wanted_requested (modulesForPurpose : list string) (n : string) :
  modulesForPurpose ≠ [] →
  Dmm.wanted modulesForPurpose n = bool_decide (n ∈ modulesForPurpose).
Proof.
  intros Hne. destruct (decide (n ∈ modulesForPurpose)) as [Hin|Hout].
  - rewrite bool_decide_eq_true_2 by done. apply wanted_spec. by right.
  - rewrite bool_decide_eq_false_2 by done.
    destruct (Dmm.wanted modulesForPurpose n) eqn:E; [|done].
    apply wanted_spec in E as [?|?]; done.
Qed.

Lemma selected_requested (dependencies : list string) (m : Commands.IModule) :
  dependencies ≠ [] →
  Commands.selected dependencies m = bool_decide (Commands.name m ∈ dependencies).
Proof.
  intros Hne. destruct (decide (Commands.name m ∈ dependencies)) as [Hin|Hout].
  - rewrite bool_decide_eq_true_2 by done. apply selected_spec. by right.
  - rewrite bool_decide_eq_false_2 by done.
    destruct (Commands.selected dependencies m) eqn:E; [|done].
    apply selected_spec in E as [?|?]; done.
Qed.

Lemma declared_in_grab (deps : list string) (all : list Dmm.Module) :
  declared_in deps = Returned all →
  Forall2 (λ dep m, Dmm.grab dep = Returned m)
    (List.filter Dmm.imports_from_registry deps) all.
Proof.
  revert all; induction deps as [|dep rest IH]; intros all; cbn [declared_in List.filter].
  - intros [= <-]. constructor.
  - destruct (Dmm.imports_from_registry dep); [|apply IH].
    destruct (Dmm.grab dep) as [m|e|n] eqn:Eg; [|done..].
    destruct (declared_in rest) as [ms|e|n]; cbn [outcome_map]; [|done..].
    intros [= <-]. constructor; [done | by apply IH].
Qed.

(** ** The rewriter and the text of other modules *)


(** C1, what the code does.  The manifest imports [myfoo] and then [foo],
    both at [1.0.0]; [myfoo] is at its latest release and [foo] is one
    release behind.  The update rewrites the line of [myfoo], which is not
    to be updated, and leaves the line of [foo] as it was: the old fragment
    of [foo], [foo@1.0.0], occurs first inside [myfoo@1.0.0]. *)
Theorem update_rewrites_line_of_other_module :
  Dmm.lines_of myfoo_foo_manifest
  = [ export_line "a" "https://deno.land/x/myfoo@1.0.0/mod.ts";
      export_line "b" "https://deno.land/x/foo@1.0.0/mod.ts" ]
  ∧ (sample_run_update [] (world_with myfoo_foo_manifest)).1
    = Returned
        [ Dmm.mkModule false "myfoo" "1.0.0" "https://deno.land/x/myfoo@1.0.0/mod.ts"
            (Some "https://github.com/acme/myfoo") (Some "1.0.0") None;
          Dmm.mkModule false "foo" "1.0.0" "https://deno.land/x/foo@1.0.0/mod.ts"
            (Some "https://github.com/acme/foo") (Some "2.0.0") (Some true) ]
  ∧ Dmm.lines_of <$> manifest_of (sample_run_update [] (world_with myfoo_foo_manifest)).2
    = Some [ export_line "a" "https://deno.land/x/myfoo@2.0.0/mod.ts";
             export_line "b" "https://deno.land/x/foo@1.0.0/mod.ts" ].
Proof. repeat split; vm_compute; reflexivity. Qed.

(** The later rewriter has the same flaw for the standard library: asked to
    update [text] only, it rewrites the line of [textproto]. *)
Lemma handle_rewrites_line_of_other_module :
  Commands.dependencies_of ["update"; "text"] = ["text"]
  ∧ Dmm.lines_of <$>
      manifest_of (Commands.handle text_service ["update"; "text"]
                     (world_with textproto_text_manifest)).2
    = Some [ export_line "a" "https://deno.land/std@0.60.0/textproto/mod.ts";
             export_line "b" "https://deno.land/std@0.50.0/text/mod.ts" ].
Proof. split; vm_compute; reflexivity. Qed.

(** C2, what the code does.  The manifest mentions [foo@1.0.0] in a comment
    before the line that imports it.  The first update rewrites the comment
    and leaves the import, so the second update, with the same releases,
    still finds [foo] behind and rewrites the import: its text differs from
    the text after the first. *)
Theorem second_update_changes_text :
  manifest_of (sample_run_update [] (world_with commented_manifest)).2
  = Some ("// foo@2.0.0 is the last release that supports the old API" +:+ nl
            +:+ export_line "b" "https://deno.land/x/foo@1.0.0/mod.ts" +:+ nl)
  ∧ manifest_of
      (sample_run_update [] (sample_run_update [] (world_with commented_manifest)).2).2
    = Some ("// foo@2.0.0 is the last release that supports the old API" +:+ nl
              +:+ export_line "b" "https://deno.land/x/foo@2.0.0/mod.ts" +:+ nl)
  ∧ Dmm.updated <$>
      (match (sample_run_update []
                (sample_run_update [] (world_with commented_manifest)).2).1 with
       | Returned modules => modules
       | _ => []
       end)
    = [Some true].
Proof. repeat split; vm_compute; reflexivity. Qed.

(** The same with a request for [foo] on the manifest of [myfoo] and [foo]:
    the first update rewrites the line of [myfoo], the second the line of
    [foo]. *)
Lemma second_update_changes_text_requested :
  Dmm.lines_of <$>
    manifest_of (sample_run_update ["foo"] (world_with myfoo_foo_manifest)).2
  = Some [ export_line "a" "https://deno.land/x/myfoo@2.0.0/mod.ts";
           export_line "b" "https://deno.land/x/foo@1.0.0/mod.ts" ]
  ∧ Dmm.lines_of <$>
      manifest_of
        (sample_run_update ["foo"]
           (sample_run_update ["foo"] (world_with myfoo_foo_manifest)).2).2
    = Some [ export_line "a" "https://deno.land/x/myfoo@2.0.0/mod.ts";
             export_line "b" "https://deno.land/x/foo@2.0.0/mod.ts" ].
Proof. split; vm_compute; reflexivity. Qed.

(** One record replaces one occurrence.  The parser makes a record for
    each importing line, so a module imported on two lines has two records,
    and the step of the second record rewrites the second line. *)
Example one_occurrence_per_record :
  (Dmm.rewrite_module "0.60.0" foo_record twice_foo_manifest).2
  = export_line "b" "https://deno.land/x/foo@2.0.0/mod.ts" +:+ nl
      +:+ export_line "c" "https://deno.land/x/foo@1.0.0/mod.ts" +:+ nl
  ∧ manifest_of (sample_run_update [] (world_with twice_foo_manifest)).2
    = Some (export_line "b" "https://deno.land/x/foo@2.0.0/mod.ts" +:+ nl
              +:+ export_line "c" "https://deno.land/x/foo@2.0.0/mod.ts" +:+ nl).
Proof. split; vm_compute; reflexivity. Qed.

(** ** The scenarios of the specification, run on the embedding *)

(** [fs] of the standard library at [0.50.0], latest [0.60.0]. *)
Example scenario_std_update :
  console (sample_run_check [] (world_with fs_manifest)).2
  = [ ConsoleInfo "Reading deps.ts...";
      ConsoleInfo "Added fs into the list to check";
      ConsoleInfo "Comparing versions...";
      ConsoleLog "fs can be updated from 0.50.0 to 0.60.0";
      ConsoleInfo ("To update, run: " +:+ nl +:+
        "    deno run --allow-net --allow-read --allow-write https://github.com/ebebbington/dmm/mod.ts update fs") ]
  ∧ manifest_of (sample_run_update [] (world_with fs_manifest)).2
    = Some (export_line "fs" "https://deno.land/std@0.60.0/fs/mod.ts" +:+ nl).
Proof. split; vm_compute; reflexivity. Qed.

(** [alpha] and [beta] share a version and only [alpha] is behind. *)
Example scenario_shared_version :
  manifest_of (sample_run_update [] (world_with alpha_beta_manifest)).2
  = Some (export_line "a" "https://deno.land/x/alpha@2.0.0/mod.ts" +:+ nl
            +:+ export_line "b" "https://deno.land/x/beta@1.0.0/mod.ts" +:+ nl).
Proof. vm_compute; reflexivity. Qed.

(** Every module is at its latest release. *)
Example scenario_up_to_date :
  manifest_of (sample_run_update [] (world_with up_to_date_manifest)).2
  = Some up_to_date_manifest
  ∧ console (sample_run_update [] (world_with up_to_date_manifest)).2
    = [ ConsoleInfo "Reading deps.ts...";
        ConsoleInfo "Added fs into the list to update";
        ConsoleInfo "Added beta into the list to update";
        ConsoleInfo "Updating...";
        ConsoleInfo "Everything is already up to date" ].
Proof. split; vm_compute; reflexivity. Qed.

(** * Further properties of the code *)

(** ** The parser and the world *)

Lemma logged_nil (w : World) : logged w [] = w.
Proof. unfold logged. by apply world_eta. Qed.

Lemma logged_logged (w : World) (es es' : list Entry) :
  logged (logged w es) es' = logged w (es ++ es').
Proof. unfold logged. cbn [cwd files console]. by rewrite app_assoc. Qed.

Lemma grab_never_exits (dep : string) (code : Z) : Dmm.grab dep ≠ Exited code.
Proof.
  unfold Dmm.grab, Dmm.version_of, Dmm.name_of.
  destruct (Dmm.std_of dep); [|done].
  destruct (JS.split dep "/std@" !! 1%nat); [|done].
  by destruct (JS.split dep _ !! 1%nat).
Qed.

Lemma declared_in_never_exits (deps : list string) (code : Z) :
  declared_in deps ≠ Exited code.
Proof.
  induction deps as [|dep rest IH]; [done|]. cbn [declared_in].
  destruct (Dmm.imports_from_registry dep); [|done].
  pose proof (grab_never_exits dep code) as Hg.
  destruct (Dmm.grab dep) as [m|e|n]; [|done|].
  - destruct (declared_in rest); [done|done|]. cbn [outcome_map].
    intros [= ->]. by apply IH.
  - intros [= ->]. by apply Hg.
Qed.

(** One step of the loop of the parser, with its effect on the world. *)
Lemma collate_effect (modulesForPurpose : list string) (purpose dep : string)
    (modules : list Dmm.Module) (w : World) :
  Dmm.collate modulesForPurpose purpose dep modules w
  = if Dmm.imports_from_registry dep
    then match Dmm.grab dep with
         | Returned m =>
             if Dmm.wanted modulesForPurpose (Dmm.name m)
             then (Returned (modules ++ [m]), logged w [added_line purpose m])
             else (Returned modules, w)
         | Thrown e => (Thrown e, w)
         | Exited n => (Exited n, w)
         end
    else (Returned modules, w).
Proof.
  unfold Dmm.collate, Dmm.imports_from_registry.
  destruct (JS.indexOf dep _ =? -1); cbn [negb]; [done|].
  unfold bind, lift. destruct (Dmm.grab dep) as [m|e|n]; [|done..].
  unfold Dmm.wanted.
  destruct (Z.of_nat (length modulesForPurpose) =? 0); cbn [negb andb orb]; [done|].
  rewrite orb_false_r. by destruct (0 <=? JS.arr_indexOf _ _).
Qed.

Lemma forEach_collate_world (modulesForPurpose : list string) (purpose : string)
    (deps : list string) (modules : list Dmm.Module) (w : World) :
  ∃ es, (forEach deps (Dmm.collate modulesForPurpose purpose) modules w).2 = logged w es.
Proof.
  revert modules w; induction deps as [|dep rest IH]; intros modules w.
  - exists []. by rewrite logged_nil.
  - cbn [forEach]. unfold bind. rewrite collate_effect.
    destruct (Dmm.imports_from_registry dep); [|apply IH].
    destruct (Dmm.grab dep) as [m|e|n];
      [|exists []; by rewrite logged_nil..].
    destruct (Dmm.wanted modulesForPurpose (Dmm.name m)); [|apply IH].
    destruct (IH (modules ++ [m]) (logged w [added_line purpose m])) as [es ->].
    eexists. apply logged_logged.
Qed.

Lemma forEach_collate_returned (modulesForPurpose : list string) (purpose : string)
    (deps : list string) (modules result : list Dmm.Module) (w w' : World) :
  forEach deps (Dmm.collate modulesForPurpose purpose) modules w = (Returned result, w') →
  ∃ new, result = modules ++ new ∧ w' = logged w (added_line purpose <$> new).
Proof.
  revert modules w; induction deps as [|dep rest IH]; intros modules w.
  - intros [= <- <-]. exists []. by rewrite app_nil_r, logged_nil.
  - cbn [forEach]. unfold bind. rewrite collate_effect.
    destruct (Dmm.imports_from_registry dep); [|apply IH].
    destruct (Dmm.grab dep) as [m|e|n]; [|done..].
    destruct (Dmm.wanted modulesForPurpose (Dmm.name m)); [|apply IH].
    intros (new & -> & ->)%IH. exists (m :: new).
    by rewrite <- app_assoc, logged_logged.
Qed.

(** X1.  The parser reads: whatever the manifest holds and whatever is
    requested, it leaves every file and the working directory as they
    were and never ends the process; without a manifest it throws before
    it looks at any line. *)
Theorem parser_only_reads (modulesForPurpose : list string) (purpose : string)
    (w : World) :
  files (Dmm.getModulesFromDepsFile modulesForPurpose purpose w).2 = files w
  ∧ cwd (Dmm.getModulesFromDepsFile modulesForPurpose purpose w).2 = cwd w
  ∧ (∀ code, (Dmm.getModulesFromDepsFile modulesForPurpose purpose w).1 ≠ Exited code)
  ∧ (files w !! (cwd w +:+ "/deps.ts") = None →
     Dmm.getModulesFromDepsFile modulesForPurpose purpose w
     = (Thrown (NotFound (cwd w +:+ "/deps.ts")),
        logged w [ConsoleInfo "Reading deps.ts..."])).
Proof.
  unfold Dmm.getModulesFromDepsFile, bind, console_info, emit, Deno_cwd, readFileSync.
  cbn [cwd files console].
  destruct (files w !! (cwd w +:+ "/deps.ts")) as [depsContent|] eqn:E;
    [|by repeat split].
  match goal with
  | |- context [forEach ?ds ?f ?a ?w0] =>
      destruct (forEach_collate_world modulesForPurpose purpose ds a w0) as [es Hes];
      pose proof (forEach_collate modulesForPurpose purpose ds a w0) as Hout
  end.
  rewrite Hes. split; [done|]. split; [done|]. split; [|done].
  intros code. rewrite Hout.
  pose proof (declared_in_never_exits (Dmm.lines_of depsContent) code).
  by destruct (declared_in _).
Qed.

(** X2.  When the parser returns, it has printed one line for each record it
    returns, in order, after the line that says it is reading. *)
Theorem parser_prints_one_line_per_record (modulesForPurpose : list string)
    (purpose : string) (w w' : World) (modules : list Dmm.Module) :
  Dmm.getModulesFromDepsFile modulesForPurpose purpose w = (Returned modules, w') →
  w' = logged w (ConsoleInfo "Reading deps.ts..." :: (added_line purpose <$> modules)).
Proof.
  unfold Dmm.getModulesFromDepsFile, bind, console_info, emit, Deno_cwd, readFileSync.
  cbn [cwd files console].
  destruct (files w !! (cwd w +:+ "/deps.ts")) as [depsContent|]; [|done].
  intros (new & Hnew & ->)%forEach_collate_returned.
  cbn [app] in Hnew. subst new. unfold logged. cbn [cwd files console].
  by rewrite <- app_assoc.
Qed.

Lemma parser_prints_one_line_per_record_witness :
  (Dmm.getModulesFromDepsFile ["foo"] "update" (world_with myfoo_foo_manifest)).2
  = logged (world_with myfoo_foo_manifest)
      (ConsoleInfo "Reading deps.ts..."
         :: (added_line "update"
               <$> [Dmm.new_module false "foo" "1.0.0" "https://deno.land/x/foo@1.0.0/mod.ts"])).
Proof.
  apply (parser_prints_one_line_per_record ["foo"] "update" (world_with myfoo_foo_manifest)).
  vm_compute. reflexivity.
Defined.

Lemma declared_in_importing (deps : list string) :
  declared_in deps = declared_in (List.filter Dmm.imports_from_registry deps).
Proof.
  induction deps as [|dep rest IH]; [done|]. cbn [declared_in List.filter].
  destruct (Dmm.imports_from_registry dep) eqn:E; [|done].
  cbn [declared_in]. by rewrite E, IH.
Qed.

(** X3.  Only the lines that import from the registry count: two manifests with
    the same such lines give the same records, or the same exception,
    whatever their other lines are. *)
Theorem parser_ignores_other_lines (modulesForPurpose : list string)
    (purpose : string) (w1 w2 : World) (content1 content2 : string) :
  files w1 !! (cwd w1 +:+ "/deps.ts") = Some content1 →
  files w2 !! (cwd w2 +:+ "/deps.ts") = Some content2 →
  List.filter Dmm.imports_from_registry (Dmm.lines_of content1)
    = List.filter Dmm.imports_from_registry (Dmm.lines_of content2) →
  (Dmm.getModulesFromDepsFile modulesForPurpose purpose w1).1
  = (Dmm.getModulesFromDepsFile modulesForPurpose purpose w2).1.
Proof.
  intros H1 H2 Hsame.
  unfold Dmm.getModulesFromDepsFile, bind, console_info, emit, Deno_cwd, readFileSync.
  cbn [cwd files console]. rewrite H1, H2, !forEach_collate.
  by rewrite (declared_in_importing (Dmm.lines_of content1)), Hsame,
    <- declared_in_importing.
Qed.

Lemma parser_ignores_other_lines_witness :
  (Dmm.getModulesFromDepsFile [] "check" (world_with commented_manifest)).1
  = (Dmm.getModulesFromDepsFile [] "check"
       (world_with (export_line "b" "https://deno.land/x/foo@1.0.0/mod.ts"))).1.
Proof.
  apply (parser_ignores_other_lines [] "check" _ _ commented_manifest
           (export_line "b" "https://deno.land/x/foo@1.0.0/mod.ts"));
    reflexivity.
Defined.

Lemma parser_only_reads_witness :
  Dmm.getModulesFromDepsFile [] "check" empty_world
  = (Thrown (NotFound (cwd empty_world +:+ "/deps.ts")),
     logged empty_world [ConsoleInfo "Reading deps.ts..."]).
Proof.
  apply (proj2 (proj2 (proj2 (parser_only_reads [] "check" empty_world)))).
  reflexivity.
Defined.

(** ** More on [split] *)

Lemma str_app_empty_r (s : string) : s +:+ "" = s.
Proof. induction s as [|c s IH]; simpl; [done | by rewrite IH]. Qed.

Lemma split_go_skip (sep s : string) (j : nat) :
  (j ≤ String.length s)%nat →
  JS.split_go sep j s = JS.split_go sep 0 (JS.drop j s).
Proof.
  revert j; induction s as [|c s IH]; intros j Hj.
  - destruct j; [done | simpl in Hj; lia].
  - destruct j as [|j]; [done|]. cbn [JS.split_go JS.drop].
    apply IH. simpl in Hj. lia.
Qed.

(** A split cuts at the leftmost separator and goes on after it. *)
Lemma split_go_first (sep s : string) (k : nat) :
  sep ≠ "" →
  JS.find_first s sep = Some k →
  JS.split_go sep 0 s
  = JS.take k s :: JS.split_go sep 0 (JS.drop (k + String.length sep) s).
Proof.
  intros Hsep. revert k; induction s as [|c s IH]; intros k.
  - cbn. destruct sep; [done|]. done.
  - cbn [JS.find_first JS.split_go].
    destruct (JS.startsWith (String c s) sep) eqn:E.
    + intros [= <-]. cbn [JS.take]. f_equal.
      apply startsWith_inv in E. apply (f_equal String.length) in E.
      rewrite str_length_app, length_drop in E. cbn [String.length] in E.
      destruct sep as [|d sep]; [done|]. cbn [String.length] in *.
      rewrite split_go_skip by lia.
      replace (S (String.length sep) - 1)%nat with (String.length sep) by lia.
      done.
    + destruct (JS.find_first s sep) as [j|] eqn:Ej; [|done].
      cbn. intros [= <-]. by rewrite (IH j eq_refl).
Qed.

Lemma split_first (s sep : string) (k : nat) :
  sep ≠ "" →
  JS.find_first s sep = Some k →
  JS.split s sep = JS.take k s :: JS.split (JS.drop (k + String.length sep) s) sep.
Proof.
  intros Hsep Hk. destruct sep as [|d sep]; [done|].
  by apply split_go_first.
Qed.

Lemma find_first_absent (s sep : string) :
  JS.find_first s sep = None → JS.split s sep = [s] ∨ sep = "".
Proof.
  intros H. destruct sep as [|d sep]; [by right|]. left.
  apply split_absent; [done|]. by apply find_first_None.
Qed.

Lemma find_first_bound (s sep : string) (k : nat) :
  JS.find_first s sep = Some k → (k + String.length sep ≤ String.length s)%nat.
Proof.
  intros [H Hmin]%find_first_Some. specialize (Hmin _ _ H).
  apply (f_equal String.length) in H.
  rewrite !str_length_app, length_take, length_drop in H.
  rewrite length_take in Hmin. lia.
Qed.

(** The first piece of a split. *)
Lemma split_head (s sep : string) :
  sep ≠ "" → hd "" (JS.split s sep) = upto s sep.
Proof.
  intros Hsep. unfold upto. destruct (JS.find_first s sep) as [k|] eqn:E.
  - by rewrite (split_first s sep k Hsep E).
  - destruct (find_first_absent s sep E) as [-> | ->]; done.
Qed.

(** The second piece of a split, which is absent when the separator is. *)
Lemma split_second (s sep : string) :
  sep ≠ "" →
  JS.split s sep !! 1%nat
  = (λ k, upto (JS.drop (k + String.length sep) s) sep) <$> JS.find_first s sep.
Proof.
  intros Hsep. destruct (JS.find_first s sep) as [k|] eqn:E.
  - rewrite (split_first s sep k Hsep E). cbn.
    rewrite <- (split_head _ sep Hsep).
    destruct sep as [|d sep]; [done|]. cbn [JS.split].
    pose proof (split_go_nonempty (String d sep)
                  (JS.drop (k + String.length (String d sep)) s) 0) as Hne.
    by destruct (JS.split_go _ 0 _).
  - destruct (find_first_absent s sep E) as [-> | ->]; done.
Qed.

Lemma occurs_refl (s : string) : occurs s s.
Proof. exists "", "". by rewrite str_app_empty_r. Qed.

Lemma occurs_take (n : nat) (s : string) : occurs (JS.take n s) s.
Proof. exists "", (JS.drop n s). cbn. by rewrite take_drop_id. Qed.

Lemma occurs_drop (n : nat) (s : string) : occurs (JS.drop n s) s.
Proof. exists (JS.take n s), "". by rewrite str_app_empty_r, take_drop_id. Qed.

Lemma occurs_upto (s sep : string) : occurs (upto s sep) s.
Proof.
  unfold upto. destruct (JS.find_first s sep); [apply occurs_take | apply occurs_refl].
Qed.

(** Every piece of a split is text of the string. *)
Lemma split_pieces_occur (s sep piece : string) :
  sep ≠ "" → piece ∈ JS.split s sep → occurs piece s.
Proof.
  intros Hsep. remember (String.length s) as n eqn:Hn.
  revert s Hn piece. induction n as [n IH] using lt_wf_ind. intros s Hn piece.
  destruct (JS.find_first s sep) as [k|] eqn:E.
  - rewrite (split_first s sep k Hsep E). intros [->|Hin]%elem_of_cons.
    + apply occurs_take.
    + pose proof (find_first_bound _ _ _ E) as Hb.
      assert (String.length sep ≠ 0)%nat as Hlen by (by destruct sep).
      eapply occurs_trans; [|apply (occurs_drop (k + String.length sep) s)].
      eapply (IH (String.length (JS.drop (k + String.length sep) s)));
        [|done|done].
      rewrite length_drop. lia.
  - destruct (find_first_absent s sep E) as [-> | ->]; [|done].
    intros ->%list_elem_of_singleton. apply occurs_refl.
Qed.

(** ** The fields of a record are text of the manifest *)

Lemma grab_fields_occur (dep : string) (m : Dmm.Module) :
  Dmm.grab dep = Returned m →
  occurs (Dmm.name m) dep ∧ occurs (Dmm.version m) dep ∧ occurs (Dmm.url m) dep.
Proof.
  intros (Hstd & Hurl & Hv & Hn)%grab_fields.
  assert (occurs (Dmm.url m) dep) as Hu by (rewrite Hurl; apply substring_occurs).
  unfold Dmm.version_of, Dmm.name_of in *.
  destruct (Dmm.std_of dep).
  - destruct (JS.split dep "/std@" !! 1%nat) as [rest|] eqn:E1; [|done].
    destruct (JS.split dep ("@" +:+ Dmm.version m +:+ "/") !! 1%nat)
      as [rest'|] eqn:E2; [|done].
    injection Hv as Hv. injection Hn as Hn.
    apply list_elem_of_lookup_2 in E1, E2.
    apply split_pieces_occur in E1; [|done].
    apply split_pieces_occur in E2; [|done].
    assert (Dmm.version m = upto rest "/") as Hv'
      by (rewrite <- Hv; by apply (split_head rest "/")).
    assert (Dmm.name m = upto rest' "/") as Hn'
      by (rewrite <- Hn; by apply (split_head rest' "/")).
    repeat split; [| |done].
    + rewrite Hn'. eapply occurs_trans; [apply occurs_upto | done].
    + rewrite Hv'. eapply occurs_trans; [apply occurs_upto | done].
  - injection Hv as <-. injection Hn as <-.
    repeat split; [apply substring_occurs..|done].
Qed.

Lemma lines_occur (depsContent dep : string) :
  dep ∈ Dmm.lines_of depsContent → occurs dep depsContent.
Proof.
  unfold Dmm.lines_of. intros [_ Hin]%list_elem_of_filter.
  by apply (split_pieces_occur depsContent nl).
Qed.

Lemma declared_in_elem (deps : list string) (all : list Dmm.Module) (m : Dmm.Module) :
  declared_in deps = Returned all →
  m ∈ all →
  ∃ dep, dep ∈ deps ∧ Dmm.imports_from_registry dep = true ∧ Dmm.grab dep = Returned m.
Proof.
  revert all; induction deps as [|dep rest IH]; intros all.
  - intros [= <-] Hin. by apply elem_of_nil in Hin.
  - cbn [declared_in]. destruct (Dmm.imports_from_registry dep) eqn:Ei.
    + destruct (Dmm.grab dep) as [m0|e|n] eqn:Eg; [|done..].
      destruct (declared_in rest) as [ms|e|n]; [|done..].
      cbn [outcome_map]. intros [= <-] [->|Hin]%elem_of_cons.
      * exists dep. split; [apply elem_of_cons; by left | done].
      * destruct (IH ms eq_refl Hin) as (d & Hd & H1 & H2).
        exists d. split; [apply elem_of_cons; by right | done].
    + intros Hall Hin. destruct (IH all Hall Hin) as (d & Hd & H1 & H2).
      exists d. split; [apply elem_of_cons; by right | done].
Qed.

(** X4.  Every record the parser returns was read off one line of the manifest
    that imports from the registry, and its name, its version and its URL
    are text of that line, hence of the manifest -- for the
    standard-library lines as for the third-party ones. *)
Theorem parser_fields_verbatim (modulesForPurpose : list string) (purpose : string)
    (w : World) (depsContent : string) (modules : list Dmm.Module) (m : Dmm.Module) :
  files w !! (cwd w +:+ "/deps.ts") = Some depsContent →
  (Dmm.getModulesFromDepsFile modulesForPurpose purpose w).1 = Returned modules →
  m ∈ modules →
  ∃ dep,
    dep ∈ Dmm.lines_of depsContent
    ∧ Dmm.imports_from_registry dep = true
    ∧ Dmm.grab dep = Returned m
    ∧ occurs dep depsContent
    ∧ (occurs (Dmm.name m) dep ∧ occurs (Dmm.version m) dep ∧ occurs (Dmm.url m) dep)
    ∧ (occurs (Dmm.name m) depsContent ∧ occurs (Dmm.version m) depsContent
       ∧ occurs (Dmm.url m) depsContent).
Proof.
  intros Hfile. unfold Dmm.getModulesFromDepsFile, bind, console_info, emit,
    Deno_cwd, readFileSync. cbn [cwd files console]. rewrite Hfile, forEach_collate.
  destruct (declared_in (Dmm.lines_of depsContent)) as [all|e|n] eqn:Hall; [|done..].
  cbn [outcome_map app]. intros [= <-] Hin.
  unfold keep in Hin. apply list_elem_of_In, List.filter_In in Hin as [Hin _].
  apply list_elem_of_In in Hin.
  destruct (declared_in_elem _ _ _ Hall Hin) as (dep & Hdep & Himp & Hgrab).
  pose proof (lines_occur _ _ Hdep) as Hline.
  pose proof (grab_fields_occur _ _ Hgrab) as (Hn & Hv & Hu).
  exists dep. repeat split; try done; by eapply occurs_trans.
Qed.

Lemma parser_fields_verbatim_witness :
  ∃ dep,
    dep ∈ Dmm.lines_of fs_manifest
    ∧ Dmm.imports_from_registry dep = true
    ∧ Dmm.grab dep = Returned (Dmm.new_module true "fs" "0.50.0" "https://deno.land/std@0.50.0/fs/mod.ts")
    ∧ occurs dep fs_manifest
    ∧ (occurs "fs" dep ∧ occurs "0.50.0" dep
       ∧ occurs "https://deno.land/std@0.50.0/fs/mod.ts" dep)
    ∧ (occurs "fs" fs_manifest ∧ occurs "0.50.0" fs_manifest
       ∧ occurs "https://deno.land/std@0.50.0/fs/mod.ts" fs_manifest).
Proof.
  apply (parser_fields_verbatim [] "check" (world_with fs_manifest) fs_manifest
           [Dmm.new_module true "fs" "0.50.0" "https://deno.land/std@0.50.0/fs/mod.ts"]
           (Dmm.new_module true "fs" "0.50.0" "https://deno.land/std@0.50.0/fs/mod.ts")).
  - reflexivity.
  - vm_compute. reflexivity.
  - apply list_elem_of_singleton. reflexivity.
Defined.

(** ** The fields of a standard-library line *)

Lemma drop_length_app (s t : string) : JS.drop (String.length s) (s +:+ t) = t.
Proof. induction s as [|c s IH]; simpl; [by destruct t | done]. Qed.

Lemma take_length_app (s t : string) (k : nat) :
  JS.take (String.length s + k) (s +:+ t) = s +:+ JS.take k t.
Proof. induction s as [|c s IH]; simpl; [done | by rewrite IH]. Qed.

(** No occurrence of a separator starts inside text that lacks its first
    code unit. *)
Lemma find_first_skip (a b sep' : string) (c0 : ascii) :
  ¬ occurs (String c0 "") a →
  JS.find_first (a +:+ b) (String c0 sep')
  = (λ k, (String.length a + k)%nat) <$> JS.find_first b (String c0 sep').
Proof.
  induction a as [|d a IH]; intros Habs.
  - simpl. by destruct (JS.find_first b _).
  - assert (c0 ≠ d) as Hne.
    { intros ->. apply Habs. by exists "", a. }
    assert (¬ occurs (String c0 "") a) as Ha.
    { intros H. apply Habs. by apply occurs_cons. }
    change (String d a +:+ b) with (String d (a +:+ b)).
    cbn [JS.find_first JS.startsWith].
    apply Ascii.eqb_neq in Hne. rewrite Hne. cbn [andb].
    rewrite (IH Ha). by destruct (JS.find_first b _).
Qed.

Lemma upto_app (a b sep' : string) (c0 : ascii) :
  ¬ occurs (String c0 "") a →
  upto (a +:+ b) (String c0 sep') = a +:+ upto b (String c0 sep').
Proof.
  intros Habs. unfold upto. rewrite (find_first_skip a b sep' c0 Habs).
  destruct (JS.find_first b _) as [k|]; cbn [fmap option_fmap option_map]; [|done].
  apply take_length_app.
Qed.

(** What a split at ["/"] keeps of a piece that starts with ["/"]. *)
Lemma upto_slash_of_piece (z sep : string) :
  upto (upto ("/" +:+ z) sep) "/" = "".
Proof.
  unfold upto at 2. destruct (JS.find_first ("/" +:+ z) sep) as [[|k]|]; done.
Qed.

(** The standard-library branch of the parser in closed form. *)
Lemma grab_std (dep : string) :
  Dmm.std_of dep = true →
  Dmm.grab dep
  = match JS.find_first dep "/std@" with
    | None => Thrown TypeError
    | Some k =>
        let version := upto (upto (JS.drop (k + 5) dep) "/std@") "/" in
        let sep := "@" +:+ version +:+ "/" in
        match JS.find_first dep sep with
        | None => Thrown TypeError
        | Some j =>
            Returned (Dmm.new_module true
              (upto (upto (JS.drop (j + String.length sep) dep) sep) "/")
              version (Dmm.url_of dep))
        end
    end.
Proof.
  intros Hstd. unfold Dmm.grab, Dmm.version_of, Dmm.name_of. rewrite Hstd.
  rewrite (split_second dep "/std@") by done.
  destruct (JS.find_first dep "/std@") as [k|]; cbn [fmap option_fmap option_map]; [|done].
  rewrite (split_head _ "/") by done. cbn zeta.
  set (version := upto (upto (JS.drop (k + String.length "/std@") dep) "/std@") "/").
  rewrite (split_second dep ("@" +:+ version +:+ "/")) by done.
  destruct (JS.find_first dep _) as [j|]; cbn [fmap option_fmap option_map]; [|done].
  by rewrite (split_head _ "/") by done.
Qed.

Lemma std_fields_aux (pre v n tail : string) :
  Dmm.std_of (pre +:+ "/std@" +:+ v +:+ "/" +:+ n +:+ "/" +:+ tail) = true →
  JS.find_first (pre +:+ "/std@" +:+ v +:+ "/" +:+ n +:+ "/" +:+ tail) "/std@"
    = Some (String.length pre) →
  JS.find_first (pre +:+ "/std@" +:+ v +:+ "/" +:+ n +:+ "/" +:+ tail)
      ("@" +:+ v +:+ "/")
    = Some (String.length pre + 4)%nat →
  ¬ occurs "/" v →
  ¬ occurs "/" n →
  ¬ occurs "@" n →
  Dmm.grab (pre +:+ "/std@" +:+ v +:+ "/" +:+ n +:+ "/" +:+ tail)
  = Returned (Dmm.new_module true n v
      (Dmm.url_of (pre +:+ "/std@" +:+ v +:+ "/" +:+ n +:+ "/" +:+ tail))).
Proof.
  set (dep := pre +:+ "/std@" +:+ v +:+ "/" +:+ n +:+ "/" +:+ tail).
  intros Hstd Hfirst Hsecond Hv Hn Hat.
  rewrite (grab_std dep Hstd), Hfirst. cbn zeta.
  assert (JS.drop (String.length pre + 5) dep = v +:+ "/" +:+ n +:+ "/" +:+ tail) as Hd1.
  { rewrite <- drop_drop. unfold dep. by rewrite drop_length_app. }
  assert (upto (upto (JS.drop (String.length pre + 5) dep) "/std@") "/" = v) as Hversion.
  { rewrite Hd1. rewrite (upto_app v _ "std@" "/" Hv).
    rewrite (upto_app v _ "" "/" Hv), upto_slash_of_piece.
    apply str_app_empty_r. }
  rewrite Hversion, Hsecond.
  assert (JS.drop (String.length pre + 4 + String.length ("@" +:+ v +:+ "/")) dep
          = n +:+ "/" +:+ tail) as Hd2.
  { replace (String.length pre + 4 + String.length ("@" +:+ v +:+ "/"))%nat
      with (String.length (pre +:+ "/std@" +:+ v +:+ "/")).
    - unfold dep. rewrite <- (drop_length_app (pre +:+ "/std@" +:+ v +:+ "/")
                               (n +:+ "/" +:+ tail)) at 2.
      by rewrite !str_app_assoc.
    - rewrite !str_length_app. cbn [String.length String.append].
      rewrite ?str_length_app. cbn [String.length]. lia. }
  rewrite Hd2.
  change ("@" +:+ v +:+ "/") with (String "@" (v +:+ "/")).
  rewrite (upto_app n _ (v +:+ "/") "@" Hat).
  rewrite (upto_app n _ "" "/" Hn), upto_slash_of_piece.
  by rewrite str_app_empty_r.
Qed.

(** X7.  On a line whose first [/std@] is followed by a version, a slash, a name
    and a slash, the parser reads that version and that name -- provided the
    version holds no slash, the name holds neither a slash nor an [@], and
    the [@] of [/std@] starts the first [@version/] of the line. *)
Theorem std_fields (pre v n tail : string) :
  Dmm.std_of (pre +:+ "/std@" +:+ v +:+ "/" +:+ n +:+ "/" +:+ tail) = true →
  JS.find_first (pre +:+ "/std@" +:+ v +:+ "/" +:+ n +:+ "/" +:+ tail) "/std@"
    = Some (String.length pre) →
  JS.find_first (pre +:+ "/std@" +:+ v +:+ "/" +:+ n +:+ "/" +:+ tail)
      ("@" +:+ v +:+ "/")
    = Some (String.length pre + 4)%nat →
  ¬ occurs "/" v →
  ¬ occurs "/" n →
  ¬ occurs "@" n →
  Dmm.grab (pre +:+ "/std@" +:+ v +:+ "/" +:+ n +:+ "/" +:+ tail)
  = Returned (Dmm.new_module true n v
      (Dmm.url_of (pre +:+ "/std@" +:+ v +:+ "/" +:+ n +:+ "/" +:+ tail))).
Proof. apply std_fields_aux. Qed.

Lemma std_fields_witness :
  Dmm.grab fs_line
  = Returned (Dmm.new_module true "fs" "0.50.0" (Dmm.url_of fs_line)).
Proof.
  apply (std_fields ("export { copy } from " +:+ dquote +:+ "https://deno.land")
           "0.50.0" "fs" ("mod.ts" +:+ dquote +:+ ";")).
  - reflexivity.
  - reflexivity.
  - reflexivity.
  - by apply indexOf_absent.
  - by apply indexOf_absent.
  - by apply indexOf_absent.
Defined.

Lemma upto_then_slash (rest : string) :
  occurs "/" rest →
  ∃ t, rest = upto (upto rest "/std@") "/" +:+ "/" +:+ t.
Proof.
  intros Hslash. unfold upto at 2.
  destruct (JS.find_first rest "/std@") as [k|] eqn:E1.
  - apply find_first_Some in E1 as [Hrest _].
    unfold upto. destruct (JS.find_first (JS.take k rest) "/") as [j|] eqn:E2.
    + apply find_first_Some in E2 as [Hx _].
      eexists. rewrite Hrest at 1. rewrite Hx at 1.
      rewrite !str_app_assoc. reflexivity.
    + eexists. rewrite Hrest at 1. reflexivity.
  - unfold upto. destruct (JS.find_first rest "/") as [j|] eqn:E2.
    + apply find_first_Some in E2 as [Hx _]. eexists. exact Hx.
    + by apply find_first_None in E2.
Qed.

(** X8.  A line classified as standard-library makes the parser return a record,
    and not throw, as soon as a slash follows its first [/std@]. *)
Theorem std_line_returns (dep : string) (k : nat) :
  Dmm.std_of dep = true →
  JS.find_first dep "/std@" = Some k →
  occurs "/" (JS.drop (k + 5) dep) →
  ∃ m, Dmm.grab dep = Returned m
       ∧ Dmm.std m = true
       ∧ Dmm.version m = upto (upto (JS.drop (k + 5) dep) "/std@") "/".
Proof.
  intros Hstd Hk Hslash. rewrite (grab_std dep Hstd), Hk. cbn zeta.
  destruct (upto_then_slash _ Hslash) as [t Ht].
  set (version := upto (upto (JS.drop (k + 5) dep) "/std@") "/") in *.
  destruct (JS.find_first dep ("@" +:+ version +:+ "/")) as [j|] eqn:E.
  - by eexists.
  - apply find_first_None in E. destruct E.
    apply find_first_Some in Hk as [Hdep _]. cbn [String.length] in Hdep.
    exists (JS.take k dep +:+ "/std"), t.
    rewrite Hdep at 1. rewrite Ht at 1.
    by rewrite !str_app_assoc.
Qed.

Lemma std_line_returns_witness :
  ∃ m, Dmm.grab fs_line = Returned m
       ∧ Dmm.std m = true
       ∧ Dmm.version m = upto (upto (JS.drop (39 + 5) fs_line) "/std@") "/".
Proof.
  apply (std_line_returns fs_line 39).
  - reflexivity.
  - reflexivity.
  - by exists "0.50.0", (String.append "fs/mod.ts" (dquote +:+ ";")).
Defined.

(** ** The URL of a record *)

(** X10.  The URL of a record is the text strictly between the last [from "] of
    its line and the last double quote of the line, when that quote comes
    after; when the quote of the last [from "] is itself the last quote of
    the line, the URL is that quote. *)
Theorem url_between_quotes (dep : string) (m : Dmm.Module) (f q : nat) :
  Dmm.grab dep = Returned m →
  JS.find_last dep ("from " +:+ dquote) = Some f →
  JS.find_last dep dquote = Some q →
  ((f + 6 ≤ q)%nat →
   dep = JS.take f dep +:+ "from " +:+ dquote +:+ Dmm.url m +:+ dquote
           +:+ JS.drop (q + 1) dep
   ∧ String.length (Dmm.url m) = (q - (f + 6))%nat)
  ∧ (q = (f + 5)%nat → (f + 6 ≤ String.length dep)%nat → Dmm.url m = dquote).
Proof.
  intros (_ & Hurl & _)%grab_fields Hf Hq. rewrite Hurl. unfold Dmm.url_of.
  pose proof (find_last_split _ _ _ Hf) as [_ Hfl].
  pose proof (find_last_split _ _ _ Hq) as [_ Hql].
  change (String.length ("from " +:+ dquote)) with 6%nat in Hfl.
  change (String.length dquote) with 1%nat in Hql.
  unfold JS.lastIndexOf. rewrite Hf, Hq. cbn [JS.position].
  replace (Z.of_nat f + 6) with (Z.of_nat (f + 6)) by lia.
  split.
  - intros Hfq. rewrite substring_slice by lia.
    rewrite length_slice by lia. split; [|done].
    rewrite <- (take_drop_id f dep) at 1. f_equal.
    rewrite (drop_at_last _ _ _ Hf).
    change (String.length ("from " +:+ dquote)) with 6%nat.
    rewrite str_app_assoc. do 2 f_equal.
    rewrite (drop_slice dep (f + 6) q) at 1 by lia. f_equal.
    apply (drop_at_last _ _ _ Hq).
  - intros -> Hlen. unfold JS.substring.
    replace (Z.min (Z.max (Z.of_nat (f + 6)) 0) (Z.of_nat (String.length dep)))
      with (Z.of_nat (f + 6)) by lia.
    replace (Z.min (Z.max (Z.of_nat (f + 5)) 0) (Z.of_nat (String.length dep)))
      with (Z.of_nat (f + 5)) by lia.
    replace (Z.min (Z.of_nat (f + 6)) (Z.of_nat (f + 5))) with (Z.of_nat (f + 5)) by lia.
    replace (Z.max (Z.of_nat (f + 6)) (Z.of_nat (f + 5))) with (Z.of_nat (f + 6)) by lia.
    replace (Z.to_nat (Z.of_nat (f + 6) - Z.of_nat (f + 5))) with 1%nat by lia.
    rewrite Nat2Z.id. rewrite (drop_at_last _ _ _ Hq). reflexivity.
Qed.

Lemma url_between_quotes_witness :
  foo_line = JS.take 15 foo_line +:+ "from " +:+ dquote
               +:+ "https://deno.land/x/foo@1.0.0/mod.ts" +:+ dquote
               +:+ JS.drop (57 + 1) foo_line.
Proof.
  apply (proj1 (url_between_quotes foo_line
           (Dmm.new_module false "foo" "1.0.0" "https://deno.land/x/foo@1.0.0/mod.ts")
           15 57 eq_refl eq_refl eq_refl)).
  vm_compute. lia.
Defined.

(** ** The resolver *)

(** The last piece of a split is the text after the last separator. *)
Lemma split_last (s sep : string) :
  sep ≠ "" →
  ∃ pre l,
    last (JS.split s sep) = Some l
    ∧ s = pre +:+ l
    ∧ ¬ occurs sep l
    ∧ (pre = "" ∨ ∃ p, pre = p +:+ sep).
Proof.
  intros Hsep. remember (String.length s) as n eqn:Hn.
  revert s Hn. induction n as [n IH] using lt_wf_ind. intros s Hn.
  destruct (JS.find_first s sep) as [k|] eqn:E.
  - pose proof (find_first_bound _ _ _ E) as Hb.
    assert (String.length sep ≠ 0)%nat as Hlen by (by destruct sep).
    destruct (IH (String.length (JS.drop (k + String.length sep) s)))
      with (s := JS.drop (k + String.length sep) s)
      as (pre & l & Hlast & Hrest & Habs & Hpre); [rewrite length_drop; lia | done |].
    exists (JS.take k s +:+ sep +:+ pre), l.
    rewrite (split_first s sep k Hsep E). split; [|split; [|split]].
    + destruct (JS.split (JS.drop (k + String.length sep) s) sep); [done|].
      by rewrite last_cons, Hlast.
    + apply find_first_Some in E as [Hs _]. rewrite Hs at 1.
      rewrite Hrest at 1. by rewrite !str_app_assoc.
    + done.
    + right. destruct Hpre as [->|[p ->]].
      * exists (JS.take k s). by rewrite str_app_empty_r.
      * exists (JS.take k s +:+ sep +:+ p). by rewrite !str_app_assoc.
  - exists "", s. destruct (find_first_absent s sep E) as [-> | ->]; [|done].
    repeat split; [by apply find_first_None | by left].
Qed.

Lemma forEach_mut_world {A} (body : A → Deno A) (arr : list A) (w : World) :
  (∀ x w0, (body x w0).2 = w0) → (forEach_mut arr body w).2 = w.
Proof.
  intros Hbody. revert w; induction arr as [|x rest IH]; intros w; [done|].
  cbn [forEach_mut]. unfold bind.
  pose proof (Hbody x w) as Hx. destruct (body x w) as [[x'| |] w1];
    cbn [snd] in Hx; subst w1; [|done..].
  specialize (IH w). destruct (forEach_mut rest body w) as [[rest'| |] w2];
    cbn [snd] in IH; by subst w2.
Qed.

Lemma forEach_mut_returns {A} (body : A → Deno A) (R : A → A → Prop)
    (arr : list A) (w : World) :
  (∀ x, x ∈ arr → ∃ x', body x w = (Returned x', w) ∧ R x x') →
  ∃ arr', forEach_mut arr body w = (Returned arr', w) ∧ Forall2 R arr arr'.
Proof.
  induction arr as [|x rest IH]; intros Hbody.
  - exists []. by split.
  - cbn [forEach_mut]. unfold bind.
    destruct (Hbody x) as (x' & -> & Hx); [apply elem_of_cons; by left|].
    destruct IH as (rest' & -> & Hrest).
    { intros y Hy. apply Hbody. apply elem_of_cons. by right. }
    exists (x' :: rest'). split; [done | by constructor].
Qed.

Lemma forEach_mut_throws {A} (body : A → Deno A) (before after : list A) (x : A)
    (e : Exn) (w : World) :
  (∀ y, y ∈ before → ∃ y', body y w = (Returned y', w)) →
  body x w = (Thrown e, w) →
  forEach_mut (before ++ x :: after) body w = (Thrown e, w).
Proof.
  intros Hbefore Hx. induction before as [|y ys IH]; cbn [app forEach_mut]; unfold bind.
  - by rewrite Hx.
  - destruct (Hbefore y) as (y' & ->); [apply elem_of_cons; by left|].
    rewrite IH; [done|]. intros z Hz. apply Hbefore. apply elem_of_cons. by right.
Qed.






(** A record named after a property that every object inherits: the
    registry has no such member, and the lookup does not throw. *)
Example inherited_name_resolves :
  Dmm.addGitHubUrlForModules (inr sample_database)
    [Dmm.new_module false "constructor" "1.0.0" "https://deno.land/x/constructor@1.0.0/mod.ts"]
    empty_world
  = (Returned [Dmm.mkModule false "constructor" "1.0.0"
                 "https://deno.land/x/constructor@1.0.0/mod.ts"
                 (Some "https://github.com/undefined/undefined") None None],
     empty_world).
Proof. reflexivity. Qed.

Lemma add_latest_spec (denoStdLatestVersion : string) (fetch_url : string → Exn + string)
    (m : Dmm.Module) (w : World) :
  (∃ m', Dmm.add_latest denoStdLatestVersion fetch_url m w = (Returned m', w)
         ∧ latest_added denoStdLatestVersion fetch_url m m')
  ∨ (Dmm.std m = false
     ∧ ∃ e, fetch_url (latest_request m) = inl e
            ∧ Dmm.add_latest denoStdLatestVersion fetch_url m w = (Thrown e, w)).
Proof.
  unfold Dmm.add_latest, latest_added, latest_request.
  destruct (Dmm.std m) eqn:Hstd.
  - rewrite bool_decide_eq_false_2 by done. left.
    eexists. split; [reflexivity|]. eexists. split; [reflexivity|]. by split.
  - rewrite bool_decide_eq_true_2 by done.
    destruct (fetch_url (JS.str (Dmm.repo m) +:+ "/releases/latest"))
      as [e|res_url] eqn:Hfetch.
    + right. split; [done|]. by exists e.
    + left. destruct (split_last res_url "/")
        as (pre & l & Hlast & Hurl & Habs & Hpre); [done|].
      eexists. split; [reflexivity|]. exists l. rewrite Hlast. cbn [default].
      split; [done|]. split; [done|]. intros _. split; [done|].
      exists pre. by rewrite Hurl.
Qed.



(** X12.  [addLatestReleaseForModules] leaves the world as it is.  When the
    request of every third-party record is answered, it returns the
    records, each with a latest release: the constant for a
    standard-library record; for a third-party record the text after the
    last slash of the address at which the request ends, which holds no
    slash.  When the request of a third-party record is rejected and those
    of the records before it are answered, it throws the exception of that
    request. *)
Theorem addLatestReleaseForModules_last_segment (denoStdLatestVersion : string)
    (fetch_url : string → Exn + string) (modules : list Dmm.Module) (w : World) :
  (Dmm.addLatestReleaseForModules denoStdLatestVersion fetch_url modules w).2 = w
  ∧ ((∀ m, m ∈ modules → Dmm.std m = false →
        ∃ res_url, fetch_url (latest_request m) = inr res_url) →
     ∃ modules',
       (Dmm.addLatestReleaseForModules denoStdLatestVersion fetch_url modules w).1
       = Returned modules'
       ∧ Forall2 (latest_added denoStdLatestVersion fetch_url) modules modules')
  ∧ (∀ before m after e,
       modules = before ++ m :: after →
       (∀ m0, m0 ∈ before → Dmm.std m0 = false →
          ∃ res_url, fetch_url (latest_request m0) = inr res_url) →
       Dmm.std m = false →
       fetch_url (latest_request m) = inl e →
       (Dmm.addLatestReleaseForModules denoStdLatestVersion fetch_url modules w).1
       = Thrown e).
Proof.
  unfold Dmm.addLatestReleaseForModules.
  assert (∀ m, (Dmm.std m = false → ∃ res_url, fetch_url (latest_request m) = inr res_url) →
            ∃ m', Dmm.add_latest denoStdLatestVersion fetch_url m w = (Returned m', w)
                  ∧ latest_added denoStdLatestVersion fetch_url m m') as Hok.
  { intros m Hm.
    destruct (add_latest_spec denoStdLatestVersion fetch_url m w)
      as [Hret|(Hstd & e & He & _)]; [done|].
    destruct (Hm Hstd) as [res_url Hres]. congruence. }
  split; [|split].
  - apply forEach_mut_world. intros m w0.
    by destruct (add_latest_spec denoStdLatestVersion fetch_url m w0)
      as [(m' & -> & _)|(_ & e & _ & ->)].
  - intros Hall.
    destruct (forEach_mut_returns (Dmm.add_latest denoStdLatestVersion fetch_url)
                (latest_added denoStdLatestVersion fetch_url) modules w)
      as (modules' & -> & HR).
    { intros m Hin. apply Hok. intros Hstd. by apply Hall. }
    by exists modules'.
  - intros before m after e -> Hbefore Hstd He.
    rewrite (forEach_mut_throws _ before after m e w); [done| |].
    + intros m0 Hin. destruct (Hok m0) as (m' & Hm' & _); [by apply Hbefore|].
      by exists m'.
    + destruct (add_latest_spec denoStdLatestVersion fetch_url m w)
        as [(m' & _ & latest & _ & _ & Hl)|(_ & e' & He' & ->)].
      * destruct (Hl Hstd) as (_ & pre & Hpre & _). congruence.
      * congruence.
Qed.

Lemma addLatestReleaseForModules_last_segment_witness :
  ∃ modules',
    (Dmm.addLatestReleaseForModules "0.60.0" sample_fetch_url [foo_record] empty_world).1
    = Returned modules'
    ∧ Forall2 (latest_added "0.60.0" sample_fetch_url) [foo_record] modules'.
Proof.
  apply (proj1 (proj2 (addLatestReleaseForModules_last_segment "0.60.0"
                         sample_fetch_url [foo_record] empty_world))).
  intros m _ _. unfold sample_fetch_url. by eexists.
Defined.



(** ** [purposes.check] and [purposes.update] as a whole *)

Lemma can_be_updated_false (m : Dmm.Module) :
  Dmm.can_be_updated m = false ↔ Dmm.latestRelease m = Some (Dmm.version m).
Proof.
  unfold Dmm.can_be_updated. rewrite negb_false_iff. apply strict_eq_Some.
Qed.

(** X14.  [purposes.check] always returns and touches no file.  Between its first
    line and its last it prints one line for each record whose version is
    not its latest release; its last line says that the dependencies are up
    to date exactly when every record is at its latest release, and
    otherwise gives the update command with the names of the others. *)
Theorem purposes_check_output (colours_yellow colours_green : string → string)
    (modules : list Dmm.Module) (w : World) :
  Dmm.purposes_check colours_yellow colours_green modules w
  = (Returned (),
     logged w (ConsoleInfo "Comparing versions..."
                 :: (can_be_updated_line colours_yellow
                       <$> List.filter Dmm.can_be_updated modules)
                 ++ [check_summary colours_green modules]))
  ∧ (Forall (λ m, Dmm.latestRelease m = Some (Dmm.version m)) modules →
     check_summary colours_green modules
     = ConsoleInfo (colours_green "Your dependencies are up to date"))
  ∧ (¬ Forall (λ m, Dmm.latestRelease m = Some (Dmm.version m)) modules →
     check_summary colours_green modules
     = ConsoleInfo
         ("To update, run: " +:+ nl
            +:+ "    deno run --allow-net --allow-read --allow-write https://github.com/ebebbington/dmm/mod.ts update "
            +:+ JS.join (Dmm.name <$> List.filter Dmm.can_be_updated modules) " ")).
Proof.
  split.
  - unfold Dmm.purposes_check, bind, console_info, emit.
    rewrite forEach_compare_versions. cbn [fst snd cwd files console orb].
    unfold check_summary, logged.
    destruct (existsb Dmm.can_be_updated modules); cbn [cwd files console];
      by rewrite <- !app_assoc.
  - assert (existsb Dmm.can_be_updated modules = false
            ↔ Forall (λ m, Dmm.latestRelease m = Some (Dmm.version m)) modules) as Hiff.
    { split.
      - intros E. apply Forall_forall. intros m Hin. apply can_be_updated_false.
        destruct (Dmm.can_be_updated m) eqn:Hm; [|done].
        assert (existsb Dmm.can_be_updated modules = true); [|congruence].
        apply existsb_exists. exists m. by rewrite <- list_elem_of_In.
      - intros Hall. destruct (existsb Dmm.can_be_updated modules) eqn:E; [|done].
        apply existsb_exists in E as (m & Hin & Hm).
        rewrite Forall_forall in Hall. apply list_elem_of_In, Hall in Hin.
        apply can_be_updated_false in Hin. congruence. }
    unfold check_summary. split.
    + intros Hall. apply Hiff in Hall. by rewrite Hall.
    + intros Hnot. destruct (existsb Dmm.can_be_updated modules); [done|].
      destruct Hnot. by apply Hiff.
Qed.

Lemma purposes_check_output_witness :
  check_summary (λ text, text) [Dmm.set_latestRelease foo_record "1.0.0"]
  = ConsoleInfo "Your dependencies are up to date".
Proof.
  apply (proj1 (proj2 (purposes_check_output (λ text, text) (λ text, text)
                         [Dmm.set_latestRelease foo_record "1.0.0"] empty_world))).
  repeat constructor.
Defined.









(** ** What the rewriter keeps and what it puts in *)

(** X18.  The rewriter returns as many records as it was given, in the same
    order, and changes nothing of a record but its [updated] flag. *)
Theorem rewrite_modules_keeps_records (denoStdLatestVersion : string)
    (modules : list Dmm.Module) (text : string) :
  Forall2 same_but_flag modules
    (Dmm.rewrite_modules denoStdLatestVersion modules text).1
  ∧ length (Dmm.rewrite_modules denoStdLatestVersion modules text).1 = length modules.
Proof.
  rewrite rewrite_modules_flags. split; [|by rewrite length_fmap].
  induction modules as [|m ms IH]; [constructor|].
  cbn [fmap list_fmap]. constructor; [|exact IH].
  unfold flagged. by destruct (Dmm.up_to_date denoStdLatestVersion m).
Qed.

(** X19.  For a record that is not up to date, whose old fragment occurs in the
    text and whose new fragment holds no [$], the step of the rewriter puts
    the new fragment where the old fragment stood first, and the length of
    the text changes by the difference of their lengths. *)
Theorem rewrite_module_puts_new_fragment (denoStdLatestVersion : string)
    (module : Dmm.Module) (text : string) :
  Dmm.up_to_date denoStdLatestVersion module = false →
  occurs (Dmm.old_fragment module) text →
  ¬ occurs "$" (Dmm.new_fragment denoStdLatestVersion module) →
  ∃ pre post,
    text = pre +:+ Dmm.old_fragment module +:+ post
    ∧ (∀ pre' post', text = pre' +:+ Dmm.old_fragment module +:+ post' →
         (String.length pre ≤ String.length pre')%nat)
    ∧ (Dmm.rewrite_module denoStdLatestVersion module text).2
      = pre +:+ Dmm.new_fragment denoStdLatestVersion module +:+ post
    ∧ (String.length (Dmm.rewrite_module denoStdLatestVersion module text).2
         + String.length (Dmm.old_fragment module)
       = String.length text
         + String.length (Dmm.new_fragment denoStdLatestVersion module))%nat.
Proof.
  intros Hup Hocc Hplain.
  assert ((Dmm.rewrite_module denoStdLatestVersion module text).2
          = JS.replace text (Dmm.old_fragment module)
              (Dmm.new_fragment denoStdLatestVersion module)) as ->.
  { unfold Dmm.rewrite_module, Dmm.old_fragment, Dmm.new_fragment.
    unfold Dmm.up_to_date in Hup.
    destruct (bool_decide (Dmm.std module = true)); by rewrite Hup. }
  destruct (replace_plain _ _ _ Hocc Hplain) as (pre & post & Ht & Hmin & ->).
  exists pre, post. split; [done|]. split; [done|]. split; [done|].
  apply (f_equal String.length) in Ht. rewrite !str_length_app in *. lia.
Qed.

Lemma rewrite_module_puts_new_fragment_witness :
  ∃ pre post,
    two_fs_lines = pre +:+ Dmm.old_fragment fs_record +:+ post
    ∧ (∀ pre' post', two_fs_lines = pre' +:+ Dmm.old_fragment fs_record +:+ post' →
         (String.length pre ≤ String.length pre')%nat)
    ∧ (Dmm.rewrite_module "0.60.0" fs_record two_fs_lines).2
      = pre +:+ Dmm.new_fragment "0.60.0" fs_record +:+ post
    ∧ (String.length (Dmm.rewrite_module "0.60.0" fs_record two_fs_lines).2
         + String.length (Dmm.old_fragment fs_record)
       = String.length two_fs_lines
         + String.length (Dmm.new_fragment "0.60.0" fs_record))%nat.
Proof.
  apply (rewrite_module_puts_new_fragment "0.60.0" fs_record two_fs_lines).
  - reflexivity.
  - by exists "", (String.append "/mod.ts" (nl +:+ "std@0.50.0/fs/copy.ts")).
  - by apply indexOf_absent.
Defined.



(** ** The later commands as a whole *)

Lemma rewrite_module_effect (m : Commands.IModule) (st : string * bool) (w : World) :
  Commands.rewrite_module m st w
  = (Returned (handle_text m st.1, st.2 || needs_update m),
     logged w (was_updated_info <$> List.filter needs_update [m])).
Proof.
  unfold Commands.rewrite_module, handle_text, needs_update. cbn [List.filter].
  destruct (Commands.strict_eq _ _); cbn [negb].
  - destruct st as [text b]. unfold ret. cbn [fst snd].
    by rewrite orb_false_r, logged_nil.
  - destruct st as [text b]. cbn [fst snd]. by rewrite orb_true_r.
Qed.


Section LaterCommands.

Variable constructModulesDataFromDeps : option string → World → Exn + list Commands.IModule.

(** [check] from the first line to the last. *)
Lemma check_effect (dependencies : list string) (w : World) :
  Commands.check constructModulesDataFromDeps dependencies w
  = match constructModulesDataFromDeps None w with
    | inl e => (Thrown e, w)
    | inr allModules =>
        let selectedModules :=
          Commands.arr_filter (Commands.selected dependencies) allModules in
        match selectedModules with
        | [] => (Exited 1, logged w [no_modules_error])
        | _ :: _ =>
            (Returned (),
             logged w (LoggerInfo "Comparing versions..."
                         :: (can_be_updated_info <$> List.filter needs_update selectedModules)
                         ++ [check_summary_info selectedModules]))
        end
    end.
Proof.
  unfold Commands.check, bind, Commands.construct.
  destruct (constructModulesDataFromDeps None w) as [e|allModules]; [done|].
  cbn zeta. destruct (Commands.arr_filter _ allModules) as [|m ms]; [done|].
  cbn [length]. rewrite Nat2Z.inj_succ.
  assert ((Z.succ (Z.of_nat (length ms)) =? 0) = false) as ->
    by (apply Z.eqb_neq; lia).
  unfold ret at 1. unfold ConsoleLogger_info at 1. unfold emit at 1.
  rewrite forEach_compare_versions_commands. cbn [fst snd cwd files console orb].
  unfold check_summary_info, logged, ConsoleLogger_info, emit.
  destruct (existsb needs_update (m :: ms)); cbn [cwd files console];
    by rewrite <- !app_assoc.
Qed.

(** X21.  [check] never changes a file or the working directory; it throws only
    what the module service throws; and when some record is selected it
    returns, having printed one line for each selected record that is not
    at its latest release and a last line that says the dependencies are
    up to date exactly when there is no such record. *)
Theorem check_output (dependencies : list string) (w : World) :
  files (Commands.check constructModulesDataFromDeps dependencies w).2 = files w
  ∧ cwd (Commands.check constructModulesDataFromDeps dependencies w).2 = cwd w
  ∧ (∀ e, (Commands.check constructModulesDataFromDeps dependencies w).1 = Thrown e →
          constructModulesDataFromDeps None w = inl e)
  ∧ (∀ allModules m selectedModules,
       constructModulesDataFromDeps None w = inr allModules →
       Commands.arr_filter (Commands.selected dependencies) allModules
         = m :: selectedModules →
       Commands.check constructModulesDataFromDeps dependencies w
       = (Returned (),
          logged w (LoggerInfo "Comparing versions..."
                      :: (can_be_updated_info
                            <$> List.filter needs_update (m :: selectedModules))
                      ++ [check_summary_info (m :: selectedModules)]))
       ∧ (check_summary_info (m :: selectedModules)
            = LoggerInfo "Your dependencies are up to date"
          ↔ Forall (λ m', Commands.latestRelease m' = Some (Commands.importedVersion m'))
              (m :: selectedModules))).
Proof.
  rewrite check_effect.
  destruct (constructModulesDataFromDeps None w) as [e|allModules] eqn:Ec.
  - repeat split; try done. by intros e' [= ->].
  - cbn zeta. split; [|split; [|split]].
    + by destruct (Commands.arr_filter _ allModules).
    + by destruct (Commands.arr_filter _ allModules).
    + intros e. by destruct (Commands.arr_filter _ allModules).
    + intros all m ms [= <-] ->. split; [done|].
      unfold check_summary_info.
      assert (∀ m', needs_update m' = false
                    ↔ Commands.latestRelease m' = Some (Commands.importedVersion m'))
        as Hnu.
      { intros m'. unfold needs_update. rewrite negb_false_iff.
        destruct (Commands.latestRelease m') as [l|]; cbn; [|done].
        rewrite String.eqb_eq. split; [by intros -> | by intros [= ->]]. }
      destruct (existsb needs_update (m :: ms)) eqn:E.
      * split; [done|]. intros Hall. exfalso.
        apply existsb_exists in E as (m' & Hin & Hm).
        rewrite Forall_forall in Hall. apply list_elem_of_In, Hall, Hnu in Hin.
        congruence.
      * split; [|done]. intros _. apply Forall_forall. intros m' Hin.
        apply Hnu. destruct (needs_update m') eqn:Hm; [|done].
        assert (existsb needs_update (m :: ms) = true); [|congruence].
        apply existsb_exists. exists m'. by rewrite <- list_elem_of_In.
Qed.




End LaterCommands.

Lemma check_output_witness :
  Commands.check fs_service [] empty_world
  = (Returned (),
     logged empty_world
       (LoggerInfo "Comparing versions..."
          :: (can_be_updated_info
                <$> List.filter needs_update
                      [Commands.mkIModule true "fs" "0.50.0"
                         "https://deno.land/std@0.50.0/fs/mod.ts" (Some "0.60.0")])
          ++ [check_summary_info
                [Commands.mkIModule true "fs" "0.50.0"
                   "https://deno.land/std@0.50.0/fs/mod.ts" (Some "0.60.0")]])).
Proof.
  apply (proj2 (proj2 (proj2 (check_output fs_service [] empty_world)))
           [Commands.mkIModule true "fs" "0.50.0"
              "https://deno.land/std@0.50.0/fs/mod.ts" (Some "0.60.0")]);
    reflexivity.
Defined.



(** ** The arguments of [UpdateSubcommand.handle] *)

Lemma arr_find_by_spec {A} (f : A → bool) (arr : list A) :
  match Commands.arr_find_by f arr with
  | Some x => x ∈ arr ∧ f x = true
  | None => ∀ x, x ∈ arr → f x = false
  end.
Proof.
  induction arr as [|y arr IH]; cbn [Commands.arr_find_by].
  - intros x Hx. by apply elem_of_nil in Hx.
  - destruct (f y) eqn:E.
    + split; [apply elem_of_cons; by left | done].
    + destruct (Commands.arr_find_by f arr) as [x|].
      * destruct IH as [Hin Hf]. split; [apply elem_of_cons; by right | done].
      * intros x [->|Hin]%elem_of_cons; [done | by apply IH].
Qed.

Lemma contains_spec (s pat : string) : (-1 <? JS.indexOf s pat) = true ↔ occurs pat s.
Proof. rewrite Z.ltb_lt, <- indexOf_occurs. lia. Qed.

Lemma lacks_spec (s pat : string) : (JS.indexOf s pat =? -1) = true ↔ ¬ occurs pat s.
Proof. rewrite Z.eqb_eq. apply indexOf_absent. Qed.

Lemma arr_find_by_first {A} (f : A → bool) (arr : list A) :
  match Commands.arr_find_by f arr with
  | Some x => ∃ before after,
                arr = before ++ x :: after ∧ f x = true
                ∧ ∀ y, y ∈ before → f y = false
  | None => ∀ x, x ∈ arr → f x = false
  end.
Proof.
  induction arr as [|y arr IH]; cbn [Commands.arr_find_by].
  - intros x Hx. by apply elem_of_nil in Hx.
  - destruct (f y) eqn:E.
    + exists [], arr. split; [done|]. split; [done|].
      intros z Hz. by apply elem_of_nil in Hz.
    + destruct (Commands.arr_find_by f arr) as [x|].
      * destruct IH as (before & after & -> & Hf & Hbefore).
        exists (y :: before), after. split; [done|]. split; [done|].
        intros z [->|Hz]%elem_of_cons; [done | by apply Hbefore].
      * intros x [->|Hin]%elem_of_cons; [done | by apply IH].
Qed.

(** X24.  How [UpdateSubcommand.handle] reads its arguments.  The module names are
    the arguments that hold neither [.ts] nor [update], so a module whose
    name holds one of them cannot be asked for.  The location is the first
    argument that holds [.ts] -- no argument before it does -- or [deps.ts]
    when no argument holds [.ts]; it always holds [.ts] and is never among
    the module names. *)
Theorem handle_arguments (args : list string) :
  (∀ name, name ∈ Commands.dependencies_of args
           ↔ name ∈ args ∧ ¬ occurs ".ts" name ∧ ¬ occurs "update" name)
  ∧ occurs ".ts" (Commands.depsLocation_of args)
  ∧ ((∃ before after,
        args = before ++ Commands.depsLocation_of args :: after
        ∧ ∀ arg, arg ∈ before → ¬ occurs ".ts" arg)
     ∨ (Commands.depsLocation_of args = "deps.ts" ∧ ∀ arg, arg ∈ args → ¬ occurs ".ts" arg))
  ∧ (∀ before loc after,
       args = before ++ loc :: after →
       occurs ".ts" loc →
       (∀ arg, arg ∈ before → ¬ occurs ".ts" arg) →
       Commands.depsLocation_of args = loc)
  ∧ Commands.depsLocation_of args ∉ Commands.dependencies_of args.
Proof.
  assert (∀ name, name ∈ Commands.dependencies_of args
                  ↔ name ∈ args ∧ ¬ occurs ".ts" name ∧ ¬ occurs "update" name) as Hdeps.
  { intros name. unfold Commands.dependencies_of.
    rewrite arr_filter_filter, list_elem_of_In, List.filter_In, <- list_elem_of_In.
    by rewrite andb_true_iff, !lacks_spec. }
  assert (occurs ".ts" (Commands.depsLocation_of args)
          ∧ ((∃ before after,
                args = before ++ Commands.depsLocation_of args :: after
                ∧ ∀ arg, arg ∈ before → ¬ occurs ".ts" arg)
             ∨ (Commands.depsLocation_of args = "deps.ts"
                ∧ ∀ arg, arg ∈ args → ¬ occurs ".ts" arg))) as [Hts Hloc].
  { unfold Commands.depsLocation_of.
    pose proof (arr_find_by_first (λ arg, -1 <? JS.indexOf arg ".ts") args) as H.
    destruct (Commands.arr_find_by _ args) as [loc|]; cbn [default].
    - destruct H as (before & after & Hargs & Hf & Hbefore).
      split; [by apply contains_spec|]. left. exists before, after. split; [done|].
      intros arg Hin Hocc. apply contains_spec in Hocc.
      rewrite (Hbefore arg Hin) in Hocc. done.
    - split; [by exists "deps", "" |]. right. split; [done|].
      intros arg Hin Hocc. apply contains_spec in Hocc.
      rewrite (H arg Hin) in Hocc. done. }
  split; [done|]. split; [done|]. split; [done|]. split.
  - intros before loc after -> Hocc Hbefore. unfold Commands.depsLocation_of.
    clear Hdeps Hts Hloc. induction before as [|arg before IH];
      cbn [app Commands.arr_find_by].
    + apply contains_spec in Hocc. by rewrite Hocc.
    + destruct (-1 <? JS.indexOf arg ".ts") eqn:E.
      * apply contains_spec in E. destruct (Hbefore arg); [apply elem_of_cons; by left | done].
      * apply IH. intros a Ha. apply Hbefore. apply elem_of_cons. by right.
  - intros Hin. apply Hdeps in Hin as (_ & Hno & _). done.
Qed.

Lemma handle_arguments_witness :
  Commands.depsLocation_of ["update"; "fs"; "src/deps.ts"; "other.ts"] = "src/deps.ts".
Proof.
  apply (proj1 (proj2 (proj2 (proj2 (handle_arguments
           ["update"; "fs"; "src/deps.ts"; "other.ts"]))))
           ["update"; "fs"] "src/deps.ts" ["other.ts"]).
  - reflexivity.
  - by exists "src/deps", "".
  - intros arg Hin. apply lacks_spec.
    apply elem_of_cons in Hin as [->|Hin]; [reflexivity|].
    apply list_elem_of_singleton in Hin as ->. reflexivity.
Defined.

(** ** The step of [UpdateSubcommand.handle] for a third-party record *)

Lemma occurs_unit_app (c : ascii) (a b : string) :
  occurs (String c "") (a +:+ b) → occurs (String c "") a ∨ occurs (String c "") b.
Proof.
  induction a as [|d a IH]; [by right|].
  intros (pre & post & Heq). destruct pre as [|e pre]; simpl in Heq.
  - injection Heq as -> _. left. by exists "", a.
  - injection Heq as -> Heq. destruct IH as [H|H]; [by exists pre, post | |by right].
    left. by apply occurs_cons.
Qed.

Lemma occurs_app_l (pat a b : string) : occurs pat a → occurs pat (a +:+ b).
Proof.
  intros (pre & post & ->). exists pre, (post +:+ b). by rewrite !str_app_assoc.
Qed.

Lemma occurs_app_r (pat a b : string) : occurs pat b → occurs pat (a +:+ b).
Proof.
  intros (pre & post & ->). exists (a +:+ pre), post. by rewrite !str_app_assoc.
Qed.

(** X25.  For a third-party record that is not at its latest release, with no
    [$] in its URL or in its latest release: when the URL holds the imported
    version and the text holds the URL, the step puts the latest release
    where the version stands first in the URL, and the new URL where the
    URL stands first in the text; when the URL does not hold the imported
    version, the step leaves the text as it is.  Either way the record is
    printed as updated and the loop records an update. *)
Theorem handle_third_party_step (m : Commands.IModule) (latest text : string)
    (b : bool) (w : World) :
  Commands.std m = false →
  Commands.latestRelease m = Some latest →
  latest ≠ Commands.importedVersion m →
  ¬ occurs "$" latest →
  ¬ occurs "$" (Commands.importUrl m) →
  (occurs (Commands.importedVersion m) (Commands.importUrl m) →
   occurs (Commands.importUrl m) text →
   ∃ p q pre post,
     Commands.importUrl m = p +:+ Commands.importedVersion m +:+ q
     ∧ (∀ p' q', Commands.importUrl m = p' +:+ Commands.importedVersion m +:+ q' →
          (String.length p ≤ String.length p')%nat)
     ∧ text = pre +:+ Commands.importUrl m +:+ post
     ∧ (∀ pre' post', text = pre' +:+ Commands.importUrl m +:+ post' →
          (String.length pre ≤ String.length pre')%nat)
     ∧ Commands.rewrite_module m (text, b) w
       = (Returned (pre +:+ (p +:+ latest +:+ q) +:+ post, true),
          logged w [was_updated_info m]))
  ∧ (¬ occurs (Commands.importedVersion m) (Commands.importUrl m) →
     Commands.rewrite_module m (text, b) w
     = (Returned (text, true), logged w [was_updated_info m])).
Proof.
  intros Hstd Hlatest Hne Hl Hu.
  assert (needs_update m = true) as Hnu.
  { unfold needs_update. rewrite Hlatest. cbn. apply negb_true_iff, String.eqb_neq.
    congruence. }
  rewrite rewrite_module_effect. unfold handle_text. rewrite Hnu, Hstd, Hlatest.
  cbn [fst snd List.filter JS.str fmap list_fmap]. rewrite Hnu, orb_true_r.
  cbn [fmap list_fmap]. split.
  - intros Hv Ht.
    destruct (replace_plain _ _ latest Hv Hl) as (p & q & Hurl & Hpmin & Hnew).
    assert (¬ occurs "$" (p +:+ latest +:+ q)) as Hplain.
    { intros [H|H]%occurs_unit_app.
      - apply Hu. rewrite Hurl. by apply occurs_app_l.
      - apply occurs_unit_app in H as [H|H]; [done|].
        apply Hu. rewrite Hurl. by apply occurs_app_r, occurs_app_r. }
    rewrite Hnew.
    destruct (replace_plain _ _ (p +:+ latest +:+ q) Ht Hplain)
      as (pre & post & Htext & Hmin & ->).
    by exists p, q, pre, post.
  - intros Hv. rewrite (replace_absent _ _ _ Hv).
    destruct (JS.find_first text (Commands.importUrl m)) as [k|] eqn:E.
    + assert (occurs (Commands.importUrl m) text) as Ht.
      { apply find_first_Some in E as [E _]. by eexists _, _. }
      destruct (replace_plain _ _ (Commands.importUrl m) Ht Hu)
        as (pre & post & Htext & _ & ->). by rewrite <- Htext.
    + rewrite replace_absent; [done|]. by apply find_first_None.
Qed.

Lemma handle_third_party_step_witness :
  ∃ p q pre post,
    Commands.importUrl foo_imodule = p +:+ Commands.importedVersion foo_imodule +:+ q
    ∧ (∀ p' q', Commands.importUrl foo_imodule
                = p' +:+ Commands.importedVersion foo_imodule +:+ q' →
         (String.length p ≤ String.length p')%nat)
    ∧ foo_line = pre +:+ Commands.importUrl foo_imodule +:+ post
    ∧ (∀ pre' post', foo_line = pre' +:+ Commands.importUrl foo_imodule +:+ post' →
         (String.length pre ≤ String.length pre')%nat)
    ∧ Commands.rewrite_module foo_imodule (foo_line, false) empty_world
      = (Returned (pre +:+ (p +:+ "2.0.0" +:+ q) +:+ post, true),
         logged empty_world [was_updated_info foo_imodule]).
Proof.
  apply (proj1 (handle_third_party_step foo_imodule "2.0.0" foo_line false empty_world
                  eq_refl eq_refl ltac:(discriminate)
                  ltac:(by apply indexOf_absent) ltac:(by apply indexOf_absent))).
  - by exists "https://deno.land/x/foo@", "/mod.ts".
  - by exists ("import { foo } from " +:+ dquote), (String.append dquote ";").
Defined.

(** ** From the parts of a third-party line to its record, and back after
    an update *)

(** An occurrence with none after it is the last one. *)
Lemma find_last_intro (s pat : string) (k : nat) :
  (k ≤ String.length s)%nat →
  JS.startsWith (JS.drop k s) pat = true →
  ¬ occurs pat (JS.drop (k + 1) s) →
  JS.find_last s pat = Some k.
Proof.
  intros Hk Hstart Hnone.
  assert (occurs pat s) as Hocc.
  { apply startsWith_inv in Hstart. exists (JS.take k s), (JS.drop (String.length pat) (JS.drop k s)).
    rewrite <- Hstart. by rewrite take_drop_id. }
  destruct (JS.find_last s pat) as [k'|] eqn:E; [|by apply find_last_None in E].
  f_equal. pose proof (find_last_le _ _ _ E) as Hle.
  pose proof (find_last_Some _ _ _ E) as [Hstart' Hmax].
  assert (k ≤ k')%nat as Hkk.
  { apply startsWith_inv in Hstart.
    specialize (Hmax (JS.take k s) (JS.drop (String.length pat) (JS.drop k s))).
    rewrite <- Hstart, take_drop_id, length_take in Hmax. specialize (Hmax eq_refl). lia. }
  destruct (decide (k' = k)) as [->|Hne]; [done|]. exfalso. apply Hnone.
  apply startsWith_inv in Hstart'.
  exists (JS.take (k' - (k + 1)) (JS.drop (k + 1) s)),
         (JS.drop (String.length pat) (JS.drop k' s)).
  rewrite <- Hstart'. apply drop_slice. lia.
Qed.

Lemma find_last_at (a pat b : string) :
  ¬ occurs pat (JS.drop 1 (pat +:+ b)) →
  JS.find_last (a +:+ pat +:+ b) pat = Some (String.length a).
Proof.
  intros Hnone. apply find_last_intro.
  - rewrite str_length_app. lia.
  - rewrite drop_length_app. apply startsWith_app.
  - by rewrite <- drop_drop, drop_length_app.
Qed.

Lemma take_length_exact (s t : string) : JS.take (String.length s) (s +:+ t) = s.
Proof.
  rewrite <- (Nat.add_0_r (String.length s)), take_length_app.
  destruct t; apply str_app_empty_r.
Qed.

Lemma third_party_line_parsed_aux (pre n v post : string) :
  markers_last pre n v post →
  Dmm.grab (third_party_line pre n v post)
  = Returned (Dmm.new_module false n v (Dmm.url_of (third_party_line pre n v post))).
Proof.
  intros (Hstd & Hx & Hat & Hmod).
  rewrite (grab_third_party _ Hstd). unfold JS.lastIndexOf.
  set (line := third_party_line pre n v post).
  assert (JS.find_last line "/x/" = Some (String.length pre)) as ->.
  { unfold line, third_party_line. by apply find_last_at. }
  assert (line = (pre +:+ "/x/" +:+ n) +:+ "@" +:+ v +:+ "/mod.ts" +:+ post) as Hl1.
  { unfold line, third_party_line. by rewrite !str_app_assoc. }
  assert (line = (pre +:+ "/x/" +:+ n +:+ "@" +:+ v) +:+ "/mod.ts" +:+ post) as Hl2.
  { unfold line, third_party_line. by rewrite !str_app_assoc. }
  assert (JS.find_last line "@" = Some (String.length (pre +:+ "/x/" +:+ n))) as ->.
  { rewrite Hl1. by apply find_last_at. }
  assert (JS.find_last line "/mod.ts"
          = Some (String.length (pre +:+ "/x/" +:+ n +:+ "@" +:+ v))) as ->.
  { rewrite Hl2. by apply find_last_at. }
  cbn [JS.position].
  assert (String.length line
          = (String.length pre + 3 + String.length n + 1 + String.length v + 7
             + String.length post)%nat) as Hlen.
  { unfold line, third_party_line. rewrite !str_length_app. cbn [String.length]. lia. }
  assert (String.length (pre +:+ "/x/" +:+ n)
          = (String.length pre + 3 + String.length n)%nat) as Hla.
  { rewrite !str_length_app. cbn [String.length]. lia. }
  assert (String.length (pre +:+ "/x/" +:+ n +:+ "@" +:+ v)
          = (String.length pre + 3 + String.length n + 1 + String.length v)%nat) as Hle.
  { rewrite !str_length_app. cbn [String.length]. lia. }
  replace (Z.of_nat (String.length pre) + 3) with (Z.of_nat (String.length pre + 3)) by lia.
  replace (Z.of_nat (String.length (pre +:+ "/x/" +:+ n)) + 1)
    with (Z.of_nat (String.length (pre +:+ "/x/" +:+ n) + 1)) by lia.
  rewrite !substring_slice by lia.
  assert (JS.drop (String.length pre + 3) line
          = n +:+ "@" +:+ v +:+ "/mod.ts" +:+ post) as ->.
  { rewrite <- drop_drop. unfold line, third_party_line. by rewrite drop_length_app. }
  assert (JS.drop (String.length (pre +:+ "/x/" +:+ n) + 1) line
          = v +:+ "/mod.ts" +:+ post) as ->.
  { rewrite <- drop_drop, Hl1. by rewrite drop_length_app. }
  replace (String.length (pre +:+ "/x/" +:+ n) - (String.length pre + 3))%nat
    with (String.length n) by lia.
  replace (String.length (pre +:+ "/x/" +:+ n +:+ "@" +:+ v)
           - (String.length (pre +:+ "/x/" +:+ n) + 1))%nat
    with (String.length v) by lia.
  by rewrite !take_length_exact.
Qed.


(** X9.  A third-party line whose markers are the last of their kind is parsed
    into the name and the version that stand between them. *)
Theorem third_party_line_parsed (pre n v post : string) :
  markers_last pre n v post →
  Dmm.grab (third_party_line pre n v post)
  = Returned (Dmm.new_module false n v (Dmm.url_of (third_party_line pre n v post))).
Proof. apply third_party_line_parsed_aux. Qed.

Lemma third_party_line_parsed_witness :
  Dmm.grab (third_party_line ("import { foo } from " +:+ dquote +:+ "https://deno.land")
              "foo" "1.0.0" (dquote +:+ ";"))
  = Returned (Dmm.new_module false "foo" "1.0.0"
                (Dmm.url_of (third_party_line
                   ("import { foo } from " +:+ dquote +:+ "https://deno.land")
                   "foo" "1.0.0" (dquote +:+ ";")))).
Proof.
  apply (third_party_line_parsed ("import { foo } from " +:+ dquote +:+ "https://deno.land")
           "foo" "1.0.0" (dquote +:+ ";")).
  split; [reflexivity|]. split; [by apply indexOf_absent|].
  split; by apply indexOf_absent.
Defined.



(** ** One record for each importing line, each on one line *)

Lemma declared_in_length (deps : list string) (all : list Dmm.Module) :
  declared_in deps = Returned all →
  length all = length (List.filter Dmm.imports_from_registry deps).
Proof.
  revert all; induction deps as [|dep rest IH]; intros all.
  - by intros [= <-].
  - cbn [declared_in List.filter]. destruct (Dmm.imports_from_registry dep).
    + destruct (Dmm.grab dep) as [m|e|n]; [|done..].
      destruct (declared_in rest) as [ms|e|n]; [|done..].
      cbn [outcome_map]. intros [= <-]. cbn [length]. by rewrite (IH ms eq_refl).
    + apply IH.
Qed.

Lemma keep_length (modulesForPurpose : list string) (modules : list Dmm.Module) :
  (length (keep modulesForPurpose modules) ≤ length modules)%nat.
Proof.
  unfold keep. induction modules as [|m ms IH]; [done|].
  cbn [List.filter]. destruct (Dmm.wanted _ _); cbn [length]; lia.
Qed.

(** X6.  The parser makes one record for each line that imports from the
    registry: when nothing is requested it returns as many records as
    there are such lines, two for a module that is imported on two lines,
    and never more than that when names are requested. *)
Theorem parser_one_record_per_line (modulesForPurpose : list string) (purpose : string)
    (w : World) (depsContent : string) (modules : list Dmm.Module) :
  files w !! (cwd w +:+ "/deps.ts") = Some depsContent →
  (Dmm.getModulesFromDepsFile modulesForPurpose purpose w).1 = Returned modules →
  (length modules
   ≤ length (List.filter Dmm.imports_from_registry (Dmm.lines_of depsContent)))%nat
  ∧ (modulesForPurpose = [] →
     length modules
     = length (List.filter Dmm.imports_from_registry (Dmm.lines_of depsContent))).
Proof.
  intros Hfile. unfold Dmm.getModulesFromDepsFile, bind, console_info, emit,
    Deno_cwd, readFileSync. cbn [cwd files console]. rewrite Hfile, forEach_collate.
  destruct (declared_in (Dmm.lines_of depsContent)) as [all|e|n] eqn:Hall; [|done..].
  cbn [outcome_map app]. intros [= <-].
  rewrite <- (declared_in_length _ _ Hall). split; [apply keep_length|].
  intros ->. by rewrite keep_all.
Qed.

Lemma parser_one_record_per_line_witness :
  2%nat = length (List.filter Dmm.imports_from_registry (Dmm.lines_of twice_foo_manifest)).
Proof.
  apply (proj2 (parser_one_record_per_line [] "update" (world_with twice_foo_manifest)
           twice_foo_manifest
           [Dmm.new_module false "foo" "1.0.0" "https://deno.land/x/foo@1.0.0/mod.ts";
            Dmm.new_module false "foo" "1.0.0" "https://deno.land/x/foo@1.0.0/mod.ts"]
           eq_refl eq_refl) eq_refl).
Defined.

(** No piece of a split holds the separator. *)
Lemma split_pieces_lack_sep (s sep piece : string) :
  sep ≠ "" → piece ∈ JS.split s sep → ¬ occurs sep piece.
Proof.
  intros Hsep. remember (String.length s) as n eqn:Hn.
  revert s Hn piece. induction n as [n IH] using lt_wf_ind. intros s Hn piece.
  assert (String.length sep ≠ 0)%nat as Hlen by (by destruct sep).
  destruct (JS.find_first s sep) as [k|] eqn:E.
  - rewrite (split_first s sep k Hsep E). intros [->|Hin]%elem_of_cons.
    + intros (p & q & Hpq).
      pose proof (find_first_Some _ _ _ E) as [_ Hmin].
      pose proof (find_first_bound _ _ _ E) as Hb.
      specialize (Hmin p (q +:+ JS.drop k s)).
      rewrite <- (take_drop_id k s) in Hmin at 1. rewrite Hpq, !str_app_assoc in Hmin.
      specialize (Hmin eq_refl).
      apply (f_equal String.length) in Hpq.
      rewrite length_take, !str_length_app in Hpq. lia.
    + pose proof (find_first_bound _ _ _ E) as Hb.
      eapply (IH (String.length (JS.drop (k + String.length sep) s))); [|done|done].
      rewrite length_drop. lia.
  - destruct (find_first_absent s sep E) as [-> | ->]; [|done].
    intros ->%list_elem_of_singleton. by apply find_first_None.
Qed.

(** X5.  No record spans lines: a line of the manifest is not empty and holds no
    line feed, and neither does the name, the version or the URL of a
    record, so that the fragment the rewriter looks for lies on one line. *)
Theorem parser_fields_on_one_line (modulesForPurpose : list string) (purpose : string)
    (w : World) (depsContent : string) (modules : list Dmm.Module) (m : Dmm.Module) :
  files w !! (cwd w +:+ "/deps.ts") = Some depsContent →
  (Dmm.getModulesFromDepsFile modulesForPurpose purpose w).1 = Returned modules →
  m ∈ modules →
  (∀ dep, dep ∈ Dmm.lines_of depsContent → dep ≠ "" ∧ ¬ occurs nl dep)
  ∧ ¬ occurs nl (Dmm.name m)
  ∧ ¬ occurs nl (Dmm.version m)
  ∧ ¬ occurs nl (Dmm.url m).
Proof.
  intros Hfile.
  assert (∀ dep, dep ∈ Dmm.lines_of depsContent → dep ≠ "" ∧ ¬ occurs nl dep) as Hlines.
  { intros dep. unfold Dmm.lines_of. intros [Hne Hin]%list_elem_of_filter.
    split; [done|]. by apply (split_pieces_lack_sep depsContent nl). }
  unfold Dmm.getModulesFromDepsFile, bind, console_info, emit, Deno_cwd, readFileSync.
  cbn [cwd files console]. rewrite Hfile, forEach_collate.
  destruct (declared_in (Dmm.lines_of depsContent)) as [all|e|n] eqn:Hall; [|done..].
  cbn [outcome_map app]. intros [= <-] Hin.
  unfold keep in Hin. apply list_elem_of_In, List.filter_In in Hin as [Hin _].
  apply list_elem_of_In in Hin.
  destruct (declared_in_elem _ _ _ Hall Hin) as (dep & Hdep & _ & Hgrab).
  destruct (Hlines dep Hdep) as [_ Hnl].
  pose proof (grab_fields_occur _ _ Hgrab) as (Hn & Hv & Hu).
  split; [done|].
  repeat split; intros H; apply Hnl; by eapply occurs_trans.
Qed.

Lemma parser_fields_on_one_line_witness :
  (∀ dep, dep ∈ Dmm.lines_of fs_manifest → dep ≠ "" ∧ ¬ occurs nl dep)
  ∧ ¬ occurs nl "fs"
  ∧ ¬ occurs nl "0.50.0"
  ∧ ¬ occurs nl "https://deno.land/std@0.50.0/fs/mod.ts".
Proof.
  apply (parser_fields_on_one_line [] "check" (world_with fs_manifest) fs_manifest
           [Dmm.new_module true "fs" "0.50.0" "https://deno.land/std@0.50.0/fs/mod.ts"]
           (Dmm.new_module true "fs" "0.50.0" "https://deno.land/std@0.50.0/fs/mod.ts")).
  - reflexivity.
  - vm_compute. reflexivity.
  - apply list_elem_of_singleton. reflexivity.
Defined.

(** * The filter, and the names that a manifest declares *)

Lemma spec_lines (rawText : string) : Spec.lines rawText = Dmm.lines_of rawText.
Proof.
  unfold Spec.lines, Dmm.lines_of.
  induction (JS.split rawText nl) as [|l ls IH]; [done|].
  cbn [List.filter]. rewrite filter_cons, IH.
  destruct (String.eqb_spec l ""); destruct (decide (l ≠ "")); done.
Qed.

Lemma find_first_is_Some (s pat : string) :
  occurs pat s → is_Some (JS.find_first s pat).
Proof.
  intros H. destruct (JS.find_first s pat) eqn:E; [by eexists|].
  by apply find_first_None in E.
Qed.

Lemma find_first_unit (a b : string) (c0 : ascii) :
  ¬ occurs (String c0 "") a →
  JS.find_first (a +:+ String c0 b) (String c0 "") = Some (String.length a).
Proof.
  intros H. rewrite (find_first_skip a _ "" c0 H).
  cbn [JS.find_first JS.startsWith]. rewrite Ascii.eqb_refl. cbn.
  f_equal. lia.
Qed.

Lemma imports_from_registry_occurs (dep : string) :
  Dmm.imports_from_registry dep = true
  ↔ occurs ("from " +:+ dquote +:+ "https://deno.land/") dep.
Proof.
  unfold Dmm.imports_from_registry. rewrite negb_true_iff, Z.eqb_neq.
  rewrite <- indexOf_occurs. unfold JS.indexOf.
  destruct (JS.find_first dep _); cbn; lia.
Qed.

Lemma declared_name_candidate (line n : string) :
  Spec.declared_name line = Some n →
  occurs ("from " +:+ dquote +:+ "https://deno.land/") line.
Proof.
  unfold Spec.declared_name, Spec.quoted_source.
  destruct (JS.find_first line ("from " +:+ dquote)) as [k|] eqn:E1; [|done].
  cbn zeta.
  destruct (JS.find_first (JS.drop (k + 6) line) dquote) as [j|] eqn:E2; [|done].
  destruct (JS.startsWith _ _) eqn:E3; [|done]. intros _.
  apply find_first_Some in E1 as [Hline _]. apply find_first_Some in E2 as [Hrest _].
  apply startsWith_spec in E3 as [t Ht].
  change (k + String.length ("from " +:+ dquote))%nat with (k + 6)%nat in Hline.
  rewrite Ht in Hrest. rewrite Hrest in Hline.
  exists (JS.take k line), (t +:+ dquote
    +:+ JS.drop (j + String.length dquote) (JS.drop (k + 6) line)).
  rewrite Hline at 1. by rewrite !str_app_assoc.
Qed.

Lemma plain_third_party_declared (line n : string) :
  plain_third_party_line line n →
  Spec.declared_name line = Some n
  ∧ ∃ m, Dmm.grab line = Returned m ∧ Dmm.name m = n.
Proof.
  intros (head & v & tail & -> & Hfrom & Hqn & Hqv & Hatn & Hlast).
  split; [|rewrite (third_party_line_parsed_aux _ _ _ _ Hlast); by eexists].
  destruct Hlast as (Hstd & _).
  set (url := "https://deno.land/x/" +:+ n +:+ "@" +:+ v +:+ "/mod.ts").
  assert (third_party_line (head +:+ "from " +:+ dquote +:+ "https://deno.land")
            n v (dquote +:+ tail)
          = (head +:+ "from " +:+ dquote) +:+ url +:+ dquote +:+ tail) as Hline.
  { unfold third_party_line, url. by rewrite !str_app_assoc. }
  rewrite Hline in *. clear Hline.
  unfold Spec.declared_name, Spec.quoted_source. rewrite Hfrom. cbn zeta.
  replace (String.length head + 6)%nat with (String.length (head +:+ "from " +:+ dquote))
    by (by rewrite str_length_app).
  rewrite drop_length_app.
  assert (¬ occurs dquote url) as Hq.
  { unfold url. intros H.
    apply occurs_unit_app in H as [H|H]; [revert H; by apply indexOf_absent|].
    apply occurs_unit_app in H as [H|H]; [done|].
    apply occurs_unit_app in H as [H|H]; [revert H; by apply indexOf_absent|].
    apply occurs_unit_app in H as [H|H]; [done|].
    revert H; by apply indexOf_absent. }
  change (url +:+ dquote +:+ tail) with (url +:+ String dquote_unit tail).
  pose proof (find_first_unit url tail dquote_unit Hq) as Hf.
  change (String dquote_unit "") with dquote in Hf. rewrite Hf, take_length_exact.
  clear Hf.
  assert (JS.startsWith url "https://deno.land/" = true) as -> by reflexivity.
  assert (JS.indexOf url "https://deno.land/std" = -1) as ->.
  { apply indexOf_absent. intros H.
    assert (occurs "https://deno.land/std"
              ((head +:+ "from " +:+ dquote) +:+ url +:+ dquote +:+ tail)) as Ho
      by (apply occurs_app_r, occurs_app_l; exact H).
    apply indexOf_occurs in Ho. unfold Dmm.std_of in Hstd.
    apply Z.leb_gt in Hstd. lia. }
  cbn [Z.leb Z.compare]. unfold Spec.third_party_name.
  assert (JS.find_first url "/x/" = Some 17%nat) as -> by reflexivity.
  change (JS.drop (17 + 3) url) with (n +:+ String "@" (v +:+ "/mod.ts")).
  rewrite (find_first_unit n _ "@" Hatn).
  replace (String.length n + 1)%nat with (String.length (n +:+ "@"))
    by (rewrite str_length_app; reflexivity).
  change (n +:+ String "@" (v +:+ "/mod.ts")) with (n +:+ "@" +:+ v +:+ "/mod.ts").
  rewrite <- (str_app_assoc n "@") at 1. rewrite drop_length_app.
  destruct (find_first_is_Some (v +:+ "/mod.ts") "/") as [i ->];
    [by exists v, "mod.ts"|].
  by rewrite take_length_exact.
Qed.

Lemma plain_std_declared (line n : string) :
  plain_std_line line n →
  Spec.declared_name line = Some n
  ∧ ∃ m, Dmm.grab line = Returned m ∧ Dmm.name m = n.
Proof.
  intros (head & v & path & tail & -> & Hfrom & Hstd1 & Hstd2
          & Hsv & Hsn & Hatn & Hqv & Hqn & Hqp).
  set (url := "https://deno.land/std@" +:+ v +:+ "/" +:+ n +:+ "/" +:+ path).
  assert ((head +:+ "from " +:+ dquote +:+ "https://deno.land")
            +:+ "/std@" +:+ v +:+ "/" +:+ n +:+ "/" +:+ path +:+ dquote +:+ tail
          = (head +:+ "from " +:+ dquote) +:+ url +:+ dquote +:+ tail) as Hline.
  { unfold url. by rewrite !str_app_assoc. }
  split.
  2: { rewrite (std_fields_aux _ v n (path +:+ dquote +:+ tail)); [by eexists| |done..].
       unfold Dmm.std_of. apply Z.leb_le, indexOf_occurs. rewrite Hline.
       apply occurs_app_r, occurs_app_l.
       by exists "", ("@" +:+ v +:+ "/" +:+ n +:+ "/" +:+ path). }
  rewrite Hline in *. clear Hline Hstd1 Hstd2.
  unfold Spec.declared_name, Spec.quoted_source. rewrite Hfrom. cbn zeta.
  replace (String.length head + 6)%nat with (String.length (head +:+ "from " +:+ dquote))
    by (by rewrite str_length_app).
  rewrite drop_length_app.
  assert (¬ occurs dquote url) as Hq.
  { unfold url. intros H.
    apply occurs_unit_app in H as [H|H]; [revert H; by apply indexOf_absent|].
    apply occurs_unit_app in H as [H|H]; [done|].
    apply occurs_unit_app in H as [H|H]; [revert H; by apply indexOf_absent|].
    apply occurs_unit_app in H as [H|H]; [done|].
    apply occurs_unit_app in H as [H|H]; [revert H; by apply indexOf_absent|].
    done. }
  change (url +:+ dquote +:+ tail) with (url +:+ String dquote_unit tail).
  pose proof (find_first_unit url tail dquote_unit Hq) as Hf.
  change (String dquote_unit "") with dquote in Hf. rewrite Hf, take_length_exact.
  clear Hf.
  assert (JS.startsWith url "https://deno.land/" = true) as -> by reflexivity.
  assert (JS.indexOf url "https://deno.land/std" = 0) as -> by reflexivity.
  cbn [Z.leb Z.compare]. unfold Spec.std_name.
  assert (JS.find_first url "/std@" = Some 17%nat) as -> by reflexivity.
  change (JS.drop (17 + 5) url) with (v +:+ String "/" (n +:+ "/" +:+ path)).
  rewrite (find_first_unit v _ "/" Hsv). cbn zeta.
  replace (String.length v + 1)%nat with (String.length (v +:+ "/"))
    by (rewrite str_length_app; reflexivity).
  assert (JS.drop (String.length (v +:+ "/")) (v +:+ String "/" (n +:+ "/" +:+ path))
          = n +:+ String "/" path) as ->.
  { change (v +:+ String "/" (n +:+ "/" +:+ path))
      with (v +:+ "/" +:+ n +:+ String "/" path).
    rewrite <- (str_app_assoc v "/"). apply drop_length_app. }
  rewrite (find_first_unit n _ "/" Hsn).
  by rewrite take_length_exact.
Qed.

Lemma plain_lines_declared (deps : list string) :
  (∀ line, line ∈ deps →
     occurs ("from " +:+ dquote +:+ "https://deno.land/") line →
     ∃ n, plain_third_party_line line n ∨ plain_std_line line n) →
  ∃ all, declared_in deps = Returned all
         ∧ Dmm.name <$> all = omap Spec.declared_name deps.
Proof.
  induction deps as [|line rest IH]; intros Hplain.
  - by exists [].
  - destruct IH as (all & Hall & Hnames).
    { intros l Hl. apply Hplain. apply elem_of_cons. by right. }
    cbn [declared_in omap list_omap]. rewrite Hall.
    destruct (Dmm.imports_from_registry line) eqn:Himp.
    + destruct (Hplain line) as [n Hn];
        [apply elem_of_cons; by left | by apply imports_from_registry_occurs|].
      assert (Spec.declared_name line = Some n
              ∧ ∃ m, Dmm.grab line = Returned m ∧ Dmm.name m = n)
        as (Hspec & m & Hgrab & Hname).
      { destruct Hn as [Hn|Hn];
          [by apply plain_third_party_declared | by apply plain_std_declared]. }
      rewrite Hgrab, Hspec. exists (m :: all). cbn. by rewrite Hname, Hnames.
    + destruct (Spec.declared_name line) as [n|] eqn:Hspec.
      * apply declared_name_candidate, imports_from_registry_occurs in Hspec. congruence.
      * by exists all.
Qed.

(** Both lines of the manifest are plain: nothing follows the closing
    quote of either but a semicolon. *)
Example plain_manifest_sample : plain_manifest myfoo_foo_manifest.
Proof.
  intros line Hin _.
  change (Spec.lines myfoo_foo_manifest)
    with [export_line "a" "https://deno.land/x/myfoo@1.0.0/mod.ts";
          export_line "b" "https://deno.land/x/foo@1.0.0/mod.ts"] in Hin.
  apply elem_of_cons in Hin as [->|Hin]; [|apply list_elem_of_singleton in Hin as ->].
  - exists "myfoo". left. exists "export { a } ", "1.0.0", ";".
    split; [reflexivity|]. split; [reflexivity|].
    split; [by apply indexOf_absent|]. split; [by apply indexOf_absent|].
    split; [by apply indexOf_absent|].
    split; [reflexivity|]. split; [by apply indexOf_absent|].
    split; by apply indexOf_absent.
  - exists "foo". left. exists "export { b } ", "1.0.0", ";".
    split; [reflexivity|]. split; [reflexivity|].
    split; [by apply indexOf_absent|]. split; [by apply indexOf_absent|].
    split; [by apply indexOf_absent|].
    split; [reflexivity|]. split; [by apply indexOf_absent|].
    split; by apply indexOf_absent.
Qed.

(** A well-formed import of the standard library is plain too. *)
Example plain_std_line_sample :
  plain_std_line fs_line "fs"
  ∧ Spec.declared_name fs_line = Some "fs"
  ∧ Dmm.grab fs_line = Returned fs_line_record.
Proof.
  split; [|by split].
  exists "export { copy } ", "0.50.0", "mod.ts", ";".
  split; [reflexivity|]. split; [reflexivity|]. split; [reflexivity|].
  split; [reflexivity|]. repeat split; by apply indexOf_absent.
Qed.

(** C6, as the code has it.  With names requested, the parser returns
    exactly those of the records it returns with no name requested whose
    name is requested, in the same order; whether it returns at all does
    not depend on the request.  With no name requested, it returns one
    record for each line that imports from the registry: the record that
    the line-by-line extraction reads off that line.  On a manifest in
    which every such line is plain, the names of these records are the
    names that the manifest declares, so the names returned are all the
    declared names, or those of them that are requested; on other
    manifests the names are those that the extraction reads, not those
    that the lines declare.  The filter of [check] and of
    [UpdateSubcommand.handle] selects the same way. *)
Theorem requested_records_of_parsed (modulesForPurpose : list string)
    (purpose : string) (w : World) :
  (modulesForPurpose ≠ [] →
   (Dmm.getModulesFromDepsFile modulesForPurpose purpose w).1
   = outcome_map (List.filter (λ m, bool_decide (Dmm.name m ∈ modulesForPurpose)))
       (Dmm.getModulesFromDepsFile [] purpose w).1)
  ∧ (∀ depsContent all,
       files w !! (cwd w +:+ "/deps.ts") = Some depsContent →
       (Dmm.getModulesFromDepsFile [] purpose w).1 = Returned all →
       Forall2 (λ dep m, Dmm.grab dep = Returned m)
         (List.filter Dmm.imports_from_registry (Dmm.lines_of depsContent)) all)
  ∧ (∀ depsContent,
       files w !! (cwd w +:+ "/deps.ts") = Some depsContent →
       plain_manifest depsContent →
       ∃ all,
         (Dmm.getModulesFromDepsFile [] purpose w).1 = Returned all
         ∧ Dmm.name <$> all = Spec.declared_names depsContent
         ∧ ∀ n, n ∈ Dmm.name
                      <$> List.filter (λ m, bool_decide (Dmm.name m ∈ modulesForPurpose)) all
                ↔ n ∈ Spec.declared_names depsContent ∧ n ∈ modulesForPurpose)
  ∧ (∀ allModules : list Commands.IModule,
       Commands.arr_filter (Commands.selected []) allModules = allModules
       ∧ (modulesForPurpose ≠ [] →
          Commands.arr_filter (Commands.selected modulesForPurpose) allModules
          = List.filter (λ m, bool_decide (Commands.name m ∈ modulesForPurpose))
              allModules)).
Proof.
  split; [|split; [|split]].
  - intros Hne.
    destruct (files w !! (cwd w +:+ "/deps.ts")) as [depsContent|] eqn:Hfile.
    + rewrite !(getModulesFromDepsFile_outcome _ _ _ _ Hfile).
      destruct (declared depsContent) as [ms|e|n]; cbn [outcome_map]; [|done..].
      rewrite keep_all. unfold keep. f_equal.
      apply List.filter_ext. intros m. by apply wanted_requested.
    + unfold Dmm.getModulesFromDepsFile, bind, console_info, emit,
        Deno_cwd, readFileSync. cbn [cwd files console]. by rewrite Hfile.
  - intros depsContent all Hfile Hall.
    rewrite (getModulesFromDepsFile_outcome _ _ _ _ Hfile) in Hall.
    destruct (declared depsContent) as [ms|e|n] eqn:Hdecl; cbn [outcome_map] in Hall;
      [|done..].
    rewrite keep_all in Hall. injection Hall as ->. by apply declared_in_grab.
  - intros depsContent Hfile Hplain.
    destruct (plain_lines_declared (Dmm.lines_of depsContent)) as (all & Hall & Hnames).
    { intros line Hin. apply Hplain. by rewrite spec_lines. }
    exists all. rewrite (getModulesFromDepsFile_outcome _ _ _ _ Hfile).
    unfold declared. rewrite Hall. cbn [outcome_map]. rewrite keep_all.
    split; [done|]. unfold Spec.declared_names. rewrite spec_lines, <- Hnames.
    split; [done|]. intros n. rewrite !list_elem_of_fmap. split.
    + intros (m & -> & Hin). apply list_elem_of_In, List.filter_In in Hin as [Hin Hm].
      apply bool_decide_eq_true_1 in Hm. split; [|done].
      exists m. by rewrite list_elem_of_In.
    + intros [(m & -> & Hin) Hreq]. exists m. split; [done|].
      apply list_elem_of_In, List.filter_In. split; [by apply list_elem_of_In|].
      by apply bool_decide_eq_true_2.
  - intros allModules. rewrite !arr_filter_filter. split.
    + induction allModules as [|m rest IH]; [done|]. cbn. by rewrite IH.
    + intros Hne. apply List.filter_ext. intros m. by apply selected_requested.
Qed.

Lemma requested_records_of_parsed_witness :
  (Dmm.getModulesFromDepsFile ["foo"] "update" (world_with myfoo_foo_manifest)).1
  = outcome_map (List.filter (λ m, bool_decide (Dmm.name m ∈ ["foo"])))
      (Dmm.getModulesFromDepsFile [] "update" (world_with myfoo_foo_manifest)).1
  ∧ ∃ all,
      (Dmm.getModulesFromDepsFile [] "update" (world_with myfoo_foo_manifest)).1
      = Returned all
      ∧ Dmm.name <$> all = Spec.declared_names myfoo_foo_manifest
      ∧ ∀ n, n ∈ Dmm.name <$> List.filter (λ m, bool_decide (Dmm.name m ∈ ["foo"])) all
             ↔ n ∈ Spec.declared_names myfoo_foo_manifest ∧ n ∈ ["foo"].
Proof.
  split.
  - apply (proj1 (requested_records_of_parsed ["foo"] "update"
                    (world_with myfoo_foo_manifest))).
    discriminate.
  - apply (proj1 (proj2 (proj2 (requested_records_of_parsed ["foo"] "update"
                                  (world_with myfoo_foo_manifest))))
             myfoo_foo_manifest).
    + reflexivity.
    + exact plain_manifest_sample.
Defined.

(** The manifest declares [foo], on a line that ends in a comment.  With
    [foo] requested the parser returns no record; with nothing requested it
    returns one record, under the name [fs] that it reads off the
    comment. *)
Lemma declared_name_not_returned :
  Spec.declared_names commented_import_manifest = ["foo"]
  ∧ (Dmm.getModulesFromDepsFile ["foo"] "check" (world_with commented_import_manifest)).1
    = Returned []
  ∧ outcome_map (fmap Dmm.name)
      (Dmm.getModulesFromDepsFile [] "check" (world_with commented_import_manifest)).1
    = Returned ["fs"].
Proof. repeat split. Qed.
